(** * C-Sentinel network probe ([src/net_probe.c]): shallow embedding and
    verification of the network-state probe and correlation engine.

    The C code is embedded function by function.  Integers are [Z], C strings
    are [string] (the bytes before the terminating NUL), the fixed-size arrays
    of [network_info_t] are lists indexed with stdpp's lookup and insert, and
    the [network_info_t *net] that the parsers mutate is threaded explicitly.
    The part of the world the probe reads (files under /proc, directories,
    symbolic links) is a record of three lookup functions. *)

From Stdlib Require Import ZArith Ascii String Lia.
From stdpp Require Import base numbers list strings pretty gmap.

Local Open Scope Z_scope.

(** ** The C library functions the probe calls *)

Module libc.

(** The first [n] bytes of a string. *)
Fixpoint strn (n : nat) (s : string) : string :=
  match n, s with
  | S k, String c s' => String c (strn k s')
  | _, _ => ""
  end.

(** [snprintf(buf, size, ..)] where the expanded format is [s]: at most
    [size - 1] bytes are stored before the NUL ([size] is a [sizeof], never
    0, in this program). *)
Definition snprintf (size : nat) (s : string) : string := strn (Nat.pred size) s.

(** [%d], [%u] and [%lu] conversions of [printf]. *)
Definition fmt_d (n : Z) : string := pretty n.

Definition newline : ascii := "010"%char.

(** [isspace] in the C locale. *)
Definition isspace (c : ascii) : bool := Ascii.is_space c.

Definition isdigit (c : ascii) : bool :=
  let n := Z.of_nat (nat_of_ascii c) in (48 <=? n) && (n <=? 57).

(** Value of a digit in base 10 or 16 ([None]: not a digit of that base). *)
Definition digit_val (base : Z) (c : ascii) : option Z :=
  let n := Z.of_nat (nat_of_ascii c) in
  if (48 <=? n) && (n <=? 57) then Some (n - 48)
  else if (base =? 16) && (65 <=? n) && (n <=? 70) then Some (n - 55)
  else if (base =? 16) && (97 <=? n) && (n <=? 102) then Some (n - 87)
  else None.

(** The scan set [[0-9A-Fa-f]]. *)
Definition isxdigit (c : ascii) : bool := bool_decide (is_Some (digit_val 16 c)).

(** One call [fgets(buf, size, f)] on a stream whose unread bytes are
    [s]: bytes are taken up to and including the first newline, at most
    [room = size - 1] of them. *)
Fixpoint fgets_go (room : nat) (s : string) : string * string :=
  match room, s with
  | S k, String c s' =>
      if Ascii.eqb c newline then (String c "", s')
      else let '(l, r) := fgets_go k s' in (String c l, r)
  | _, _ => ("", s)
  end.

(** [None] is the NULL return (end of file before any byte). *)
Definition fgets (size : nat) (s : string) : option (string * string) :=
  match size with
  | O => None
  | S O => Some ("", s)
  | S room => match s with "" => None | _ => Some (fgets_go room s) end
  end.

(** The strings returned by successive calls of [fgets(buf, size, f)]
    until it returns NULL, for [size >= 2]; [room] is what is left of the
    buffer for the line being read. *)
Fixpoint fgets_all (size : nat) (room : nat) (s : string) : list string :=
  match s with
  | "" => []
  | String c s' =>
      if Ascii.eqb c newline || (room =? 1)%nat
      then String c "" :: fgets_all size (Nat.pred size) s'
      else match fgets_all size (Nat.pred room) s' with
           | [] => [String c ""]
           | l :: ls => String c l :: ls
           end
  end.

Definition lines (size : nat) (s : string) : list string :=
  fgets_all size (Nat.pred size) s.

(** *** [sscanf] directives.  Each takes the unread input and returns the
    converted value with the input left, or [None] when the directive
    fails (matching or input failure). *)

(** White space in the format: any amount of white space in the input. *)
Fixpoint skip_ws (s : string) : string :=
  match s with
  | String c s' => if isspace c then skip_ws s' else s
  | "" => ""
  end.

(** An ordinary character in the format. *)
Definition scan_lit (c : ascii) (s : string) : option string :=
  match s with
  | String c' s' => if Ascii.eqb c c' then Some s' else None
  | "" => None
  end.

Fixpoint span (p : ascii → bool) (width : nat) (s : string) : string * string :=
  match width, s with
  | S w, String c s' =>
      if p c then let '(l, r) := span p w s' in (String c l, r) else ("", s)
  | _, _ => ("", s)
  end.

(** [%<width>[set]]: no white space is skipped, at least one byte is
    needed. *)
Definition scan_set (width : nat) (p : ascii → bool) (s : string)
  : option (string * string) :=
  match span p width s with
  | ("", _) => None
  | r => Some r
  end.

(** [%*s]: white space is skipped, then the bytes up to the next white
    space are consumed; at least one is needed. *)
Fixpoint skip_word (s : string) : string :=
  match s with
  | String c s' => if isspace c then s else skip_word s'
  | "" => ""
  end.

Definition scan_s (s : string) : option string :=
  match skip_ws s with
  | "" => None
  | String _ s' => Some (skip_word s')
  end.

(** The digits of a number, most significant first. *)
Fixpoint digits (base : Z) (acc : Z) (s : string) : Z * string :=
  match s with
  | String c s' =>
      match digit_val base c with
      | Some d => digits base (acc * base + d) s'
      | None => (acc, s)
      end
  | "" => (acc, "")
  end.

Definition scan_sign (s : string) : bool * string :=
  match s with
  | String "-" s' => (true, s')
  | String "+" s' => (false, s')
  | _ => (false, s)
  end.

(** The integer conversions: white space, an optional sign, for base 16 an
    optional [0x], then digits.  The result is the sign and the magnitude
    written in the input. *)
Definition scan_int (base : Z) (s : string) : option (bool * Z * string) :=
  let '(neg, s1) := scan_sign (skip_ws s) in
  match s1 with
  | String "0" (String x s2) =>
      if (base =? 16) && (Ascii.eqb x "x" || Ascii.eqb x "X")
      then let '(v, r) := digits base 0 s2 in Some (neg, v, r)
      else let '(v, r) := digits base 0 s1 in Some (neg, v, r)
  | String c _ =>
      match digit_val base c with
      | Some _ => let '(v, r) := digits base 0 s1 in Some (neg, v, r)
      | None => None
      end
  | "" => None
  end.

Definition ULONG_MAX : Z := 2 ^ 64 - 1.
Definition LONG_MAX : Z := 2 ^ 63 - 1.
Definition LONG_MIN : Z := - 2 ^ 63.

(** What [strtoul] makes of a sign and a magnitude (64-bit [unsigned
    long]): ULONG_MAX when the magnitude does not fit, the negation
    modulo 2^64 after a minus sign. *)
Definition strtoul_val (neg : bool) (v : Z) : Z :=
  if ULONG_MAX <? v then ULONG_MAX
  else if neg then (- v) mod 2 ^ 64 else v.

(** [%*d]: the value is discarded. *)
Definition scan_skip_d (s : string) : option string :=
  '(_, _, r) ← scan_int 10 s; Some r.

(** [%X] into an [unsigned int]: the [unsigned long] is stored through a
    32-bit object. *)
Definition scan_X (s : string) : option (Z * string) :=
  '(neg, v, r) ← scan_int 16 s; Some (strtoul_val neg v mod 2 ^ 32, r).

(** [%lu] into an [unsigned long]. *)
Definition scan_lu (s : string) : option (Z * string) :=
  '(neg, v, r) ← scan_int 10 s; Some (strtoul_val neg v, r).

(** [atoi(s)], that is [(int) strtol(s, NULL, 10)]: 0 when there is no
    number, the [long] clamped to its range and then truncated to a 32-bit
    [int]. *)
Definition to_int (v : Z) : Z := (v + 2 ^ 31) mod 2 ^ 32 - 2 ^ 31.

Definition atoi (s : string) : Z :=
  let '(neg, s1) := scan_sign (skip_ws s) in
  let '(v, _) := digits 10 0 s1 in
  let l := if neg then Z.max LONG_MIN (- v) else Z.min LONG_MAX v in
  to_int l.

(** [strchr(s, '\n')] followed by [*nl = '\0']: the string is cut at its
    first newline, if it has one. *)
Fixpoint cut_newline (s : string) : string :=
  match s with
  | String c s' => if Ascii.eqb c newline then "" else String c (cut_newline s')
  | "" => ""
  end.

End libc.

Import libc.

(** ** Port classifier *)

(** [static const uint16_t common_ports[]], with its 0 sentinel. *)
Definition common_ports : list Z :=
  [ 22; 25; 53; 80; 110; 143; 443; 465; 587; 993; 995;
    3306; 5432; 6379; 8080; 8443; 27017; 0 ].

(** The loop [for (i = 0; common_ports[i] != 0; i++)] over the table. *)
Fixpoint scan_common_ports (tbl : list Z) (port : Z) : bool :=
  match tbl with
  | [] => false
  | p :: tbl' =>
      if p =? 0 then false
      else if p =? port then true
      else scan_common_ports tbl' port
  end.

Definition is_common_port (port : Z) : Z :=
  if scan_common_ports common_ports port then 1
  else if 32768 <=? port then 1
  else 0.

(** Conversion of an [unsigned int] argument to the [uint16_t] parameter. *)
Definition to_uint16 (v : Z) : Z := v mod 2 ^ 16.

(** ** Address decoder *)

(** The expansion of ["%u.%u.%u.%u"] in [hex_to_ip]. *)
Definition dotted_quad (addr : Z) : string :=
  fmt_d (Z.land addr 255) +:+ "." +:+
  fmt_d (Z.land (Z.shiftr addr 8) 255) +:+ "." +:+
  fmt_d (Z.land (Z.shiftr addr 16) 255) +:+ "." +:+
  fmt_d (Z.land (Z.shiftr addr 24) 255).

(** [hex_to_ip(hex, ip, ip_len, is_ipv6)]; the result is what is left in
    [ip].  When [sscanf] converts nothing [addr] keeps an indeterminate
    value, written 0 here; the parsers only pass a field scanned by
    [%8[0-9A-Fa-f]], on which the conversion succeeds
    ([scan_X_xdigits] below). *)
Definition hex_to_ip (hex : string) (ip_len : nat) (is_ipv6 : bool) : string :=
  if is_ipv6 then snprintf ip_len hex
  else
    let addr := match scan_X hex with Some (a, _) => a | None => 0 end in
    snprintf ip_len (dotted_quad addr).

Example hex_to_ip_loopback : hex_to_ip "0100007F" 64 false = "127.0.0.1".
Proof. vm_compute. reflexivity. Qed.

(** ** Data model *)

(** What [sentinel.h] fixes and this development leaves open: the two
    capacities, the sizes of the character arrays of the entries, and the
    conversion from [unsigned int] to the type of the port members. *)
Class sentinel_h := {
  MAX_LISTENERS : nat;
  MAX_CONNECTIONS : nat;
  sizeof_l_protocol : nat;
  sizeof_l_local_addr : nat;
  sizeof_l_state : nat;
  sizeof_l_process_name : nat;
  sizeof_c_protocol : nat;
  sizeof_c_local_addr : nat;
  sizeof_c_remote_addr : nat;
  sizeof_c_state : nat;
  sizeof_c_process_name : nat;
  to_port : Z → Z
}.

(** [net_listener_t] *)
Record net_listener_t := {
  l_protocol : string;
  l_local_addr : string;
  l_local_port : Z;
  l_state : string;
  l_pid : Z;
  l_process_name : string
}.

(** [net_connection_t] *)
Record net_connection_t := {
  c_protocol : string;
  c_local_addr : string;
  c_local_port : Z;
  c_remote_addr : string;
  c_remote_port : Z;
  c_state : string;
  c_pid : Z;
  c_process_name : string
}.

(** [network_info_t]: the two arrays with their fill counts, and the three
    running totals. *)
Record network_info_t := {
  listeners : list net_listener_t;
  listener_count : Z;
  connections : list net_connection_t;
  connection_count : Z;
  total_listening : Z;
  total_established : Z;
  unusual_port_count : Z
}.

(** An entry of all-zero bytes. *)
Definition zero_listener : net_listener_t :=
  {| l_protocol := ""; l_local_addr := ""; l_local_port := 0; l_state := "";
     l_pid := 0; l_process_name := "" |}.

Definition zero_connection : net_connection_t :=
  {| c_protocol := ""; c_local_addr := ""; c_local_port := 0;
     c_remote_addr := ""; c_remote_port := 0; c_state := "";
     c_pid := 0; c_process_name := "" |}.

#[global] Instance net_listener_inhabited : Inhabited net_listener_t :=
  populate zero_listener.
#[global] Instance net_connection_inhabited : Inhabited net_connection_t :=
  populate zero_connection.

(** The fields one socket-table line is scanned into. *)
Record sock_fields := {
  local_addr_hex : string;
  local_port : Z;
  remote_addr_hex : string;
  remote_port : Z;
  state : Z;
  inode : Z
}.

(** What the probe reads of the system, as it stands during one probe:
    [fopen path "r"] gives the bytes of a readable file, [opendir path] the
    names [readdir] returns, in its order, and [readlink path] the target
    of a symbolic link.  [None] is the failure of the call. *)
Record world := {
  fopen : string → option string;
  opendir : string → option (list string);
  readlink : string → option string
}.

(** ** Socket-table reader: one line *)

(** [sscanf(line, "%*d: %8[0-9A-Fa-f]:%X %8[0-9A-Fa-f]:%X %X %*s %*s %*s
    %*d %*d %lu", ..)], with [%32[..]] for the IPv6 tables.  [Some] is the
    return value 6, with the six objects assigned; [None] is any other
    return value. *)
Definition sscanf_sock (is_ipv6 : bool) (line : string) : option sock_fields :=
  let width := if is_ipv6 then 32%nat else 8%nat in
  s ← scan_skip_d line;
  s ← scan_lit ":" s;
  '(la, s) ← scan_set width isxdigit (skip_ws s);
  s ← scan_lit ":" s;
  '(lp, s) ← scan_X s;
  '(ra, s) ← scan_set width isxdigit (skip_ws s);
  s ← scan_lit ":" s;
  '(rp, s) ← scan_X s;
  '(st, s) ← scan_X (skip_ws s);
  s ← scan_s (skip_ws s);
  s ← scan_s (skip_ws s);
  s ← scan_s (skip_ws s);
  s ← scan_skip_d (skip_ws s);
  s ← scan_skip_d (skip_ws s);
  '(ino, _) ← scan_lu (skip_ws s);
  Some {| local_addr_hex := la; local_port := lp;
          remote_addr_hex := ra; remote_port := rp;
          state := st; inode := ino |}.

Definition tcp4_listen_line : string :=
  "   0: 0100007F:20FB 00000000:0000 0A 00000000:00000000 00:00000000 00000000  1000        0 12345 1 0000000000000000 100 0 0 10 0" +:+ String newline "".

Example sscanf_sock_tcp4 :
  sscanf_sock false tcp4_listen_line
  = Some {| local_addr_hex := "0100007F"; local_port := 8443;
            remote_addr_hex := "00000000"; remote_port := 0;
            state := 10; inode := 12345 |}.
Proof. vm_compute. reflexivity. Qed.

Example sscanf_sock_header :
  sscanf_sock false "  sl  local_address rem_address   st tx_queue rx_queue tr tm->when retrnsmt   uid  timeout inode" = None.
Proof. vm_compute. reflexivity. Qed.

(** ** Process-socket correlator *)

(** The table [states] of [tcp_state_name]. *)
Definition tcp_states : list string :=
  [ "UNKNOWN"; "ESTABLISHED"; "SYN_SENT"; "SYN_RECV"; "FIN_WAIT1";
    "FIN_WAIT2"; "TIME_WAIT"; "CLOSE"; "CLOSE_WAIT"; "LAST_ACK";
    "LISTEN"; "CLOSING" ].

(** Its argument is [(int) state], see [to_int] at the calls. *)
Definition tcp_state_name (state : Z) : string :=
  if (0 <=? state) && (state <=? 11)
  then default "UNKNOWN" (tcp_states !! Z.to_nat state)
  else "UNKNOWN".

Definition get_process_name (w : world) (pid : Z) (name : string) (name_len : nat)
  : string :=
  let path := snprintf 64 ("/proc/" +:+ fmt_d pid +:+ "/comm") in
  match fopen w path with
  | Some f =>
      match fgets name_len f with
      | Some (l, _) => cut_newline l
      | None => name
      end
  | None => snprintf name_len "[unknown]"
  end.

(** ["socket:[%lu]"] in [inode_str]. *)
Definition inode_str (inode : Z) : string :=
  snprintf 64 ("socket:[" +:+ fmt_d inode +:+ "]").

(** The inner loop over the entries of one [/proc/<pid>/fd]: [true] is the
    [return pid] inside it. *)
Fixpoint scan_fd_dir (w : world) (fd_path istr : string) (fds : list string) : bool :=
  match fds with
  | [] => false
  | d_name :: fds' =>
      let path := snprintf 512 (fd_path +:+ "/" +:+ d_name) in
      match readlink w path with
      | Some target =>
          let link_target := strn 511 target in
          if (0 <? String.length link_target)%nat && String.eqb link_target istr
          then true
          else scan_fd_dir w fd_path istr fds'
      | None => scan_fd_dir w fd_path istr fds'
      end
  end.

(** The test of one entry of [/proc]: [Some pid] when the outer loop
    returns [pid] at this entry, [None] when it goes on to the next. *)
Definition proc_entry_owner (w : world) (istr d_name : string) : option Z :=
  match d_name with
  | String c _ =>
      if isdigit c then
        let pid := atoi d_name in
        let fd_path := snprintf 128 ("/proc/" +:+ fmt_d pid +:+ "/fd") in
        match opendir w fd_path with
        | Some fds => if scan_fd_dir w fd_path istr fds then Some pid else None
        | None => None
        end
      else None
  | "" => None
  end.

(** The outer loop over the entries of [/proc]. *)
Fixpoint scan_proc_dir (w : world) (istr : string) (entries : list string) : Z :=
  match entries with
  | [] => 0
  | d_name :: entries' =>
      match proc_entry_owner w istr d_name with
      | Some pid => pid
      | None => scan_proc_dir w istr entries'
      end
  end.

Definition find_pid_for_inode (w : world) (inode : Z) : Z :=
  match opendir w "/proc" with
  | None => 0
  | Some entries => scan_proc_dir w (inode_str inode) entries
  end.

(** ** Socket-table reader and aggregator *)

Section net_probe.
Context `{!sentinel_h}.
Variable w : world.

(** The owner fields of an entry: [pid = find_pid_for_inode(inode)] and the
    name written into [process_name], whose bytes before the call are
    [name] and whose size is [name_len]. *)
Definition owner_name (pid : Z) (name : string) (name_len : nat) : string :=
  if 0 <? pid then get_process_name w pid name name_len
  else snprintf name_len "[kernel]".

(** The listener branch of [parse_tcp_file]: the entry written over [l],
    the element [net->listeners[net->listener_count]]. *)
Definition tcp_listener (is_ipv6 : bool) (r : sock_fields) (l : net_listener_t)
  : net_listener_t :=
  let pid := find_pid_for_inode w (inode r) in
  {| l_protocol := snprintf sizeof_l_protocol (if is_ipv6 then "tcp6" else "tcp");
     l_local_addr := hex_to_ip (local_addr_hex r) sizeof_l_local_addr is_ipv6;
     l_local_port := to_port (local_port r);
     l_state := snprintf sizeof_l_state (tcp_state_name (to_int (state r)));
     l_pid := pid;
     l_process_name := owner_name pid (l_process_name l) sizeof_l_process_name |}.

(** The branch of [parse_udp_file]. *)
Definition udp_listener (is_ipv6 : bool) (r : sock_fields) (l : net_listener_t)
  : net_listener_t :=
  let pid := find_pid_for_inode w (inode r) in
  {| l_protocol := snprintf sizeof_l_protocol (if is_ipv6 then "udp6" else "udp");
     l_local_addr := hex_to_ip (local_addr_hex r) sizeof_l_local_addr is_ipv6;
     l_local_port := to_port (local_port r);
     l_state := snprintf sizeof_l_state "LISTEN";
     l_pid := pid;
     l_process_name := owner_name pid (l_process_name l) sizeof_l_process_name |}.

(** The connection branch of [parse_tcp_file]. *)
Definition tcp_connection (is_ipv6 : bool) (r : sock_fields) (c : net_connection_t)
  : net_connection_t :=
  let pid := find_pid_for_inode w (inode r) in
  {| c_protocol := snprintf sizeof_c_protocol (if is_ipv6 then "tcp6" else "tcp");
     c_local_addr := hex_to_ip (local_addr_hex r) sizeof_c_local_addr is_ipv6;
     c_local_port := to_port (local_port r);
     c_remote_addr := hex_to_ip (remote_addr_hex r) sizeof_c_remote_addr is_ipv6;
     c_remote_port := to_port (remote_port r);
     c_state := snprintf sizeof_c_state (tcp_state_name (to_int (state r)));
     c_pid := pid;
     c_process_name := owner_name pid (c_process_name c) sizeof_c_process_name |}.

(** Writing the listener [mk l] over [l = net->listeners[listener_count]],
    then [listener_count++], [total_listening++] and, for a port that is
    not common, [unusual_port_count++]. *)
Definition store_listener (mk : net_listener_t → net_listener_t) (port : Z)
    (net : network_info_t) : network_info_t :=
  let i := Z.to_nat (listener_count net) in
  {| listeners := <[i := mk (listeners net !!! i)]> (listeners net);
     listener_count := listener_count net + 1;
     connections := connections net;
     connection_count := connection_count net;
     total_listening := total_listening net + 1;
     total_established := total_established net;
     unusual_port_count :=
       if is_common_port (to_uint16 port) =? 0
       then unusual_port_count net + 1 else unusual_port_count net |}.

(** The same for [net->connections[connection_count]], with
    [connection_count++] and [total_established++]. *)
Definition store_connection (mk : net_connection_t → net_connection_t)
    (net : network_info_t) : network_info_t :=
  let i := Z.to_nat (connection_count net) in
  {| listeners := listeners net;
     listener_count := listener_count net;
     connections := <[i := mk (connections net !!! i)]> (connections net);
     connection_count := connection_count net + 1;
     total_listening := total_listening net;
     total_established := total_established net + 1;
     unusual_port_count := unusual_port_count net |}.

(** The body of the [while] loop of [parse_tcp_file] on one line. *)
Definition tcp_record (is_ipv6 : bool) (net : network_info_t) (line : string)
  : network_info_t :=
  match sscanf_sock is_ipv6 line with
  | None => net
  | Some r =>
      if (state r =? 10) && (listener_count net <? Z.of_nat MAX_LISTENERS)
      then store_listener (tcp_listener is_ipv6 r) (local_port r) net
      else if (state r =? 1) && (connection_count net <? Z.of_nat MAX_CONNECTIONS)
      then store_connection (tcp_connection is_ipv6 r) net
      else net
  end.

(** The body of the [while] loop of [parse_udp_file] on one line. *)
Definition udp_record (is_ipv6 : bool) (net : network_info_t) (line : string)
  : network_info_t :=
  match sscanf_sock is_ipv6 line with
  | None => net
  | Some r =>
      if (state r =? 7) || (0 <? local_port r)
      then store_listener (udp_listener is_ipv6 r) (local_port r) net
      else net
  end.

(** [while (fgets(line, sizeof(line), f)) { .. }] over the lines [fgets]
    returns. *)
Fixpoint tcp_loop (is_ipv6 : bool) (ls : list string) (net : network_info_t)
  : network_info_t :=
  match ls with
  | [] => net
  | line :: ls' => tcp_loop is_ipv6 ls' (tcp_record is_ipv6 net line)
  end.

(** [while (fgets(line, sizeof(line), f) && net->listener_count <
    MAX_LISTENERS) { .. }] *)
Fixpoint udp_loop (is_ipv6 : bool) (ls : list string) (net : network_info_t)
  : network_info_t :=
  match ls with
  | [] => net
  | line :: ls' =>
      if listener_count net <? Z.of_nat MAX_LISTENERS
      then udp_loop is_ipv6 ls' (udp_record is_ipv6 net line)
      else net
  end.

(** The two parsers return their [int] with the [network_info_t] they
    leave behind [net]. *)
Definition parse_tcp_file (filename : string) (net : network_info_t)
    (is_ipv6 : bool) : Z * network_info_t :=
  match fopen w filename with
  | None => (-1, net)
  | Some f =>
      match fgets 512 f with
      | None => (-1, net)
      | Some (_, rest) => (0, tcp_loop is_ipv6 (lines 512 rest) net)
      end
  end.

Definition parse_udp_file (filename : string) (net : network_info_t)
    (is_ipv6 : bool) : Z * network_info_t :=
  match fopen w filename with
  | None => (-1, net)
  | Some f =>
      match fgets 512 f with
      | None => (-1, net)
      | Some (_, rest) => (0, udp_loop is_ipv6 (lines 512 rest) net)
      end
  end.

(** [memset(net, 0, sizeof(network_info_t))] *)
Definition network_info_zero : network_info_t :=
  {| listeners := replicate MAX_LISTENERS zero_listener;
     listener_count := 0;
     connections := replicate MAX_CONNECTIONS zero_connection;
     connection_count := 0;
     total_listening := 0;
     total_established := 0;
     unusual_port_count := 0 |}.

Definition probe_network (net : network_info_t) : Z * network_info_t :=
  let net := network_info_zero in
  let net := (parse_tcp_file "/proc/net/tcp" net false).2 in
  let net := (parse_tcp_file "/proc/net/tcp6" net true).2 in
  let net := (parse_udp_file "/proc/net/udp" net false).2 in
  let net := (parse_udp_file "/proc/net/udp6" net true).2 in
  (0, net).

End net_probe.

(** ** The command line front end ([src/main.c]) *)

(** The exit codes, which [sentinel.h] defines. *)
Class exit_codes := {
  EXIT_OK : Z;
  EXIT_WARNINGS : Z;
  EXIT_CRITICAL : Z;
  EXIT_ERROR : Z
}.

(** The members of [quick_analysis_t] that [run_analysis] reads. *)
Record quick_analysis_t := {
  zombie_process_count : Z;
  high_fd_process_count : Z;
  long_running_process_count : Z;
  config_permission_issues : Z;
  unusual_listeners : Z
}.

(** The option [-i] of [main]: [interval = atoi(optarg)], then the two
    clamping tests. *)
Definition interval_option (optarg : string) : Z :=
  let interval := atoi optarg in
  let interval := if interval <? 1 then 1 else interval in
  if 86400 <? interval then 86400 else interval.

(** The end of [run_analysis]: the exit code computed from the analysis. *)
Definition analysis_exit_code `{!exit_codes} (analysis : quick_analysis_t) : Z :=
  if (0 <? zombie_process_count analysis)
     || (0 <? config_permission_issues analysis)
     || (3 <? unusual_listeners analysis)
  then EXIT_CRITICAL
  else if (5 <? high_fd_process_count analysis)
          || (0 <? unusual_listeners analysis)
  then EXIT_WARNINGS
  else EXIT_OK.

(** The loop of watch mode, over the exit codes [run_analysis] returns in
    the iterations it makes before [keep_running] is cleared: [if (exit_code
    > worst_exit) worst_exit = exit_code]. *)
Fixpoint watch_loop (worst_exit : Z) (codes : list Z) : Z :=
  match codes with
  | [] => worst_exit
  | exit_code :: codes' =>
      watch_loop (if worst_exit <? exit_code then exit_code else worst_exit) codes'
  end.

(** What watch mode returns. *)
Definition watch_mode_exit `{!exit_codes} (codes : list Z) : Z :=
  watch_loop EXIT_OK codes.

(** One line of the listener report:
    [printf("    %s:%d (%s) - %s\n", l->local_addr, l->local_port,
    l->protocol, l->process_name)]. *)
Definition listener_line (l : net_listener_t) : string :=
  "    " +:+ l_local_addr l +:+ ":" +:+ fmt_d (l_local_port l) +:+
  " (" +:+ l_protocol l +:+ ") - " +:+ l_process_name l +:+ String newline "".

(** [for (int i = 0; i < listener_count && i < 10; i++)]: what the loop
    prints from [i] on; [fuel] bounds the iterations, and ten are enough. *)
Fixpoint listener_lines (fuel : nat) (i : Z) (net : network_info_t) : list string :=
  match fuel with
  | O => []
  | S fuel' =>
      if (i <? listener_count net) && (i <? 10)
      then listener_line (listeners net !!! Z.to_nat i)
             :: listener_lines fuel' (i + 1) net
      else []
  end.

(** The block "Show listeners if any" of [run_analysis]: the texts of its
    [printf] calls, in order. *)
Definition report_listeners (net : network_info_t) : list string :=
  if 0 <? listener_count net then
    (String newline "" +:+ "  Listeners:" +:+ String newline "")
      :: listener_lines 10 0 net ++
         (if 10 <? listener_count net
          then ["    ... and " +:+ fmt_d (listener_count net - 10) +:+ " more"
                  +:+ String newline ""]
          else [])
  else [].

(** The variables the option loop of [main] sets. *)
Record settings := {
  quick_mode : Z;
  json_mode : Z;
  watch_mode : Z;
  network_mode : Z;
  interval : Z
}.

(** Their values before the loop. *)
Definition initial_settings : settings :=
  {| quick_mode := 0; json_mode := 0; watch_mode := 0; network_mode := 0;
     interval := 60 |}.

(** The loop [while ((opt = getopt_long(..)) != -1) switch (opt) ..] over
    the options [getopt_long] returns, each with its [optarg]: the settings
    after the loop, or the exit code [main] returns from inside it. *)
Fixpoint option_loop `{!exit_codes} (opts : list (ascii * string)) (s : settings)
  : Z + settings :=
  match opts with
  | [] => inr s
  | (opt, optarg) :: opts' =>
      if Ascii.eqb opt "h" then inl EXIT_OK
      else if Ascii.eqb opt "q" then
        option_loop opts'
          {| quick_mode := 1; json_mode := json_mode s; watch_mode := watch_mode s;
             network_mode := network_mode s; interval := interval s |}
      else if Ascii.eqb opt "v" then option_loop opts' s
      else if Ascii.eqb opt "j" then
        option_loop opts'
          {| quick_mode := quick_mode s; json_mode := 1; watch_mode := watch_mode s;
             network_mode := network_mode s; interval := interval s |}
      else if Ascii.eqb opt "w" then
        option_loop opts'
          {| quick_mode := quick_mode s; json_mode := json_mode s; watch_mode := 1;
             network_mode := network_mode s; interval := interval s |}
      else if Ascii.eqb opt "i" then
        option_loop opts'
          {| quick_mode := quick_mode s; json_mode := json_mode s;
             watch_mode := watch_mode s; network_mode := network_mode s;
             interval := interval_option optarg |}
      else if Ascii.eqb opt "n" then
        option_loop opts'
          {| quick_mode := quick_mode s; json_mode := json_mode s;
             watch_mode := watch_mode s; network_mode := 1; interval := interval s |}
      else inl EXIT_ERROR
  end.

(** ** Notions the statements below are written with *)

(** The well-known service ports, without the sentinel of the table. *)
Definition well_known_ports : list Z :=
  [ 22; 25; 53; 80; 110; 143; 443; 465; 587; 993; 995;
    3306; 5432; 6379; 8080; 8443; 27017 ].

Fixpoint all_xdigit (s : string) : bool :=
  match s with
  | String c s' => isxdigit c && all_xdigit s'
  | "" => true
  end.

(** The unsigned integer a string of hexadecimal digits writes, most
    significant digit first. *)
Fixpoint hex_value_from (acc : Z) (s : string) : Z :=
  match s with
  | String c s' => hex_value_from (acc * 16 + default 0 (digit_val 16 c)) s'
  | "" => acc
  end.

Definition hex_value (s : string) : Z := hex_value_from 0 s.

(** The descriptor directory of a process, the path of one of its entries
    (as [find_pid_for_inode] builds it in its 512-byte buffer), and the
    target of a descriptor that is the socket with a given inode. *)
Definition fd_dir (pid : Z) : string := "/proc/" +:+ fmt_d pid +:+ "/fd".

Definition fd_link (pid : Z) (fd : string) : string :=
  snprintf 512 (fd_dir pid +:+ "/" +:+ fd).

Definition socket_link (inode : Z) : string := "socket:[" +:+ fmt_d inode +:+ "]".

(** The entry [d_name] of /proc is a process (its name starts with a digit)
    whose descriptor directory can be read and has a descriptor that
    resolves to the socket [inode]. *)
Definition holds_socket (w : world) (inode : Z) (d_name : string) : Prop :=
  (∃ c s, d_name = String c s ∧ isdigit c = true) ∧
  ∃ fds fd, opendir w (fd_dir (atoi d_name)) = Some fds ∧ fd ∈ fds ∧
            readlink w (fd_link (atoi d_name) fd) = Some (socket_link inode).

(** The lines of a socket table after its header line, as the loop of a
    parser gets them from [fgets]; none when the table cannot be opened or
    is empty. *)
Definition source_lines (w : world) (filename : string) : list string :=
  match fopen w filename with
  | Some f =>
      match fgets 512 f with
      | Some (_, rest) => lines 512 rest
      | None => []
      end
  | None => []
  end.

(** The records of a table: its lines that scan into the six fields. *)
Definition source_records (w : world) (filename : string) (is_ipv6 : bool)
  : list sock_fields :=
  omap (sscanf_sock is_ipv6) (source_lines w filename).

(** The records observed by one probe that match a listener, in the order
    of discovery (TCP-v4, TCP-v6, UDP-v4, UDP-v6), and those that match a
    connection. *)
Definition tcp_listen (r : sock_fields) : Prop := state r = 10.
Definition tcp_established (r : sock_fields) : Prop := state r = 1.
Definition udp_bound (r : sock_fields) : Prop := state r = 7 ∨ local_port r ≠ 0.

#[global] Instance tcp_listen_dec r : Decision (tcp_listen r).
Proof. unfold tcp_listen. apply _. Defined.
#[global] Instance tcp_established_dec r : Decision (tcp_established r).
Proof. unfold tcp_established. apply _. Defined.
#[global] Instance udp_bound_dec r : Decision (udp_bound r).
Proof. unfold udp_bound. apply _. Defined.

Definition listener_records (w : world) : list sock_fields :=
  filter tcp_listen (source_records w "/proc/net/tcp" false) ++
  filter tcp_listen (source_records w "/proc/net/tcp6" true) ++
  filter udp_bound (source_records w "/proc/net/udp" false) ++
  filter udp_bound (source_records w "/proc/net/udp6" true).

Definition connection_records (w : world) : list sock_fields :=
  filter tcp_established (source_records w "/proc/net/tcp" false) ++
  filter tcp_established (source_records w "/proc/net/tcp6" true).

(** The entries a probe would store for them with room for all: each is
    written over an all-zero element. *)
Definition listener_entries `{!sentinel_h} (w : world) : list net_listener_t :=
  ((λ r, tcp_listener w false r zero_listener)
     <$> filter tcp_listen (source_records w "/proc/net/tcp" false)) ++
  ((λ r, tcp_listener w true r zero_listener)
     <$> filter tcp_listen (source_records w "/proc/net/tcp6" true)) ++
  ((λ r, udp_listener w false r zero_listener)
     <$> filter udp_bound (source_records w "/proc/net/udp" false)) ++
  ((λ r, udp_listener w true r zero_listener)
     <$> filter udp_bound (source_records w "/proc/net/udp6" true)).

Definition connection_entries `{!sentinel_h} (w : world) : list net_connection_t :=
  ((λ r, tcp_connection w false r zero_connection)
     <$> filter tcp_established (source_records w "/proc/net/tcp" false)) ++
  ((λ r, tcp_connection w true r zero_connection)
     <$> filter tcp_established (source_records w "/proc/net/tcp6" true)).

(** A record whose local port the classifier calls unusual. *)
Definition unusual_port (r : sock_fields) : Prop :=
  is_common_port (to_uint16 (local_port r)) = 0.

#[global] Instance unusual_port_dec r : Decision (unusual_port r).
Proof. unfold unusual_port. apply _. Defined.

(** The entries in use of the two arrays. *)
Definition stored_listeners (net : network_info_t) : list net_listener_t :=
  take (Z.to_nat (listener_count net)) (listeners net).

Definition stored_connections (net : network_info_t) : list net_connection_t :=
  take (Z.to_nat (connection_count net)) (connections net).

(** The structure holds the listener entries [L], made from the records
    [Lr], and the connection entries [C]: they fill the arrays from the
    front, the rest of each array is all-zero, and the counters count
    them. *)
Definition represents `{!sentinel_h} (net : network_info_t)
    (L : list net_listener_t) (Lr : list sock_fields) (C : list net_connection_t)
  : Prop :=
  length L = length Lr ∧
  (length L ≤ MAX_LISTENERS)%nat ∧ (length C ≤ MAX_CONNECTIONS)%nat ∧
  listeners net = L ++ replicate (MAX_LISTENERS - length L) zero_listener ∧
  listener_count net = Z.of_nat (length L) ∧
  total_listening net = Z.of_nat (length L) ∧
  unusual_port_count net = Z.of_nat (length (filter unusual_port Lr)) ∧
  connections net = C ++ replicate (MAX_CONNECTIONS - length C) zero_connection ∧
  connection_count net = Z.of_nat (length C) ∧
  total_established net = Z.of_nat (length C).

(** A string of decimal digits, and a string with a newline in it. *)
Fixpoint all_digit (s : string) : bool :=
  match s with
  | String c s' => isdigit c && all_digit s'
  | "" => true
  end.

Fixpoint has_newline (s : string) : bool :=
  match s with
  | String c s' => Ascii.eqb c newline || has_newline s'
  | "" => false
  end.

(** An entry of /proc the correlator looks into: its name starts with a
    digit, and the descriptor directory of the pid the name is read as can
    be opened. *)
Definition inspectable (w : world) (d_name : string) : Prop :=
  match d_name with
  | String c _ => isdigit c = true ∧ is_Some (opendir w (fd_dir (atoi d_name)))
  | "" => False
  end.

#[global] Instance inspectable_dec w d_name : Decision (inspectable w d_name).
Proof. unfold inspectable. destruct d_name; apply _. Defined.

(** The strings of a list put end to end, and a line of text with its
    newline. *)
Fixpoint concat_lines (ls : list string) : string :=
  match ls with
  | [] => ""
  | l :: ls' => l +:+ concat_lines ls'
  end.

Definition with_newline (text : string) : string := text +:+ String newline "".

(** The structure has its two arrays at their declared sizes and counts
    that are not negative. *)
Definition well_shaped `{!sentinel_h} (net : network_info_t) : Prop :=
  0 ≤ listener_count net ∧ length (listeners net) = MAX_LISTENERS ∧
  0 ≤ connection_count net ∧ length (connections net) = MAX_CONNECTIONS.

(** The second structure has the entries of the first, and possibly more
    after them; its counters have grown by the numbers of new entries. *)
Definition extends (net net' : network_info_t) : Prop :=
  stored_listeners net `prefix_of` stored_listeners net' ∧
  stored_connections net `prefix_of` stored_connections net' ∧
  listener_count net ≤ listener_count net' ∧
  connection_count net ≤ connection_count net' ∧
  total_listening net' - total_listening net
    = listener_count net' - listener_count net ∧
  total_established net' - total_established net
    = connection_count net' - connection_count net ∧
  0 ≤ unusual_port_count net' - unusual_port_count net
    ≤ listener_count net' - listener_count net.

(** The options that set something or are ignored, and the last argument
    given to [-i]. *)
Definition setting_option (opt : ascii) : Prop :=
  opt ∈ ["q"; "v"; "j"; "w"; "i"; "n"]%char.

Fixpoint last_interval (opts : list (ascii * string)) (default : Z) : Z :=
  match opts with
  | [] => default
  | (opt, optarg) :: opts' =>
      last_interval opts' (if Ascii.eqb opt "i" then interval_option optarg else default)
  end.

(** ** The C library model: basic facts *)

Section libc_facts.

Lemma string_length_app (s t : string) :
  String.length (s +:+ t) = (String.length s + String.length t)%nat.
Proof. induction s as [|c s IH]; simpl; [done | by rewrite IH]. Qed.

Lemma strn_fits (n : nat) (s : string) :
  (String.length s ≤ n)%nat → strn n s = s.
Proof.
  revert n. induction s as [|c s IH]; intros [|n] Hn; simpl in *; try done; try lia.
  rewrite IH; [done | lia].
Qed.

Lemma strn_length (n : nat) (s : string) : (String.length (strn n s) ≤ n)%nat.
Proof.
  revert s. induction n as [|n IH]; intros [|c s]; simpl; try lia.
  specialize (IH s). lia.
Qed.

(** A truncation shorter than the bound is no truncation. *)
Lemma strn_short (n : nat) (s : string) :
  (String.length (strn n s) < n)%nat → strn n s = s.
Proof.
  revert s. induction n as [|n IH]; intros [|c s]; simpl; try lia; try done.
  intros Hn. rewrite IH; [done | lia].
Qed.

Lemma snprintf_fits (size : nat) (s : string) :
  (String.length s < size)%nat → snprintf size s = s.
Proof. intros Hs. apply strn_fits. lia. Qed.

(** Decimal expansions are short. *)
Lemma pretty_N_go_length (k : nat) (x : N) (s : string) :
  (x < 10 ^ N.of_nat k)%N →
  (String.length (pretty_N_go x s) ≤ String.length s + k)%nat.
Proof.
  revert x s. induction k as [|k IH]; intros x s Hx.
  - assert (x = 0%N) as -> by (simpl in Hx; lia). rewrite pretty_N_go_0. lia.
  - destruct (decide (x = 0%N)) as [->|Hne].
    + rewrite pretty_N_go_0. lia.
    + rewrite pretty_N_go_step by lia.
      etrans; [apply IH|simpl; lia].
      rewrite Nat2N.inj_succ, N.pow_succ_r' in Hx.
      apply N.Div0.div_lt_upper_bound. lia.
Qed.

Lemma fmt_d_length (k : nat) (n : Z) :
  0 ≤ n < 10 ^ Z.of_nat k → (String.length (fmt_d n) ≤ Nat.max 1 k)%nat.
Proof.
  intros [Hlo Hhi]. unfold fmt_d, pretty, pretty_Z.
  destruct n as [|p|p]; [simpl; lia| |lia].
  unfold pretty, pretty_positive, pretty, pretty_N.
  rewrite decide_False by done.
  etrans; [apply (pretty_N_go_length k)|simpl; lia].
  apply N2Z.inj_lt. rewrite N2Z.inj_pow, nat_N_Z. simpl. lia.
Qed.

Lemma fgets_go_cons (k : nat) (c : ascii) (s : string) :
  fgets_go (S k) (String c s)
  = if Ascii.eqb c newline then (String c "", s)
    else (String c (fgets_go k s).1, (fgets_go k s).2).
Proof. simpl. by destruct (Ascii.eqb c newline), (fgets_go k s). Qed.

(** [lines] is what the calls of [fgets] give one after the other. *)
Lemma fgets_all_step (size room : nat) (s : string) :
  (1 ≤ room)%nat → s ≠ "" →
  fgets_all size room s
  = (fgets_go room s).1 :: fgets_all size (Nat.pred size) (fgets_go room s).2.
Proof.
  revert room. induction s as [|c s IH]; intros room Hroom Hne; [done|].
  destruct room as [|k]; [lia|].
  rewrite fgets_go_cons. cbn [fgets_all].
  destruct (Ascii.eqb c newline) eqn:Hc; cbn [orb fst snd]; [done|].
  destruct k as [|k]; [by destruct s|].
  change (S (S k) =? 1)%nat with false. cbn iota. cbn [Nat.pred].
  destruct s as [|c' s']; [done|].
  by rewrite (IH (S k)) by (done || lia).
Qed.

Lemma lines_fgets (size : nat) (s : string) :
  (2 ≤ size)%nat →
  lines size s = match fgets size s with
                 | Some (l, rest) => l :: lines size rest
                 | None => []
                 end.
Proof.
  intros Hsize. unfold lines, fgets.
  destruct size as [|[|room]]; try lia.
  destruct s as [|c s]; [done|].
  rewrite fgets_all_step by (done || simpl; lia). simpl Nat.pred.
  by destruct (fgets_go (S room) (String c s)).
Qed.

Lemma fmt_d_length_signed (k : nat) (n : Z) :
  - 10 ^ Z.of_nat k < n < 10 ^ Z.of_nat k →
  (String.length (fmt_d n) ≤ S (Nat.max 1 k))%nat.
Proof.
  intros Hn. destruct n as [|p|p].
  - simpl. lia.
  - pose proof (fmt_d_length k (Z.pos p)). lia.
  - assert (0 ≤ Z.pos p < 10 ^ Z.of_nat k) as Hp by lia.
    apply fmt_d_length in Hp.
    change (fmt_d (Z.neg p)) with ("-" +:+ fmt_d (Z.pos p)).
    rewrite string_length_app. change (String.length "-") with 1%nat. lia.
Qed.

Lemma to_int_range (v : Z) : - 2 ^ 31 ≤ to_int v < 2 ^ 31.
Proof. unfold to_int. pose proof (Z.mod_pos_bound (v + 2 ^ 31) (2 ^ 32)). lia. Qed.

Lemma atoi_range (s : string) : - 2 ^ 31 ≤ atoi s < 2 ^ 31.
Proof.
  unfold atoi. destruct (scan_sign _) as [neg s1]. destruct (digits _ _ _).
  apply to_int_range.
Qed.

Lemma strtoul_val_range (neg : bool) (v : Z) : 0 ≤ v → 0 ≤ strtoul_val neg v < 2 ^ 64.
Proof.
  intros Hv. unfold strtoul_val, ULONG_MAX.
  destruct (Z.ltb_spec (2 ^ 64 - 1) v); [lia|].
  destruct neg; [apply Z.mod_pos_bound|]; lia.
Qed.

Lemma digit_val_nonneg (base : Z) (c : ascii) (d : Z) :
  digit_val base c = Some d → 0 ≤ d.
Proof.
  unfold digit_val. generalize (Z.of_nat (nat_of_ascii c)). intros n.
  destruct (Z.leb_spec 48 n), (Z.leb_spec 65 n), (Z.leb_spec 97 n);
    repeat case_match; intros; simplify_eq; lia.
Qed.

Lemma digits_nonneg (base acc : Z) (s : string) :
  0 ≤ base → 0 ≤ acc → 0 ≤ (digits base acc s).1.
Proof.
  intros Hb. revert acc. induction s as [|c s IH]; intros acc Hacc; simpl; [done|].
  destruct (digit_val base c) as [d|] eqn:Hd; [|done].
  apply digit_val_nonneg in Hd. apply IH. nia.
Qed.

Lemma scan_int_nonneg (base : Z) (s r : string) (neg : bool) (v : Z) :
  0 ≤ base → scan_int base s = Some (neg, v, r) → 0 ≤ v.
Proof.
  intros Hb. unfold scan_int. destruct (scan_sign _) as [neg' s1].
  repeat case_match; intros; simplify_eq;
    match goal with
    | H : digits ?b ?a ?s = (v, _) |- _ =>
        pose proof (digits_nonneg b a s Hb ltac:(lia)) as Hd; by rewrite H in Hd
    end.
Qed.

(** [%lu] yields an [unsigned long]. *)
Lemma scan_lu_range (s r : string) (v : Z) :
  scan_lu s = Some (v, r) → 0 ≤ v < 2 ^ 64.
Proof.
  unfold scan_lu. destruct (scan_int 10 s) as [[[neg v'] r']|] eqn:Hs; [|done].
  simpl. intros [= <- <-]. apply strtoul_val_range.
  by eapply (scan_int_nonneg 10).
Qed.

End libc_facts.

(** ** Port classifier: verification *)

Section classifier.
Context `{!sentinel_h}.
Variable w : world.

Lemma scan_common_ports_spec (p : Z) :
  scan_common_ports common_ports p = true ↔ p ∈ well_known_ports.
Proof.
  unfold common_ports, well_known_ports. cbn -[Z.eqb].
  repeat (rewrite elem_of_cons).
  rewrite elem_of_nil.
  split.
  - repeat match goal with
           | |- context [?a =? ?b] =>
               destruct (Z.eqb_spec a b) as [E|E];
               [ first [ discriminate E
                       | subst p; intros _; solve [repeat (first [by left | right])]
                       | intros ?; discriminate ]
               | first [ by destruct E | clear E ] ]
           end.
  - intros Hp. repeat (destruct Hp as [->|Hp]; [done|]). done.
Qed.

Lemma is_common_port_cases (p : Z) : is_common_port p = 1 ∨ is_common_port p = 0.
Proof. unfold is_common_port. repeat case_match; auto. Qed.

Lemma is_common_port_1 (p : Z) :
  is_common_port p = 1 ↔ p ∈ well_known_ports ∨ 32768 ≤ p.
Proof.
  unfold is_common_port. rewrite <- scan_common_ports_spec.
  destruct (scan_common_ports common_ports p); [tauto|].
  destruct (Z.leb_spec 32768 p); [tauto|].
  split; [done|]. intros [?|?]; [done|lia].
Qed.

(** What [store_listener] does to the counters. *)
Lemma store_listener_counts mk port net :
  let net' := store_listener mk port net in
  listener_count net' = listener_count net + 1 ∧
  total_listening net' = total_listening net + 1 ∧
  connection_count net' = connection_count net ∧
  total_established net' = total_established net ∧
  connections net' = connections net ∧
  unusual_port_count net' =
    unusual_port_count net + (if is_common_port (to_uint16 port) =? 0 then 1 else 0).
Proof. simpl. repeat split; try done. case_match; lia. Qed.

(** C4.  A port is classified common ([is_common_port] returns 1) exactly
    when it is one of the seventeen well-known service ports or is at
    least 32768, and unusual (0) otherwise; 22 and 40000 are common and
    31337 is unusual.  When a line of a TCP or UDP table is stored as a
    listener, the unusual-port counter goes up by one if the port of the
    line is unusual and is left as it was if the port is common. *)
Theorem is_common_port_classifies (p : Z) (is_ipv6 : bool)
    (net : network_info_t) (line : string) (r : sock_fields) :
  sscanf_sock is_ipv6 line = Some r →
  (is_common_port p = 1 ↔ p ∈ well_known_ports ∨ 32768 ≤ p) ∧
  (is_common_port p = 0 ↔ ¬ (p ∈ well_known_ports ∨ 32768 ≤ p)) ∧
  is_common_port 22 = 1 ∧ is_common_port 31337 = 0 ∧ is_common_port 40000 = 1 ∧
  let port := to_uint16 (local_port r) in
  let unusual := if is_common_port port =? 0 then 1 else 0 in
  ∀ net', net' = tcp_record w is_ipv6 net line ∨ net' = udp_record w is_ipv6 net line →
    listener_count net' = listener_count net + 1 →
    unusual_port_count net' = unusual_port_count net + unusual.
Proof.
  intros Hscan. split; [apply is_common_port_1|]. split.
  { rewrite <- is_common_port_1. destruct (is_common_port_cases p) as [->| ->]; [|done].
    split; [done|]. intros Hn. by destruct Hn. }
  do 3 (split; [done|]).
  intros port unusual net' Hnet' Hstored.
  destruct Hnet' as [-> | ->]; revert Hstored.
  - unfold tcp_record. rewrite Hscan.
    destruct (_ && _); [intros _; apply store_listener_counts|].
    destruct (_ && _); simpl; lia.
  - unfold udp_record. rewrite Hscan.
    destruct (_ || _); [intros _; apply store_listener_counts|lia].
Qed.

End classifier.

(** ** Address decoder: verification *)

Section decoder.

(** A hexadecimal digit is neither white space, nor a sign, nor the [x] of
    a [0x] prefix. *)
Lemma isxdigit_plain (c : ascii) :
  isxdigit c = true →
  isspace c = false ∧ c ≠ "-"%char ∧ c ≠ "+"%char ∧
  Ascii.eqb c "x" || Ascii.eqb c "X" = false ∧
  ∃ d, digit_val 16 c = Some d ∧ 0 ≤ d < 16.
Proof.
  destruct c as [[] [] [] [] [] [] [] []]; intros Hx; vm_compute in Hx;
    try discriminate Hx; clear Hx;
    (repeat split; try done); eexists; (split; [vm_compute; reflexivity | lia]).
Qed.

Lemma digits_xdigits (acc : Z) (s : string) :
  all_xdigit s = true → digits 16 acc s = (hex_value_from acc s, "").
Proof.
  revert acc. induction s as [|c s IH]; intros acc Hs; simpl in *; [done|].
  apply andb_prop in Hs as [Hc Hs].
  destruct (isxdigit_plain c Hc) as (_ & _ & _ & _ & d & -> & _).
  simpl. by apply IH.
Qed.

Lemma hex_value_from_bounds (acc : Z) (s : string) :
  all_xdigit s = true → 0 ≤ acc →
  acc * 16 ^ Z.of_nat (String.length s) ≤ hex_value_from acc s
    < (acc + 1) * 16 ^ Z.of_nat (String.length s).
Proof.
  revert acc. induction s as [|c s IH]; intros acc Hs Hacc; simpl String.length.
  - simpl. lia.
  - simpl in Hs. apply andb_prop in Hs as [Hc Hs].
    destruct (isxdigit_plain c Hc) as (_ & _ & _ & _ & d & Hd & Hd16).
    simpl hex_value_from. rewrite Hd. simpl default.
    specialize (IH (acc * 16 + d) Hs ltac:(lia)).
    rewrite Nat2Z.inj_succ, Z.pow_succ_r by lia.
    nia.
Qed.

Lemma hex_value_range (s : string) :
  all_xdigit s = true → 0 ≤ hex_value s < 16 ^ Z.of_nat (String.length s).
Proof. intros Hs. pose proof (hex_value_from_bounds 0 s Hs). unfold hex_value. lia. Qed.

(** An integer conversion on input that starts with a digit and has no
    [0x] prefix reads the digits. *)
Lemma scan_int_xdigits (s : string) :
  all_xdigit s = true → s ≠ "" →
  scan_int 16 s = Some (false, hex_value s, "").
Proof.
  intros Hs Hne. destruct s as [|c s]; [done|]. clear Hne.
  pose proof (digits_xdigits 0 _ Hs) as Hdig.
  simpl in Hs. apply andb_prop in Hs as [Hc Hs].
  destruct (isxdigit_plain c Hc) as (Hsp & Hm & Hp & _ & d & Hd & _).
  unfold scan_int. simpl skip_ws. rewrite Hsp.
  assert (scan_sign (String c s) = (false, String c s)) as ->.
  { unfold scan_sign. destruct c as [[] [] [] [] [] [] [] []]; done. }
  destruct (decide (c = "0"%char)) as [->|Hc0].
  - destruct s as [|x s2].
    + by rewrite Hd, Hdig.
    + simpl in Hs. apply andb_prop in Hs as [Hx _].
      destruct (isxdigit_plain x Hx) as (_ & _ & _ & -> & _).
      rewrite andb_false_r. by rewrite Hdig.
  - assert (∀ (A : Type) (a b e : A),
               match String c s with
               | String "0" (String _ _) => a
               | String _ _ => b
               | "" => e
               end = b) as Hmatch.
    { intros A a b e. destruct c as [[] [] [] [] [] [] [] []]; done. }
    rewrite Hd in *. revert Hdig. generalize (digits 16 0 (String c s)).
    intros p ->. destruct c as [[] [] [] [] [] [] [] []]; try done.
Qed.

(** [%X] on one to eight hexadecimal digits: all of them are read, and
    their value fits the [unsigned int]. *)
Lemma scan_X_xdigits (s : string) :
  all_xdigit s = true → s ≠ "" → (String.length s ≤ 8)%nat →
  scan_X s = Some (hex_value s, "").
Proof.
  intros Hs Hne Hlen. unfold scan_X. rewrite scan_int_xdigits by done. simpl.
  pose proof (hex_value_range s Hs) as Hr.
  assert (16 ^ Z.of_nat (String.length s) ≤ 16 ^ 8) by (apply Z.pow_le_mono_r; lia).
  unfold strtoul_val, ULONG_MAX.
  destruct (Z.ltb_spec (2 ^ 64 - 1) (hex_value s)); [lia|].
  rewrite Z.mod_small by lia. done.
Qed.

Lemma octet_range (a : Z) : 0 ≤ Z.land a 255 < 10 ^ Z.of_nat 3.
Proof.
  change 255 with (Z.ones 8). rewrite Z.land_ones by lia.
  pose proof (Z.mod_pos_bound a (2 ^ 8)). simpl. lia.
Qed.

Lemma dotted_quad_length (addr : Z) : (String.length (dotted_quad addr) ≤ 15)%nat.
Proof.
  unfold dotted_quad. rewrite !string_length_app.
  change (String.length ".") with 1%nat.
  pose proof (fmt_d_length 3 _ (octet_range addr)).
  pose proof (fmt_d_length 3 _ (octet_range (Z.shiftr addr 8))).
  pose proof (fmt_d_length 3 _ (octet_range (Z.shiftr addr 16))).
  pose proof (fmt_d_length 3 _ (octet_range (Z.shiftr addr 24))).
  lia.
Qed.

(** C5.  For a string [hex] of eight hexadecimal digits, [hex_to_ip]
    reads it as the unsigned integer [v] it writes and, into a buffer of
    at least 16 bytes, prints the four octets of [v] from the least
    significant to the most significant, separated by dots; "0100007F"
    gives "127.0.0.1".  For an IPv6 table the hex string is copied as it
    is (into a buffer that holds it). *)
Theorem hex_to_ip_decodes (hex : string) (ip_len : nat) :
  (16 ≤ ip_len)%nat →
  (String.length hex = 8%nat → all_xdigit hex = true →
     let v := hex_value hex in
     scan_X hex = Some (v, "") ∧
     hex_to_ip hex ip_len false
     = fmt_d (Z.land v 255) +:+ "." +:+
       fmt_d (Z.land (Z.shiftr v 8) 255) +:+ "." +:+
       fmt_d (Z.land (Z.shiftr v 16) 255) +:+ "." +:+
       fmt_d (Z.land (Z.shiftr v 24) 255)) ∧
  hex_to_ip "0100007F" ip_len false = "127.0.0.1" ∧
  ((String.length hex < ip_len)%nat → hex_to_ip hex ip_len true = hex).
Proof.
  intros Hlen. split; [|split].
  - intros H8 Hx v.
    assert (scan_X hex = Some (v, "")) as Hscan.
    { apply scan_X_xdigits; [done| |lia]. by destruct hex. }
    split; [done|]. unfold hex_to_ip. rewrite Hscan.
    rewrite snprintf_fits; [done|].
    pose proof (dotted_quad_length v). lia.
  - unfold hex_to_ip.
    replace (scan_X "0100007F") with (Some (16777343 : Z, "")) by (by vm_compute).
    rewrite snprintf_fits; [by vm_compute|].
    pose proof (dotted_quad_length 16777343). lia.
  - intros Hfit. by apply snprintf_fits.
Qed.

End decoder.

(** ** Socket-table reader: what a scanned line holds *)

Section scanned_fields.

Lemma span_spec (p : ascii → bool) (width : nat) (s l r : string) :
  span p width s = (l, r) →
  (String.length l ≤ width)%nat ∧
  (∀ q, (∀ c, p c = true → q c = true) →
        (fix all (t : string) := match t with
                                 | String c t' => q c && all t'
                                 | "" => true
                                 end) l = true).
Proof.
  revert s l r. induction width as [|n IH]; intros [|c s] l r; simpl;
    try (intros [= <- <-]; simpl; split; [lia | done]).
  destruct (p c) eqn:Hc; [|intros [= <- <-]; simpl; split; [lia | done]].
  destruct (span p n s) as [l' r'] eqn:Hspan. intros [= <- <-].
  destruct (IH _ _ _ Hspan) as [Hlen Hall]. simpl. split; [lia|].
  intros q Hq. rewrite (Hq c Hc). simpl. by apply Hall.
Qed.

Lemma scan_set_xdigits (width : nat) (s l r : string) :
  scan_set width isxdigit s = Some (l, r) →
  l ≠ "" ∧ (String.length l ≤ width)%nat ∧ all_xdigit l = true.
Proof.
  unfold scan_set. destruct (span isxdigit width s) as [l' r'] eqn:Hspan.
  destruct (span_spec _ _ _ _ _ Hspan) as [Hlen Hall].
  destruct l' as [|c l']; [done|]. intros [= <- <-].
  split; [done|]. split; [done|]. by apply (Hall isxdigit).
Qed.

Lemma scan_X_range (s r : string) (v : Z) :
  scan_X s = Some (v, r) → 0 ≤ v < 2 ^ 32.
Proof.
  unfold scan_X. destruct (scan_int 16 s) as [[[neg v'] r']|]; [|done].
  simpl. intros [= <- <-]. apply Z.mod_pos_bound. lia.
Qed.

(** The six objects [sscanf] assigns when it returns 6. *)
Lemma sscanf_sock_fields (is_ipv6 : bool) (line : string) (r : sock_fields) :
  sscanf_sock is_ipv6 line = Some r →
  (local_addr_hex r ≠ "" ∧
     (String.length (local_addr_hex r) ≤ if is_ipv6 then 32 else 8)%nat ∧
     all_xdigit (local_addr_hex r) = true) ∧
  (remote_addr_hex r ≠ "" ∧
     (String.length (remote_addr_hex r) ≤ if is_ipv6 then 32 else 8)%nat ∧
     all_xdigit (remote_addr_hex r) = true) ∧
  0 ≤ local_port r < 2 ^ 32 ∧ 0 ≤ remote_port r < 2 ^ 32 ∧
  0 ≤ state r < 2 ^ 32 ∧ 0 ≤ inode r < 2 ^ 64.
Proof.
  unfold sscanf_sock. intros Hscan.
  repeat match type of Hscan with
         | (mbind _ ?m) = Some _ =>
             let E := fresh "E" in
             destruct m as [[??]|] eqn:E; simpl in Hscan; [|done]
         | (mbind _ ?m) = Some _ =>
             let E := fresh "E" in
             destruct m as [?|] eqn:E; simpl in Hscan; [|done]
         end.
  injection Hscan as <-. simpl.
  repeat match goal with
         | H : scan_set _ _ _ = Some _ |- _ => apply scan_set_xdigits in H
         | H : scan_X _ = Some _ |- _ => apply scan_X_range in H
         | H : scan_lu _ = Some _ |- _ => apply scan_lu_range in H
         end.
  done.
Qed.

End scanned_fields.

(** ** Process-socket correlator: verification *)

Section correlator.
Context `{!sentinel_h}.
Variable w : world.

Lemma inode_str_fits (inode : Z) :
  0 ≤ inode < 2 ^ 64 →
  inode_str inode = socket_link inode ∧ (String.length (socket_link inode) ≤ 29)%nat.
Proof.
  intros Hi.
  assert (String.length (socket_link inode) ≤ 29)%nat as Hlen.
  { unfold socket_link. rewrite !string_length_app.
    pose proof (fmt_d_length 20 inode ltac:(simpl; lia)).
    change (String.length "socket:[") with 8%nat.
    change (String.length "]") with 1%nat. lia. }
  split; [|done]. apply snprintf_fits. lia.
Qed.

Lemma fd_path_fits (pid : Z) :
  - 2 ^ 31 ≤ pid < 2 ^ 31 →
  snprintf 128 ("/proc/" +:+ fmt_d pid +:+ "/fd") = fd_dir pid.
Proof.
  intros Hpid. unfold fd_dir. apply snprintf_fits. rewrite !string_length_app.
  pose proof (fmt_d_length_signed 10 pid ltac:(simpl; lia)).
  change (String.length "/proc/") with 6%nat.
  change (String.length "/fd") with 3%nat. lia.
Qed.

(** The comparison of a link target with [inode_str], after [readlink]
    has cut the target to 511 bytes. *)
Lemma link_target_matches (inode : Z) (target : string) :
  0 ≤ inode < 2 ^ 64 →
  (0 <? String.length (strn 511 target))%nat
    && String.eqb (strn 511 target) (inode_str inode) = true
  ↔ target = socket_link inode.
Proof.
  intros Hi. destruct (inode_str_fits inode Hi) as [-> Hlen].
  rewrite andb_true_iff, Nat.ltb_lt, String.eqb_eq. split.
  - intros [_ Heq]. rewrite <- Heq. symmetry. apply strn_short. rewrite Heq. lia.
  - intros ->. rewrite strn_fits by lia. split; [|done].
    unfold socket_link. rewrite string_length_app. simpl. lia.
Qed.

Lemma scan_fd_dir_spec (pid inode : Z) (fds : list string) :
  0 ≤ inode < 2 ^ 64 →
  scan_fd_dir w (fd_dir pid) (inode_str inode) fds = true
  ↔ ∃ fd, fd ∈ fds ∧ readlink w (fd_link pid fd) = Some (socket_link inode).
Proof.
  intros Hi. induction fds as [|fd fds IH]; simpl.
  - split; [done|]. intros (fd & Hin & _). by apply elem_of_nil in Hin.
  - fold (fd_link pid fd).
    destruct (readlink w (fd_link pid fd)) as [target|] eqn:Hlink.
    + destruct (_ && _) eqn:Hmatch.
      * apply link_target_matches in Hmatch as ->; [|done].
        split; [|done]. intros _. exists fd. split; [left|done].
      * rewrite IH. split.
        -- intros (fd' & Hin & Hfd'). exists fd'. split; [by right|done].
        -- intros (fd' & Hin & Hfd'). apply elem_of_cons in Hin as [->|Hin].
           ++ rewrite Hlink in Hfd'. injection Hfd' as ->.
              apply not_true_iff_false in Hmatch. destruct Hmatch.
              by apply link_target_matches.
           ++ by exists fd'.
    + rewrite IH. split.
      * intros (fd' & Hin & Hfd'). exists fd'. split; [by right|done].
      * intros (fd' & Hin & Hfd'). apply elem_of_cons in Hin as [->|Hin].
        -- by rewrite Hlink in Hfd'.
        -- by exists fd'.
Qed.

(** The test of one entry of /proc decides [holds_socket]. *)
Lemma proc_entry_owner_spec (inode : Z) (d_name : string) :
  0 ≤ inode < 2 ^ 64 →
  (holds_socket w inode d_name →
     proc_entry_owner w (inode_str inode) d_name = Some (atoi d_name)) ∧
  (¬ holds_socket w inode d_name →
     proc_entry_owner w (inode_str inode) d_name = None).
Proof.
  intros Hi. unfold proc_entry_owner, holds_socket.
  destruct d_name as [|c s].
  { split; [|done]. by intros [(c & s & ? & _) _]. }
  rewrite fd_path_fits by apply atoi_range.
  destruct (isdigit c) eqn:Hc.
  2: { split; [|done]. intros [(c' & s' & [= <- <-] & Hc') _]. congruence. }
  destruct (opendir w (fd_dir (atoi (String c s)))) as [fds|] eqn:Hdir.
  2: { split; [|done]. by intros [_ (fds & fd & ? & _)]. }
  destruct (scan_fd_dir _ _ _ fds) eqn:Hscan.
  - split; [done|]. intros Hno. destruct Hno. split; [by eauto|].
    apply scan_fd_dir_spec in Hscan as (fd & Hin & Hfd); [|done]. by eauto.
  - split; [|done]. intros [_ (fds' & fd & [= <-] & Hin & Hfd)].
    apply not_true_iff_false in Hscan. destruct Hscan.
    apply scan_fd_dir_spec; [done|]. by eauto.
Qed.

Lemma scan_proc_dir_first (inode : Z) (before after : list string) (d : string) :
  0 ≤ inode < 2 ^ 64 →
  holds_socket w inode d →
  (∀ d', d' ∈ before → ¬ holds_socket w inode d') →
  scan_proc_dir w (inode_str inode) (before ++ d :: after) = atoi d.
Proof.
  intros Hi Hd. induction before as [|d0 before IH]; intros Hbefore; simpl.
  - by rewrite (proj1 (proc_entry_owner_spec inode d Hi) Hd).
  - rewrite (proj2 (proc_entry_owner_spec inode d0 Hi)).
    + apply IH. intros d' Hin. apply Hbefore. by right.
    + apply Hbefore. by left.
Qed.

Lemma scan_proc_dir_none (inode : Z) (entries : list string) :
  0 ≤ inode < 2 ^ 64 →
  (∀ d, d ∈ entries → ¬ holds_socket w inode d) →
  scan_proc_dir w (inode_str inode) entries = 0.
Proof.
  intros Hi. induction entries as [|d entries IH]; intros Hnone; simpl; [done|].
  rewrite (proj2 (proc_entry_owner_spec inode d Hi)).
  - apply IH. intros d' Hin. apply Hnone. by right.
  - apply Hnone. by left.
Qed.

(** C6.  [find_pid_for_inode] returns the process id of the first entry
    of /proc, in the order [readdir] gives them, that is a process
    holding a descriptor whose link target is the socket with the queried
    inode; it returns 0 when no entry is one, and when /proc cannot be
    opened.  An entry whose owner is not found (the lookup returned 0) is
    stored with pid 0 and the placeholder "[kernel]" written by
    [snprintf] as its process name. *)
Theorem find_pid_for_inode_first_owner (ino : Z) :
  0 ≤ ino < 2 ^ 64 →
  (opendir w "/proc" = None → find_pid_for_inode w ino = 0) ∧
  (∀ before d after,
      opendir w "/proc" = Some (before ++ d :: after) →
      holds_socket w ino d →
      (∀ d', d' ∈ before → ¬ holds_socket w ino d') →
      find_pid_for_inode w ino = atoi d) ∧
  (∀ entries,
      opendir w "/proc" = Some entries →
      (∀ d, d ∈ entries → ¬ holds_socket w ino d) →
      find_pid_for_inode w ino = 0) ∧
  (∀ is_ipv6 r l c,
      inode r = ino → find_pid_for_inode w ino = 0 →
      let placeholder := snprintf sizeof_l_process_name "[kernel]" in
      let l1 := tcp_listener w is_ipv6 r l in
      let l2 := udp_listener w is_ipv6 r l in
      let c1 := tcp_connection w is_ipv6 r c in
      (l_pid l1 = 0 ∧ l_process_name l1 = placeholder) ∧
      (l_pid l2 = 0 ∧ l_process_name l2 = placeholder) ∧
      (c_pid c1 = 0 ∧ c_process_name c1 = snprintf sizeof_c_process_name "[kernel]")).
Proof.
  intros Hi. split; [|split; [|split]].
  - intros Hdir. unfold find_pid_for_inode. by rewrite Hdir.
  - intros before d after Hdir Hd Hbefore. unfold find_pid_for_inode.
    rewrite Hdir. by apply scan_proc_dir_first.
  - intros entries Hdir Hnone. unfold find_pid_for_inode.
    rewrite Hdir. by apply scan_proc_dir_none.
  - intros is_ipv6 r l c Hr Hfind. simpl. unfold owner_name.
    rewrite Hr, Hfind. done.
Qed.

End correlator.

(** ** Socket-table reader: one record *)

Section records.
Context `{!sentinel_h}.
Variable w : world.

(** The branches of the loop body of [parse_tcp_file]. *)
Lemma tcp_record_cases (is_ipv6 : bool) (net : network_info_t) (line : string)
    (r : sock_fields) :
  sscanf_sock is_ipv6 line = Some r →
  let net' := tcp_record w is_ipv6 net line in
  (state r = 10 ∧ listener_count net < Z.of_nat MAX_LISTENERS ∧
     net' = store_listener (tcp_listener w is_ipv6 r) (local_port r) net) ∨
  (state r = 1 ∧ connection_count net < Z.of_nat MAX_CONNECTIONS ∧
     net' = store_connection (tcp_connection w is_ipv6 r) net) ∨
  (state r = 10 ∧ Z.of_nat MAX_LISTENERS ≤ listener_count net ∧ net' = net) ∨
  (state r = 1 ∧ Z.of_nat MAX_CONNECTIONS ≤ connection_count net ∧ net' = net) ∨
  (state r ≠ 10 ∧ state r ≠ 1 ∧ net' = net).
Proof.
  intros Hscan. unfold tcp_record. rewrite Hscan. simpl.
  destruct (Z.eqb_spec (state r) 10) as [H10|H10],
           (Z.eqb_spec (state r) 1) as [H1|H1],
           (Z.ltb_spec (listener_count net) (Z.of_nat MAX_LISTENERS)),
           (Z.ltb_spec (connection_count net) (Z.of_nat MAX_CONNECTIONS));
    simpl; try lia; auto 10.
Qed.

(** The branches of the loop body of [parse_udp_file]. *)
Lemma udp_record_cases (is_ipv6 : bool) (net : network_info_t) (line : string)
    (r : sock_fields) :
  sscanf_sock is_ipv6 line = Some r →
  let net' := udp_record w is_ipv6 net line in
  (udp_bound r ∧ net' = store_listener (udp_listener w is_ipv6 r) (local_port r) net) ∨
  (¬ udp_bound r ∧ net' = net).
Proof.
  intros Hscan. unfold udp_record, udp_bound. rewrite Hscan. simpl.
  pose proof (sscanf_sock_fields _ _ _ Hscan) as (_ & _ & Hport & _).
  destruct (Z.eqb_spec (state r) 7), (Z.ltb_spec 0 (local_port r)); simpl;
    [left|left|left|right]; (split; [|done]); lia.
Qed.

Lemma store_connection_counts mk net :
  let net' := store_connection mk net in
  connection_count net' = connection_count net + 1 ∧
  total_established net' = total_established net + 1 ∧
  listener_count net' = listener_count net ∧
  total_listening net' = total_listening net ∧
  listeners net' = listeners net ∧
  unusual_port_count net' = unusual_port_count net.
Proof. done. Qed.

(** C2, as the code has it.  For a line of a TCP table that scans into
    the six fields, the loop body stores a listener entry exactly when
    the state is 10 (LISTEN) and the listener array is not full, and a
    connection entry exactly when the state is 1 (ESTABLISHED) and the
    connection array is not full; in every other case, among them every
    other state, nothing is stored and no counter changes. *)
Theorem tcp_record_classifies (is_ipv6 : bool) (net : network_info_t)
    (line : string) (r : sock_fields) :
  sscanf_sock is_ipv6 line = Some r →
  let net' := tcp_record w is_ipv6 net line in
  let as_listener := state r = 10 ∧ listener_count net < Z.of_nat MAX_LISTENERS in
  let as_connection := state r = 1 ∧ connection_count net < Z.of_nat MAX_CONNECTIONS in
  (listener_count net' = listener_count net + 1 ↔ as_listener) ∧
  (as_listener →
     net' = store_listener (tcp_listener w is_ipv6 r) (local_port r) net) ∧
  (connection_count net' = connection_count net + 1 ↔ as_connection) ∧
  (as_connection → net' = store_connection (tcp_connection w is_ipv6 r) net) ∧
  (¬ as_listener → ¬ as_connection → net' = net) ∧
  (state r ≠ 10 → state r ≠ 1 → net' = net).
Proof.
  intros Hscan. simpl.
  destruct (tcp_record_cases is_ipv6 net line r Hscan)
    as [(? & ? & ->)|[(? & ? & ->)|[(? & ? & ->)|[(? & ? & ->)|(? & ? & ->)]]]];
    simpl; repeat split; intros; try done; try lia.
Qed.

(** Once the listener array is full the loop of [parse_udp_file] stops:
    no later line changes the structure. *)
Lemma udp_loop_full (is_ipv6 : bool) (ls : list string) (net : network_info_t) :
  Z.of_nat MAX_LISTENERS ≤ listener_count net → udp_loop w is_ipv6 ls net = net.
Proof.
  intros Hfull. destruct ls as [|l ls]; simpl; [done|].
  by destruct (Z.ltb_spec (listener_count net) (Z.of_nat MAX_LISTENERS)); [lia|].
Qed.

(** The loop over a table is the loop over its end, from the structure
    the loop over its beginning leaves. *)
Lemma udp_loop_app (is_ipv6 : bool) (ls1 ls2 : list string) (net : network_info_t) :
  udp_loop w is_ipv6 (ls1 ++ ls2) net
  = udp_loop w is_ipv6 ls2 (udp_loop w is_ipv6 ls1 net).
Proof.
  revert net. induction ls1 as [|l ls1 IH]; intros net; simpl; [done|].
  destruct (Z.ltb_spec (listener_count net) (Z.of_nat MAX_LISTENERS)); [apply IH|].
  by rewrite udp_loop_full.
Qed.

(** C3, as the code has it.  [net] is the structure when the loop of
    [parse_udp_file] reaches a line that scans into the six fields, and
    [net'] the structure when the loop has dealt with that line.  The line
    gives a listener entry exactly when its state is 7 or its local port is
    not zero, and the listener array is not full; otherwise everything is
    left as it was.  With the array full the loop stops, so nothing that
    follows in the table is stored either.  Neither a line, nor the loop,
    nor [parse_udp_file] touches the connection array, its count or the
    established total. *)
Theorem udp_line_classifies (is_ipv6 : bool) (net : network_info_t)
    (line : string) (r : sock_fields) :
  sscanf_sock is_ipv6 line = Some r →
  let net' := udp_loop w is_ipv6 [line] net in
  let as_listener :=
    (state r = 7 ∨ local_port r ≠ 0) ∧ listener_count net < Z.of_nat MAX_LISTENERS in
  let same_connections (n0 n : network_info_t) :=
    connections n = connections n0 ∧ connection_count n = connection_count n0 ∧
    total_established n = total_established n0 in
  (listener_count net' = listener_count net + 1 ↔ as_listener) ∧
  (as_listener →
     net' = store_listener (udp_listener w is_ipv6 r) (local_port r) net) ∧
  (¬ as_listener → net' = net) ∧
  (∀ before after n0,
     net = udp_loop w is_ipv6 before n0 →
     udp_loop w is_ipv6 (before ++ line :: after) n0 = udp_loop w is_ipv6 after net') ∧
  (∀ filename f header rest before after n0,
     fopen w filename = Some f → fgets 512 f = Some (header, rest) →
     lines 512 rest = before ++ line :: after →
     net = udp_loop w is_ipv6 before n0 →
     parse_udp_file w filename n0 is_ipv6 = (0, udp_loop w is_ipv6 after net')) ∧
  (Z.of_nat MAX_LISTENERS ≤ listener_count net →
     ∀ ls, udp_loop w is_ipv6 ls net = net) ∧
  same_connections net net' ∧
  (∀ ls n0, same_connections n0 (udp_loop w is_ipv6 ls n0)) ∧
  (∀ filename n0, same_connections n0 (parse_udp_file w filename n0 is_ipv6).2).
Proof.
  intros Hscan. cbv zeta.
  assert (∀ b n l, connections (udp_record w b n l) = connections n ∧
                   connection_count (udp_record w b n l) = connection_count n ∧
                   total_established (udp_record w b n l) = total_established n)
    as Hbody.
  { intros b n l. unfold udp_record. repeat case_match; done. }
  assert (∀ ls n0, connections (udp_loop w is_ipv6 ls n0) = connections n0 ∧
                   connection_count (udp_loop w is_ipv6 ls n0) = connection_count n0 ∧
                   total_established (udp_loop w is_ipv6 ls n0) = total_established n0)
    as Hloop.
  { induction ls as [|l ls IH]; intros n0; simpl; [done|].
    case_match; [|done].
    destruct (IH (udp_record w is_ipv6 n0 l)) as (-> & -> & ->). apply Hbody. }
  assert (∀ before after n0,
            net = udp_loop w is_ipv6 before n0 →
            udp_loop w is_ipv6 (before ++ line :: after) n0
            = udp_loop w is_ipv6 after (udp_loop w is_ipv6 [line] net)) as Hthen.
  { intros before after n0 ->.
    by rewrite (udp_loop_app _ before (line :: after)),
               (udp_loop_app _ [line] after (udp_loop w is_ipv6 before n0)). }
  assert ((listener_count net < Z.of_nat MAX_LISTENERS ∧
             udp_loop w is_ipv6 [line] net = udp_record w is_ipv6 net line) ∨
          (Z.of_nat MAX_LISTENERS ≤ listener_count net ∧
             udp_loop w is_ipv6 [line] net = net)) as Hline.
  { simpl. destruct (Z.ltb_spec (listener_count net) (Z.of_nat MAX_LISTENERS));
      [by left|by right]. }
  split; [|split; [|split; [|split; [|split; [|split; [|split; [|split]]]]]]].
  - destruct Hline as [[Hroom ->]|[Hfull ->]]; [|split; [lia|intros [_ ?]; lia]].
    destruct (udp_record_cases is_ipv6 net line r Hscan) as [[Hb ->]|[Hb ->]]; simpl.
    + done.
    + split; [lia|]. by intros [? _].
  - intros [Hb Hroom]. destruct Hline as [[_ ->]|[? _]]; [|lia].
    by destruct (udp_record_cases is_ipv6 net line r Hscan) as [[_ ->]|[? _]].
  - intros Hnot. destruct Hline as [[Hroom ->]|[_ ->]]; [|done].
    destruct (udp_record_cases is_ipv6 net line r Hscan) as [[Hb _]|[_ ->]]; [|done].
    by destruct Hnot.
  - exact Hthen.
  - intros filename f header rest before after n0 Hopen Hheader Hlines Hnet.
    unfold parse_udp_file. rewrite Hopen, Hheader, Hlines. by rewrite (Hthen _ _ _ Hnet).
  - intros Hfull ls. by apply udp_loop_full.
  - apply Hloop.
  - apply Hloop.
  - intros filename n0. unfold parse_udp_file.
    repeat case_match; simpl; first [done | apply Hloop].
Qed.

(** C8.  A line that does not scan into the six fields ([sscanf] does not
    return 6) leaves the structure as it was, arrays and counters, in both
    parsers, and the loop goes on with the lines after it: a table with
    such a line gives what the table without the line gives. *)
Theorem malformed_record_skipped (is_ipv6 : bool) (bad : string)
    (net : network_info_t) (before after : list string) :
  sscanf_sock is_ipv6 bad = None →
  tcp_record w is_ipv6 net bad = net ∧
  udp_record w is_ipv6 net bad = net ∧
  tcp_loop w is_ipv6 (before ++ bad :: after) net
    = tcp_loop w is_ipv6 (before ++ after) net ∧
  udp_loop w is_ipv6 (before ++ bad :: after) net
    = udp_loop w is_ipv6 (before ++ after) net.
Proof.
  intros Hbad.
  assert (∀ n, tcp_record w is_ipv6 n bad = n) as Htcp.
  { intros n. unfold tcp_record. by rewrite Hbad. }
  assert (∀ n, udp_record w is_ipv6 n bad = n) as Hudp.
  { intros n. unfold udp_record. by rewrite Hbad. }
  split; [done|]. split; [done|]. split.
  - revert net. induction before as [|l before IH]; intros net; simpl.
    + by rewrite Htcp.
    + apply IH.
  - revert net. induction before as [|l before IH]; intros net; simpl.
    + rewrite Hudp. destruct after as [|l after]; simpl; by case_match.
    + case_match; [apply IH|done].
Qed.

End records.

(** ** Aggregator: the structure through one probe *)

Section aggregator.
Context `{!sentinel_h}.
Variable w : world.

Lemma take_take_app {A : Type} (n : nat) (a b : list A) :
  take n (take n a ++ b) = take n (a ++ b).
Proof.
  destruct (decide (length a ≤ n)%nat) as [Hle|Hgt].
  - by rewrite (take_ge a n).
  - rewrite !take_app_le; [by rewrite take_idemp|lia|].
    rewrite length_take. lia.
Qed.

Lemma represents_zero : represents network_info_zero [] [] [].
Proof. unfold represents. simpl. rewrite !Nat.sub_0_r. repeat split; lia. Qed.

(** From a structure that [represents] its entries, the entries in use
    and the counters are read off. *)
Lemma represents_stored net L Lr C :
  represents net L Lr C →
  stored_listeners net = L ∧ stored_connections net = C ∧
  length (listeners net) = MAX_LISTENERS ∧
  length (connections net) = MAX_CONNECTIONS.
Proof.
  intros (HL & HLM & HCM & Hl & Hlc & _ & _ & Hc & Hcc & _).
  unfold stored_listeners, stored_connections.
  rewrite Hl, Hlc, Hc, Hcc, !Nat2Z.id, !take_app_length, !length_app, !length_replicate.
  repeat split; lia.
Qed.

Lemma represents_store_listener net L Lr C mk r :
  represents net L Lr C → (length L < MAX_LISTENERS)%nat →
  represents (store_listener mk (local_port r) net)
             (L ++ [mk zero_listener]) (Lr ++ [r]) C.
Proof.
  intros (HL & HLM & HCM & Hl & Hlc & Htl & Hu & Hc & Hcc & Hte) Hroom.
  unfold represents, store_listener. simpl.
  rewrite !length_app, Hlc, Htl, Hu, Hl, Nat2Z.id. simpl.
  repeat split; try done; try lia.
  - destruct (MAX_LISTENERS - length L)%nat as [|k] eqn:Hk; [lia|].
    cbn [replicate]. rewrite list_lookup_total_middle by done.
    replace (length L) with (length L + 0)%nat at 1 by lia.
    rewrite insert_app_r. simpl. rewrite <- app_assoc. simpl.
    by replace (MAX_LISTENERS - (length L + 1))%nat with k by lia.
  - rewrite filter_app, length_app, list.filter_singleton by done.
    destruct (decide (unusual_port r)) as [Hr|Hr]; unfold unusual_port in Hr;
      destruct (Z.eqb_spec (is_common_port (to_uint16 (local_port r))) 0);
      try done; simpl; lia.
Qed.

Lemma represents_store_connection net L Lr C mk :
  represents net L Lr C → (length C < MAX_CONNECTIONS)%nat →
  represents (store_connection mk net) L Lr (C ++ [mk zero_connection]).
Proof.
  intros (HL & HLM & HCM & Hl & Hlc & Htl & Hu & Hc & Hcc & Hte) Hroom.
  unfold represents, store_connection. simpl.
  rewrite !length_app, Hcc, Hte, Hc, Nat2Z.id. simpl.
  repeat split; try done; try lia.
  destruct (MAX_CONNECTIONS - length C)%nat as [|k] eqn:Hk; [lia|].
  cbn [replicate]. rewrite list_lookup_total_middle by done.
  replace (length C) with (length C + 0)%nat at 1 by lia.
  rewrite insert_app_r. simpl. rewrite <- app_assoc. simpl.
  by replace (MAX_CONNECTIONS - (length C + 1))%nat with k by lia.
Qed.

(** When an array is full, what would come after its entries is cut. *)
Lemma take_full {A : Type} (n : nat) (l k k' : list A) :
  length l = n → take n (l ++ k) = take n (l ++ k').
Proof. intros <-. by rewrite !take_app_length. Qed.

Lemma tcp_loop_represents (is_ipv6 : bool) (ls : list string) net L Lr C :
  represents net L Lr C →
  let recs := omap (sscanf_sock is_ipv6) ls in
  represents (tcp_loop w is_ipv6 ls net)
    (take MAX_LISTENERS
       (L ++ ((λ r, tcp_listener w is_ipv6 r zero_listener) <$> filter tcp_listen recs)))
    (take MAX_LISTENERS (Lr ++ filter tcp_listen recs))
    (take MAX_CONNECTIONS
       (C ++ ((λ r, tcp_connection w is_ipv6 r zero_connection)
                <$> filter tcp_established recs))).
Proof.
  revert net L Lr C. induction ls as [|line ls IH]; intros net L Lr C Hrep; simpl.
  - pose proof Hrep as (HL & HLM & HCM & _).
    by rewrite !app_nil_r, !take_ge by lia.
  - destruct (sscanf_sock is_ipv6 line) as [r|] eqn:Hscan.
    2: { unfold tcp_record. rewrite Hscan. by apply IH. }
    pose proof Hrep as (HL & HLM & HCM & _ & Hlc & _ & _ & _ & Hcc & _).
    destruct (tcp_record_cases w is_ipv6 net line r Hscan)
      as [(H10 & Hroom & ->)|[(H1 & Hroom & ->)|[(H10 & Hfull & ->)
         |[(H1 & Hfull & ->)|(H10 & H1 & ->)]]]].
    + rewrite (filter_cons_True tcp_listen) by done.
      rewrite (filter_cons_False tcp_established) by (unfold tcp_established; lia).
      rewrite fmap_cons, !(cons_middle _ L), !(cons_middle _ Lr), !app_assoc.
      apply IH. apply represents_store_listener; [done|lia].
    + rewrite (filter_cons_False tcp_listen) by (unfold tcp_listen; lia).
      rewrite (filter_cons_True tcp_established) by done.
      rewrite fmap_cons, !(cons_middle _ C), !app_assoc.
      apply IH. apply represents_store_connection; [done|lia].
    + rewrite (filter_cons_True tcp_listen) by done.
      rewrite (filter_cons_False tcp_established) by (unfold tcp_established; lia).
      rewrite (take_full MAX_LISTENERS L _
                 ((λ r, tcp_listener w is_ipv6 r zero_listener)
                    <$> filter tcp_listen (omap (sscanf_sock is_ipv6) ls))) by lia.
      rewrite (take_full MAX_LISTENERS Lr _
                 (filter tcp_listen (omap (sscanf_sock is_ipv6) ls))) by lia.
      by apply IH.
    + rewrite (filter_cons_False tcp_listen) by (unfold tcp_listen; lia).
      rewrite (filter_cons_True tcp_established) by done.
      rewrite (take_full MAX_CONNECTIONS C _
                 ((λ r, tcp_connection w is_ipv6 r zero_connection)
                    <$> filter tcp_established (omap (sscanf_sock is_ipv6) ls))) by lia.
      by apply IH.
    + rewrite (filter_cons_False tcp_listen) by done.
      rewrite (filter_cons_False tcp_established) by done.
      by apply IH.
Qed.

Lemma udp_loop_represents (is_ipv6 : bool) (ls : list string) net L Lr C :
  represents net L Lr C →
  let recs := omap (sscanf_sock is_ipv6) ls in
  represents (udp_loop w is_ipv6 ls net)
    (take MAX_LISTENERS
       (L ++ ((λ r, udp_listener w is_ipv6 r zero_listener) <$> filter udp_bound recs)))
    (take MAX_LISTENERS (Lr ++ filter udp_bound recs))
    C.
Proof.
  revert net L Lr. induction ls as [|line ls IH]; intros net L Lr Hrep; simpl.
  - pose proof Hrep as (HL & HLM & HCM & _).
    by rewrite !app_nil_r, !take_ge by lia.
  - pose proof Hrep as (HL & HLM & HCM & _ & Hlc & _).
    destruct (Z.ltb_spec (listener_count net) (Z.of_nat MAX_LISTENERS)) as [Hroom|Hfull].
    2: { rewrite (take_full MAX_LISTENERS L _ []), (take_full MAX_LISTENERS Lr _ []) by lia.
         rewrite !app_nil_r, !take_ge by lia. done. }
    destruct (sscanf_sock is_ipv6 line) as [r|] eqn:Hscan.
    2: { unfold udp_record. rewrite Hscan. by apply IH. }
    destruct (udp_record_cases w is_ipv6 net line r Hscan) as [[Hb ->]|[Hb ->]].
    + rewrite (filter_cons_True udp_bound) by done.
      rewrite fmap_cons, !(cons_middle _ L), !(cons_middle _ Lr), !app_assoc.
      apply IH. apply represents_store_listener; [done|lia].
    + rewrite (filter_cons_False udp_bound) by done. by apply IH.
Qed.

(** The parsers leave what their loop leaves on the lines of the table,
    which are none when the table cannot be read. *)
Lemma parse_tcp_file_loop (filename : string) net (is_ipv6 : bool) :
  (parse_tcp_file w filename net is_ipv6).2
  = tcp_loop w is_ipv6 (source_lines w filename) net.
Proof. unfold parse_tcp_file, source_lines. by repeat case_match. Qed.

Lemma parse_udp_file_loop (filename : string) net (is_ipv6 : bool) :
  (parse_udp_file w filename net is_ipv6).2
  = udp_loop w is_ipv6 (source_lines w filename) net.
Proof.
  unfold parse_udp_file, source_lines. repeat case_match; try done.
Qed.

Lemma probe_network_loops net0 :
  probe_network w net0
  = (0, udp_loop w true (source_lines w "/proc/net/udp6")
          (udp_loop w false (source_lines w "/proc/net/udp")
             (tcp_loop w true (source_lines w "/proc/net/tcp6")
                (tcp_loop w false (source_lines w "/proc/net/tcp")
                   network_info_zero)))).
Proof.
  unfold probe_network.
  by rewrite !parse_udp_file_loop, !parse_tcp_file_loop.
Qed.

(** The structure a probe returns holds the first [MAX_LISTENERS] listener
    entries and the first [MAX_CONNECTIONS] connection entries of the
    four tables. *)
Lemma probe_network_represents net0 :
  represents (probe_network w net0).2
    (take MAX_LISTENERS (listener_entries w))
    (take MAX_LISTENERS (listener_records w))
    (take MAX_CONNECTIONS (connection_entries w)).
Proof.
  rewrite probe_network_loops. simpl.
  pose proof (tcp_loop_represents false (source_lines w "/proc/net/tcp") _ _ _ _
                represents_zero) as H1.
  pose proof (tcp_loop_represents true (source_lines w "/proc/net/tcp6") _ _ _ _ H1) as H2.
  pose proof (udp_loop_represents false (source_lines w "/proc/net/udp") _ _ _ _ H2) as H3.
  pose proof (udp_loop_represents true (source_lines w "/proc/net/udp6") _ _ _ _ H3) as H4.
  simpl in H4. repeat rewrite <- ?app_assoc, ?take_take_app in H4.
  exact H4.
Qed.

(** C1.  After a probe, the listener entries in use are the first
    [MAX_LISTENERS] of the listener entries of the four tables, and the
    connection entries in use the first [MAX_CONNECTIONS] of the
    connection entries: their numbers are the minimum of the number of
    matching records and the capacity, and never exceed the capacity.
    The listening and established totals equal the numbers of stored
    entries, and the unusual-port count is the number of stored listeners
    with an unusual port: a record dropped for lack of room adds to no
    total. *)
Theorem probe_network_bounded (net0 : network_info_t) :
  let net := (probe_network w net0).2 in
  stored_listeners net = take MAX_LISTENERS (listener_entries w) ∧
  stored_connections net = take MAX_CONNECTIONS (connection_entries w) ∧
  length (stored_listeners net)
    = Nat.min (length (listener_records w)) MAX_LISTENERS ∧
  length (stored_connections net)
    = Nat.min (length (connection_records w)) MAX_CONNECTIONS ∧
  listener_count net = Z.of_nat (length (stored_listeners net)) ∧
  connection_count net = Z.of_nat (length (stored_connections net)) ∧
  listener_count net ≤ Z.of_nat MAX_LISTENERS ∧
  connection_count net ≤ Z.of_nat MAX_CONNECTIONS ∧
  total_listening net = listener_count net ∧
  total_established net = connection_count net ∧
  unusual_port_count net
    = Z.of_nat (length (filter unusual_port
                          (take MAX_LISTENERS (listener_records w)))).
Proof.
  intros net. pose proof (probe_network_represents net0) as Hrep.
  destruct (represents_stored _ _ _ _ Hrep) as (HsL & HsC & _ & _).
  destruct Hrep as (HL & HLM & HCM & _ & Hlc & Htl & Hu & _ & Hcc & Hte).
  fold net in HsL, HsC, Hlc, Htl, Hu, Hcc, Hte.
  rewrite HsL, HsC, Hlc, Hcc, Htl, Hte, Hu.
  assert (length (connection_entries w) = length (connection_records w)) as HlenC.
  { unfold connection_entries, connection_records.
    by rewrite !length_app, !length_fmap. }
  rewrite HL. rewrite !length_take in *. rewrite HlenC.
  repeat split; lia.
Qed.

(** C7.  A probe returns 0 with the structure its four loops leave, one
    after the other, on the lines of the four tables, whatever became of
    the tables before: a table that cannot be opened has no lines, its
    parser returns -1 and leaves the structure as it got it, and the
    parsers of the other tables run on what they are given. *)
Theorem probe_network_reads_every_source (net0 : network_info_t) :
  probe_network w net0
  = (0, udp_loop w true (source_lines w "/proc/net/udp6")
          (udp_loop w false (source_lines w "/proc/net/udp")
             (tcp_loop w true (source_lines w "/proc/net/tcp6")
                (tcp_loop w false (source_lines w "/proc/net/tcp")
                   network_info_zero)))) ∧
  (∀ filename net is_ipv6,
      fopen w filename = None →
      source_lines w filename = [] ∧
      parse_tcp_file w filename net is_ipv6 = (-1, net) ∧
      parse_udp_file w filename net is_ipv6 = (-1, net)) ∧
  (∀ filename net is_ipv6,
      (parse_tcp_file w filename net is_ipv6).2
        = tcp_loop w is_ipv6 (source_lines w filename) net ∧
      (parse_udp_file w filename net is_ipv6).2
        = udp_loop w is_ipv6 (source_lines w filename) net).
Proof.
  split; [apply probe_network_loops|]. split.
  - intros filename net is_ipv6 Hopen.
    unfold source_lines, parse_tcp_file, parse_udp_file. by rewrite Hopen.
  - intros filename net is_ipv6. split.
    + apply parse_tcp_file_loop.
    + apply parse_udp_file_loop.
Qed.

(** C9.  What a probe returns does not depend on what the structure held
    before: the structure is zeroed first, so a probe over any two
    structures, over the result of an earlier probe, or over the all-zero
    structure gives the same result; and with none of the four tables
    readable the result is the all-zero structure. *)
Theorem probe_network_idempotent (net1 net2 : network_info_t) :
  probe_network w net1 = probe_network w net2 ∧
  probe_network w (probe_network w net1).2 = probe_network w net1 ∧
  probe_network w net1 = probe_network w network_info_zero ∧
  ((∀ filename, fopen w filename = None) →
     probe_network w net1 = (0, network_info_zero)).
Proof.
  repeat split; try done.
  intros Hnone. rewrite probe_network_loops.
  unfold source_lines. by rewrite !Hnone.
Qed.

Lemma tcp_listener_state (is_ipv6 : bool) (r : sock_fields) (l : net_listener_t) :
  tcp_listen r →
  l_state (tcp_listener w is_ipv6 r l) = snprintf sizeof_l_state "LISTEN".
Proof. unfold tcp_listen. simpl. by intros ->. Qed.

Lemma listener_entries_state :
  Forall (λ l, l_state l = snprintf sizeof_l_state "LISTEN") (listener_entries w).
Proof.
  unfold listener_entries. rewrite !Forall_app, !Forall_fmap.
  repeat split; apply Forall_forall; intros r Hr;
    first [ reflexivity
          | apply list_elem_of_filter in Hr as [Hr _]; by apply tcp_listener_state ].
Qed.

(** C10.  The entry written for a UDP record has the state label
    "LISTEN" whatever the state of the record is, in particular for a
    record that is stored for its non-zero local port only: the loop body
    stores, after the entries in use, an entry with that label and the
    port of the record.  After a probe every listener entry in use has the
    label "LISTEN". *)
Theorem udp_listener_state_label (is_ipv6 : bool) (net : network_info_t)
    (line : string) (r : sock_fields) (net0 : network_info_t) :
  (7 ≤ sizeof_l_state)%nat →
  (∀ b r' l, l_state (udp_listener w b r' l) = "LISTEN") ∧
  (sscanf_sock is_ipv6 line = Some r → local_port r ≠ 0 →
   0 ≤ listener_count net →
   (Z.to_nat (listener_count net) < length (listeners net))%nat →
   ∃ l, stored_listeners (udp_record w is_ipv6 net line)
          = stored_listeners net ++ [l] ∧
        l_state l = "LISTEN" ∧ l_local_port l = to_port (local_port r)) ∧
  Forall (λ l, l_state l = "LISTEN") (stored_listeners (probe_network w net0).2).
Proof.
  intros Hsize.
  assert (snprintf sizeof_l_state "LISTEN" = "LISTEN") as Hlabel.
  { apply snprintf_fits. simpl. lia. }
  split; [done|]. split.
  - intros Hscan Hport Hcount Hslot.
    destruct (udp_record_cases w is_ipv6 net line r Hscan) as [[_ ->]|[Hb _]].
    2: { destruct Hb. by right. }
    exists (udp_listener w is_ipv6 r (listeners net !!! Z.to_nat (listener_count net))).
    split; [|split; [exact Hlabel|reflexivity]].
    unfold stored_listeners, store_listener. cbn [listeners listener_count].
    rewrite Z2Nat.inj_add, take_insert_lt by lia.
    change (Z.to_nat 1) with 1%nat.
    rewrite Nat.add_1_r.
    destruct (lookup_lt_is_Some_2 _ _ Hslot) as [x Hx].
    rewrite (take_S_r _ _ x) by done.
    rewrite insert_app_r_alt by (rewrite length_take; lia).
    rewrite length_take, Nat.min_l by lia. by rewrite Nat.sub_diag.
  - destruct (represents_stored _ _ _ _ (probe_network_represents net0)) as (-> & _).
    apply Forall_take. rewrite <- Hlabel. apply listener_entries_state.
Qed.

End aggregator.

(** ** Decimal numbers: printing and scanning back *)

Section decimal.

Lemma pretty_N_char_digit (d : N) :
  (d < 10)%N →
  isdigit (pretty_N_char d) = true ∧
  digit_val 10 (pretty_N_char d) = Some (Z.of_N d) ∧
  digit_val 16 (pretty_N_char d) = Some (Z.of_N d).
Proof.
  intros Hd.
  assert (d = 0 ∨ d = 1 ∨ d = 2 ∨ d = 3 ∨ d = 4 ∨ d = 5 ∨ d = 6 ∨ d = 7
          ∨ d = 8 ∨ d = 9)%N as Hcases by lia.
  repeat (destruct Hcases as [->|Hcases]; [by vm_compute|]). subst d. by vm_compute.
Qed.

(** The digits [pretty_N_go] puts before [s] write [x] in base 10. *)
Lemma pretty_N_go_digits (x : N) (s : string) :
  ∃ ds, pretty_N_go x s = ds +:+ s ∧ all_digit ds = true ∧
        ((0 < x)%N → ds ≠ "") ∧
        ∀ acc rest, digits 10 acc (ds +:+ rest)
                    = digits 10 (acc * 10 ^ Z.of_nat (String.length ds) + Z.of_N x) rest.
Proof.
  revert s. induction (N.lt_wf_0 x) as [x _ IH]. intros s.
  destruct (decide (x = 0%N)) as [->|Hx].
  { exists "". rewrite pretty_N_go_0. repeat split; try done; try lia.
    intros acc rest. simpl. f_equal. lia. }
  rewrite pretty_N_go_step by lia.
  destruct (IH (x `div` 10)%N ltac:(apply N.div_lt; lia)
              (String (pretty_N_char (x `mod` 10)) s))
    as (ds & Heq & Hall & _ & Hval).
  destruct (pretty_N_char_digit (x `mod` 10)%N ltac:(apply N.mod_lt; lia))
    as (Hdig & Hval10 & _).
  exists (ds +:+ String (pretty_N_char (x `mod` 10)) "").
  assert (∀ a b c, (a +:+ String b "") +:+ c = a +:+ String b c) as Hassoc.
  { intros a b c. induction a as [|a0 a IHa]; [done|].
    change (String a0 ((a +:+ String b "") +:+ c) = String a0 (a +:+ String b c)).
    by rewrite IHa. }
  repeat split.
  - by rewrite Hassoc.
  - clear -Hall Hdig. induction ds as [|c ds IHds]; simpl in *.
    + by rewrite Hdig.
    + apply andb_prop in Hall as [-> Hall]. simpl. by apply IHds.
  - intros _. by destruct ds.
  - intros acc rest. rewrite Hassoc, Hval. simpl digits. rewrite Hval10.
    f_equal. rewrite string_length_app. simpl String.length.
    rewrite Nat2Z.inj_add, Z.pow_add_r by lia.
    change (10 ^ Z.of_nat 1) with 10.
    pose proof (N.div_mod x 10 ltac:(lia)) as Hdm.
    apply (f_equal Z.of_N) in Hdm. rewrite N2Z.inj_add, N2Z.inj_mul in Hdm.
    change (Z.of_N 10) with 10 in Hdm. lia.
Qed.

(** The decimal form of a number starts with a digit, or with a minus sign
    followed by a digit; scanned back in base 10 it gives the number.  *)
Lemma fmt_d_digits (n : Z) :
  0 ≤ n →
  ∃ c ds, fmt_d n = String c ds ∧ isdigit c = true ∧
          ∀ rest, digits 10 0 (fmt_d n +:+ rest) = digits 10 n rest.
Proof.
  intros Hn. destruct n as [|p|p]; [|clear Hn|lia].
  - exists "0"%char, "". by repeat split.
  - unfold fmt_d, pretty, pretty_Z, pretty, pretty_positive, pretty, pretty_N.
    rewrite decide_False by done.
    destruct (pretty_N_go_digits (N.pos p) "") as (ds & -> & Hall & Hne & Hval).
    assert (ds +:+ "" = ds) as ->.
    { clear. induction ds as [|c ds IH]; [done|].
      change (String c (ds +:+ "") = String c ds). by rewrite IH. }
    destruct ds as [|c ds]; [by destruct Hne|].
    exists c, ds. simpl in Hall. apply andb_prop in Hall as [Hc _].
    split; [done|]. split; [done|]. intros rest.
    rewrite Hval. f_equal; lia.
Qed.

End decimal.

Section decimal_scan.

Lemma string_app_empty_r (s : string) : s +:+ "" = s.
Proof.
  induction s as [|c s IH]; [done|].
  change (String c (s +:+ "") = String c s). by rewrite IH.
Qed.

(** A decimal digit is neither white space nor a sign. *)
Lemma isdigit_plain (c : ascii) :
  isdigit c = true →
  isspace c = false ∧ c ≠ "-"%char ∧ c ≠ "+"%char ∧
  ∃ d, digit_val 10 c = Some d.
Proof.
  destruct c as [[] [] [] [] [] [] [] []]; intros Hc; vm_compute in Hc;
    try discriminate Hc; clear Hc; (repeat split; try done); by eexists.
Qed.

(** A base 10 conversion on input that starts with a digit reads the
    digits. *)
Lemma scan_int_10_digit (c : ascii) (s : string) :
  isdigit c = true →
  scan_int 10 (String c s)
  = Some (false, (digits 10 0 (String c s)).1, (digits 10 0 (String c s)).2).
Proof.
  intros Hc. destruct (isdigit_plain c Hc) as (Hsp & Hm & Hp & d & Hd).
  unfold scan_int. simpl skip_ws. rewrite Hsp.
  assert (scan_sign (String c s) = (false, String c s)) as ->.
  { unfold scan_sign. destruct c as [[] [] [] [] [] [] [] []]; done. }
  destruct (digits 10 0 (String c s)) as [v r] eqn:Hdig.
  destruct (decide (c = "0"%char)) as [->|Hc0].
  - destruct s as [|x s2]; [by rewrite Hd|]. simpl andb. cbv iota. done.
  - rewrite Hd. destruct c as [[] [] [] [] [] [] [] []]; done.
Qed.

(** [atoi] reads back what [%d] prints of an [int]. *)
Lemma atoi_fmt_d (n : Z) : - 2 ^ 31 ≤ n < 2 ^ 31 → atoi (fmt_d n) = n.
Proof.
  intros Hn.
  assert (∀ m, 0 ≤ m → ∃ c ds, fmt_d m = String c ds ∧ isdigit c = true ∧
                               digits 10 0 (fmt_d m) = (m, "")) as Hpos.
  { intros m Hm. destruct (fmt_d_digits m Hm) as (c & ds & Heq & Hc & Hval).
    exists c, ds. split; [done|]. split; [done|].
    specialize (Hval ""). by rewrite string_app_empty_r in Hval. }
  unfold atoi, to_int, LONG_MAX, LONG_MIN. destruct n as [|p|p].
  - by vm_compute.
  - destruct (Hpos (Z.pos p) ltac:(lia)) as (c & ds & Heq & Hc & Hval).
    rewrite Heq in *. destruct (isdigit_plain c Hc) as (Hsp & Hm & Hp & _).
    simpl skip_ws. rewrite Hsp.
    assert (scan_sign (String c ds) = (false, String c ds)) as ->.
    { unfold scan_sign. destruct c as [[] [] [] [] [] [] [] []]; done. }
    rewrite Hval. rewrite Z.min_r by lia. rewrite Z.mod_small by lia. lia.
  - destruct (Hpos (Z.pos p) ltac:(lia)) as (c & ds & Heq & Hc & Hval).
    change (fmt_d (Z.neg p)) with ("-" +:+ fmt_d (Z.pos p)).
    change ("-" +:+ fmt_d (Z.pos p)) with (String "-" (fmt_d (Z.pos p))).
    simpl skip_ws. simpl scan_sign. change (pretty p) with (fmt_d (Z.pos p)).
    cbv beta iota zeta. rewrite Hval.
    rewrite Z.max_r by lia. rewrite Z.mod_small by lia. lia.
Qed.

End decimal_scan.

(** ** The command line front end: verification *)

Section front_end.
Context `{!exit_codes}.

(** X17.  The interval of watch mode is always between 1 and 86400 seconds:
    an argument that [atoi] reads as a number in that range is taken as it
    is, a smaller one (also text that holds no number, read as 0) gives 1, a
    larger one 86400; the decimal form of a number in the range gives that
    number. *)
Theorem interval_option_clamped (optarg : string) (n : Z) :
  1 ≤ interval_option optarg ≤ 86400 ∧
  (1 ≤ atoi optarg ≤ 86400 → interval_option optarg = atoi optarg) ∧
  (atoi optarg < 1 → interval_option optarg = 1) ∧
  (86400 < atoi optarg → interval_option optarg = 86400) ∧
  (1 ≤ n ≤ 86400 → interval_option (fmt_d n) = n).
Proof.
  assert (∀ a, let i := if a <? 1 then 1 else a in
               let r := if 86400 <? i then 86400 else i in
               1 ≤ r ≤ 86400 ∧ (1 ≤ a ≤ 86400 → r = a) ∧ (a < 1 → r = 1) ∧
               (86400 < a → r = 86400)) as Hclamp.
  { intros a. simpl. destruct (Z.ltb_spec a 1);
      [destruct (Z.ltb_spec 86400 1)|destruct (Z.ltb_spec 86400 a)]; lia. }
  unfold interval_option.
  destruct (Hclamp (atoi optarg)) as (H1 & H2 & H3 & H4).
  repeat split; try done; try apply H1.
  intros Hn. rewrite atoi_fmt_d by lia. by apply (Hclamp n).
Qed.

(** X18.  With the exit codes ordered OK <= WARNINGS <= CRITICAL, the exit
    code computed from an analysis never goes down when the zombie,
    permission, high-descriptor and unusual-listener counts go up; more than
    three unusual listeners give CRITICAL whatever the other counts are, one
    to three give at least WARNINGS; the code is one of the three. *)
Theorem analysis_exit_code_monotone (a b : quick_analysis_t) :
  EXIT_OK ≤ EXIT_WARNINGS ≤ EXIT_CRITICAL →
  zombie_process_count a ≤ zombie_process_count b →
  config_permission_issues a ≤ config_permission_issues b →
  high_fd_process_count a ≤ high_fd_process_count b →
  unusual_listeners a ≤ unusual_listeners b →
  analysis_exit_code a ≤ analysis_exit_code b ∧
  (3 < unusual_listeners a → analysis_exit_code a = EXIT_CRITICAL) ∧
  (0 < unusual_listeners a → EXIT_WARNINGS ≤ analysis_exit_code a) ∧
  (analysis_exit_code a = EXIT_OK ∨ analysis_exit_code a = EXIT_WARNINGS
   ∨ analysis_exit_code a = EXIT_CRITICAL).
Proof.
  intros Hcodes Hz Hc Hf Hu. unfold analysis_exit_code.
  destruct (Z.ltb_spec 0 (zombie_process_count a)),
           (Z.ltb_spec 0 (zombie_process_count b)),
           (Z.ltb_spec 0 (config_permission_issues a)),
           (Z.ltb_spec 0 (config_permission_issues b)),
           (Z.ltb_spec 3 (unusual_listeners a)),
           (Z.ltb_spec 3 (unusual_listeners b)),
           (Z.ltb_spec 5 (high_fd_process_count a)),
           (Z.ltb_spec 5 (high_fd_process_count b)),
           (Z.ltb_spec 0 (unusual_listeners a)),
           (Z.ltb_spec 0 (unusual_listeners b));
    simpl; repeat split; try lia; auto.
Qed.

Lemma watch_loop_worst (worst : Z) (codes : list Z) :
  worst ≤ watch_loop worst codes ∧
  (∀ e, e ∈ codes → e ≤ watch_loop worst codes) ∧
  (watch_loop worst codes = worst ∨ watch_loop worst codes ∈ codes).
Proof.
  revert worst. induction codes as [|e codes IH]; intros worst; simpl.
  - split; [lia|]. split; [|by left]. intros e He. by apply elem_of_nil in He.
  - destruct (IH (if worst <? e then e else worst)) as (Hle & Hall & Hin).
    destruct (Z.ltb_spec worst e).
    + split; [lia|]. split.
      * intros e' [->|He']%elem_of_cons; [lia|by apply Hall].
      * right. destruct Hin as [->|Hin]; [by left|by right].
    + split; [lia|]. split.
      * intros e' [->|He']%elem_of_cons; [lia|by apply Hall].
      * destruct Hin as [->|Hin]; [by left|right; by right].
Qed.

(** X19.  Watch mode returns the largest exit code of its iterations, or
    EXIT_OK when that is larger (or there was no iteration): the result is at
    least EXIT_OK and every code seen, is EXIT_OK or one of the codes seen,
    and does not go down with more iterations. *)
Theorem watch_mode_exit_worst (codes more : list Z) :
  EXIT_OK ≤ watch_mode_exit codes ∧
  (∀ e, e ∈ codes → e ≤ watch_mode_exit codes) ∧
  (watch_mode_exit codes = EXIT_OK ∨ watch_mode_exit codes ∈ codes) ∧
  watch_mode_exit codes ≤ watch_mode_exit (codes ++ more).
Proof.
  unfold watch_mode_exit.
  destruct (watch_loop_worst EXIT_OK codes) as (H1 & H2 & H3).
  split; [exact H1|]. split; [exact H2|]. split; [exact H3|].
  assert (∀ w l1 l2, watch_loop w (l1 ++ l2) = watch_loop (watch_loop w l1) l2) as Happ.
  { intros w l1. revert w. induction l1 as [|e l1 IH]; intros w l2; simpl; [done|apply IH]. }
  rewrite Happ.
  by destruct (watch_loop_worst (watch_loop EXIT_OK codes) more) as [Hle _].
Qed.

End front_end.

(** ** Process names *)

Section process_names.
Variable w : world.

Lemma strn_no_newline (n : nat) (s : string) :
  has_newline s = false → has_newline (strn n s) = false.
Proof.
  revert s. induction n as [|n IH]; intros [|c s]; simpl; try done.
  intros [-> Hs]%orb_false_elim. simpl. by apply IH.
Qed.

Lemma cut_newline_no_newline (s : string) : has_newline (cut_newline s) = false.
Proof.
  induction s as [|c s IH]; simpl; [done|].
  destruct (Ascii.eqb c newline) eqn:Hc; simpl; [done|]. by rewrite Hc.
Qed.

(** The line [fgets] returns, cut at its newline, is the start of the first
    line of the file. *)
Lemma cut_newline_fgets_go (room : nat) (s : string) :
  cut_newline (fgets_go room s).1 = strn room (cut_newline s).
Proof.
  revert s. induction room as [|room IH]; intros [|c s]; try done.
  rewrite fgets_go_cons. simpl cut_newline at 2.
  destruct (Ascii.eqb c newline) eqn:Hc; simpl; rewrite Hc; [done|].
  by rewrite IH.
Qed.

Lemma get_process_name_cases (pid : Z) (name : string) (name_len : nat) :
  (2 ≤ name_len)%nat →
  let comm := snprintf 64 ("/proc/" +:+ fmt_d pid +:+ "/comm") in
  let result := get_process_name w pid name name_len in
  (fopen w comm = None → result = snprintf name_len "[unknown]") ∧
  (fopen w comm = Some "" → result = name) ∧
  (∀ text, fopen w comm = Some text → text ≠ "" →
           result = strn (name_len - 1) (cut_newline text)) ∧
  ((String.length name < name_len)%nat → (String.length result < name_len)%nat) ∧
  (has_newline name = false → has_newline result = false).
Proof.
  intros Hlen comm result. subst result. unfold get_process_name. fold comm.
  destruct name_len as [|[|room]]; try lia.
  destruct (fopen w comm) as [[|c text]|].
  - repeat split; try done. by intros text [= <-].
  - assert (cut_newline (fgets_go (S room) (String c text)).1
            = strn (S room) (cut_newline (String c text))) as Hcut
      by apply cut_newline_fgets_go.
    unfold fgets. destruct (fgets_go (S room) (String c text)) as [l rest].
    simpl fst in Hcut. rewrite Hcut.
    split; [done|]. split; [done|]. split.
    { intros text' [= <-] _. by rewrite Nat.sub_1_r. }
    split.
    + intros _. pose proof (strn_length (S room) (cut_newline (String c text))). lia.
    + intros _. apply strn_no_newline, cut_newline_no_newline.
  - split; [done|]. split; [done|]. split; [done|]. split.
    + intros _. pose proof (strn_length (S room) "[unknown]"). unfold snprintf. simpl Nat.pred. lia.
    + intros _. by apply strn_no_newline.
Qed.


(** X1.  [get_process_name] with a buffer of at least two bytes: when the
    comm file of the process cannot be opened the name is the placeholder
    "[unknown]" as [snprintf] writes it; when the file is empty the buffer
    keeps what it held; otherwise the name is the first line of the file
    without its newline, cut to the buffer size less one.  The name always
    fits the buffer (if what it held did) and has no newline (if what it
    held had none). *)
Theorem get_process_name_first_line (pid : Z) (name : string) (name_len : nat) :
  (2 ≤ name_len)%nat →
  let comm := snprintf 64 ("/proc/" +:+ fmt_d pid +:+ "/comm") in
  let result := get_process_name w pid name name_len in
  (fopen w comm = None → result = snprintf name_len "[unknown]") ∧
  (fopen w comm = Some "" → result = name) ∧
  (∀ text, fopen w comm = Some text → text ≠ "" →
           result = strn (name_len - 1) (cut_newline text)) ∧
  ((String.length name < name_len)%nat → (String.length result < name_len)%nat) ∧
  (has_newline name = false → has_newline result = false).
Proof. apply get_process_name_cases. Qed.

End process_names.

(** ** Process-socket correlator: more of what it does *)

Section correlator_more.
Variable w : world.

Lemma proc_entry_owner_skips (istr d_name : string) :
  ¬ inspectable w d_name → proc_entry_owner w istr d_name = None.
Proof.
  unfold inspectable, proc_entry_owner. destruct d_name as [|c s]; [done|].
  rewrite fd_path_fits by apply atoi_range.
  destruct (isdigit c); [|done].
  destruct (opendir w (fd_dir (atoi (String c s)))); [|done].
  intros Hno. destruct Hno. by eauto.
Qed.

(** X3.  [find_pid_for_inode] gives what its scan gives on the entries of
    /proc it can look into, those whose name starts with a digit and whose
    descriptor directory opens: an entry that is not one of them (a name
    like "self" or "net", a process of another user) can be taken out of
    the listing without changing the result. *)
Theorem find_pid_for_inode_skips (inode : Z) (entries : list string) :
  opendir w "/proc" = Some entries →
  find_pid_for_inode w inode
  = scan_proc_dir w (inode_str inode) (filter (inspectable w) entries) ∧
  ∀ extra before after,
    ¬ inspectable w extra → entries = before ++ extra :: after →
    find_pid_for_inode w inode
    = scan_proc_dir w (inode_str inode) (before ++ after).
Proof.
  intros Hdir. unfold find_pid_for_inode. rewrite Hdir.
  assert (∀ l, scan_proc_dir w (inode_str inode) (filter (inspectable w) l)
               = scan_proc_dir w (inode_str inode) l) as Hfilter.
  { induction l as [|d l IH]; [done|]. rewrite filter_cons.
    destruct (decide (inspectable w d)) as [Hd|Hd]; simpl.
    - by rewrite IH.
    - by rewrite (proc_entry_owner_skips _ _ Hd). }
  split; [by rewrite Hfilter|].
  intros extra before after Hextra ->.
  rewrite <- Hfilter, <- (Hfilter (before ++ after)), !filter_app.
  by rewrite (filter_cons_False _ _ _ Hextra).
Qed.

(** X2.  When [find_pid_for_inode] returns a pid other than 0, /proc was
    opened and the pid is [atoi] of an entry of it that is a process holding
    a descriptor whose link is the socket of the queried inode, and the scan
    returned at none of the entries before it. *)
Theorem find_pid_for_inode_sound (inode pid : Z) :
  0 ≤ inode < 2 ^ 64 →
  find_pid_for_inode w inode = pid → pid ≠ 0 →
  ∃ entries before d after,
    opendir w "/proc" = Some entries ∧ entries = before ++ d :: after ∧
    holds_socket w inode d ∧ pid = atoi d ∧
    Forall (λ d', proc_entry_owner w (inode_str inode) d' = None) before.
Proof.
  intros Hi. unfold find_pid_for_inode.
  destruct (opendir w "/proc") as [entries|]; [|by intros <-].
  intros Hscan Hpid. exists entries.
  assert (∃ before d after, entries = before ++ d :: after ∧
            proc_entry_owner w (inode_str inode) d = Some pid ∧
            Forall (λ d', proc_entry_owner w (inode_str inode) d' = None) before)
    as (before & d & after & -> & Hd & Hbefore).
  { clear -Hscan Hpid. induction entries as [|d entries IH]; simpl in Hscan; [congruence|].
    destruct (proc_entry_owner w (inode_str inode) d) as [p|] eqn:Hd.
    - subst p. by exists [], d, entries.
    - destruct (IH Hscan) as (before & d' & after & -> & Hd' & Hb).
      exists (d :: before), d', after. split; [done|]. split; [done|].
      by constructor. }
  exists before, d, after. split; [done|]. split; [done|].
  destruct (proc_entry_owner_spec w inode d Hi) as [Hyes Hno].
  assert (holds_socket w inode d) as Hholds.
  { unfold holds_socket.
    unfold proc_entry_owner in Hd. destruct d as [|c s]; [done|].
    rewrite fd_path_fits in Hd by apply atoi_range.
    destruct (isdigit c) eqn:Hc; [|done].
    destruct (opendir w (fd_dir (atoi (String c s)))) as [fds|] eqn:Hfds; [|done].
    destruct (scan_fd_dir w _ _ fds) eqn:Hscanfd; [|done].
    apply scan_fd_dir_spec in Hscanfd as (fd & Hin & Hlink); [|done].
    split; by eauto. }
  split; [done|]. split; [|done].
  rewrite (Hyes Hholds) in Hd. by injection Hd.
Qed.

Lemma string_app_inj_r (a b t : string) : a +:+ t = b +:+ t → a = b.
Proof.
  revert b. induction a as [|c a IH]; intros [|c' b] Heq; try done.
  - apply (f_equal String.length) in Heq. rewrite !string_length_app in Heq.
    simpl in Heq. lia.
  - apply (f_equal String.length) in Heq. rewrite !string_length_app in Heq.
    simpl in Heq. lia.
  - change (String c (a +:+ t) = String c' (b +:+ t)) in Heq.
    injection Heq as -> Heq. f_equal. by apply IH.
Qed.

(** X4.  The link name ["socket:[%lu]"] looked for tells the inode: two
    inodes with the same name are equal, so a link target that matches for
    one inode matches for no other. *)
Theorem inode_str_inj (i1 i2 : Z) (target : string) :
  0 ≤ i1 < 2 ^ 64 → 0 ≤ i2 < 2 ^ 64 →
  (inode_str i1 = inode_str i2 → i1 = i2) ∧
  ((0 <? String.length (strn 511 target))%nat
     && String.eqb (strn 511 target) (inode_str i1) = true →
   (0 <? String.length (strn 511 target))%nat
     && String.eqb (strn 511 target) (inode_str i2) = true →
   i1 = i2).
Proof.
  intros H1 H2.
  assert (inode_str i1 = inode_str i2 → i1 = i2) as Hinj.
  { destruct (inode_str_fits i1 H1) as [-> _], (inode_str_fits i2 H2) as [-> _].
    unfold socket_link. intros Heq.
    apply (inj (String.app "socket:[")) in Heq.
    apply string_app_inj_r in Heq.
    by apply (inj pretty) in Heq. }
  split; [done|]. intros Hm1 Hm2.
  apply link_target_matches in Hm1; [|done]. apply link_target_matches in Hm2; [|done].
  apply Hinj. destruct (inode_str_fits i1 H1) as [-> _], (inode_str_fits i2 H2) as [-> _].
  congruence.
Qed.

(** X5.  For an entry of /proc named by the decimal form of a pid (as
    procfs names them), [atoi] gives the pid back, so a pid returned at
    this entry is that pid, and it is returned exactly when the directory
    /proc/<pid>/fd opens and has an entry whose link is the socket of the
    queried inode. *)
Theorem proc_entry_canonical_pid (inode pid : Z) (owner : Z) :
  0 ≤ inode < 2 ^ 64 → 0 ≤ pid < 2 ^ 31 →
  atoi (fmt_d pid) = pid ∧
  (proc_entry_owner w (inode_str inode) (fmt_d pid) = Some owner → owner = pid) ∧
  (proc_entry_owner w (inode_str inode) (fmt_d pid) = Some pid
   ↔ ∃ fds fd, opendir w ("/proc/" +:+ fmt_d pid +:+ "/fd") = Some fds ∧ fd ∈ fds ∧
               readlink w (snprintf 512 (("/proc/" +:+ fmt_d pid +:+ "/fd") +:+ "/" +:+ fd))
               = Some ("socket:[" +:+ fmt_d inode +:+ "]")).
Proof.
  intros Hi Hpid. assert (atoi (fmt_d pid) = pid) as Hatoi by (apply atoi_fmt_d; lia).
  destruct (fmt_d_digits pid ltac:(lia)) as (c & ds & Heq & Hc & _).
  destruct (proc_entry_owner_spec w inode (fmt_d pid) Hi) as [Hyes Hno].
  assert (holds_socket w inode (fmt_d pid)
          ↔ ∃ fds fd, opendir w ("/proc/" +:+ fmt_d pid +:+ "/fd") = Some fds ∧ fd ∈ fds ∧
               readlink w (snprintf 512 (("/proc/" +:+ fmt_d pid +:+ "/fd") +:+ "/" +:+ fd))
               = Some ("socket:[" +:+ fmt_d inode +:+ "]")) as Hholds.
  { unfold holds_socket, fd_link, fd_dir, socket_link. rewrite Hatoi. split.
    - by intros [_ H].
    - intros H. split; [|done]. by exists c, ds. }
  split; [done|]. split.
  - unfold proc_entry_owner. rewrite Heq, Hc, <- Heq, Hatoi.
    repeat case_match; congruence.
  - rewrite <- Hholds. split.
    + intros Hown. unfold proc_entry_owner in Hown.
      rewrite Heq, Hc, <- Heq, Hatoi in Hown.
      rewrite fd_path_fits in Hown by lia.
      destruct (opendir w (fd_dir pid)) as [fds|] eqn:Hfds; [|done].
      destruct (scan_fd_dir w _ _ fds) eqn:Hscanfd; [|done].
      apply scan_fd_dir_spec in Hscanfd as (fd & Hin & Hlink); [|done].
      split; [by exists c, ds|]. rewrite Hatoi. by eauto.
    + intros Hh. rewrite (Hyes Hh). by rewrite Hatoi.
Qed.

End correlator_more.

(** ** Address decoder: more of what it does *)

Section decoder_more.

(** X6.  On the address fields of a scanned line the decoder never reads
    its [addr] unset: for an IPv4 table the field is one to eight
    hexadecimal digits, [%X] converts all of it, to a value below 2^32, and
    a buffer of 16 bytes or more receives the dotted quad of that value; for
    an IPv6 table the field has at most 32 digits and a buffer of 33 bytes
    or more receives it whole. *)
Theorem hex_to_ip_scanned (is_ipv6 : bool) (line : string) (r : sock_fields)
    (ip_len : nat) :
  sscanf_sock is_ipv6 line = Some r →
  (is_ipv6 = false → (16 ≤ ip_len)%nat →
     scan_X (local_addr_hex r) = Some (hex_value (local_addr_hex r), "") ∧
     scan_X (remote_addr_hex r) = Some (hex_value (remote_addr_hex r), "") ∧
     hex_to_ip (local_addr_hex r) ip_len false
       = dotted_quad (hex_value (local_addr_hex r)) ∧
     hex_to_ip (remote_addr_hex r) ip_len false
       = dotted_quad (hex_value (remote_addr_hex r)) ∧
     0 ≤ hex_value (local_addr_hex r) < 2 ^ 32 ∧
     0 ≤ hex_value (remote_addr_hex r) < 2 ^ 32) ∧
  (is_ipv6 = true → (33 ≤ ip_len)%nat →
     hex_to_ip (local_addr_hex r) ip_len true = local_addr_hex r ∧
     hex_to_ip (remote_addr_hex r) ip_len true = remote_addr_hex r).
Proof.
  intros Hscan.
  destruct (sscanf_sock_fields _ _ _ Hscan)
    as ((Hl1 & Hl2 & Hl3) & (Hr1 & Hr2 & Hr3) & _).
  assert (∀ hex, hex ≠ "" → (String.length hex ≤ 8)%nat → all_xdigit hex = true →
                 (16 ≤ ip_len)%nat →
                 scan_X hex = Some (hex_value hex, "") ∧
                 hex_to_ip hex ip_len false = dotted_quad (hex_value hex) ∧
                 0 ≤ hex_value hex < 2 ^ 32) as Hv4.
  { intros hex Hne Hlen Hx Hip.
    pose proof (scan_X_xdigits hex Hx Hne Hlen) as Hsx.
    split; [done|]. split.
    - unfold hex_to_ip. rewrite Hsx. apply snprintf_fits.
      pose proof (dotted_quad_length (hex_value hex)). lia.
    - pose proof (hex_value_range hex Hx).
      assert (16 ^ Z.of_nat (String.length hex) ≤ 16 ^ 8)
        by (apply Z.pow_le_mono_r; lia).
      lia. }
  split.
  - intros -> Hip.
    destruct (Hv4 _ Hl1 Hl2 Hl3 Hip) as (? & ? & ?).
    destruct (Hv4 _ Hr1 Hr2 Hr3 Hip) as (? & ? & ?). done.
  - intros -> Hip. unfold hex_to_ip. split; apply snprintf_fits; lia.
Qed.

Lemma all_digit_no_dot (a b r1 r2 : string) :
  all_digit a = true → all_digit b = true →
  a +:+ String "." r1 = b +:+ String "." r2 → a = b ∧ r1 = r2.
Proof.
  revert b. induction a as [|c a IH]; intros [|c' b] Ha Hb Heq.
  - by injection Heq.
  - change (String "." r1 = String c' (b +:+ String "." r2)) in Heq.
    injection Heq as <- _. by vm_compute in Hb.
  - change (String c (a +:+ String "." r1) = String "." r2) in Heq.
    injection Heq as -> _. by vm_compute in Ha.
  - change (String c (a +:+ String "." r1) = String c' (b +:+ String "." r2)) in Heq.
    injection Heq as -> Heq. simpl in Ha, Hb.
    apply andb_prop in Ha as [_ Ha]. apply andb_prop in Hb as [_ Hb].
    destruct (IH b Ha Hb Heq) as [-> ->]. done.
Qed.

Lemma fmt_d_all_digit (n : Z) : 0 ≤ n → all_digit (fmt_d n) = true.
Proof.
  intros Hn. destruct n as [|p|p]; [done| |lia].
  unfold fmt_d, pretty, pretty_Z, pretty, pretty_positive, pretty, pretty_N.
  rewrite decide_False by done.
  destruct (pretty_N_go_digits (N.pos p) "") as (ds & -> & Hall & _).
  by rewrite string_app_empty_r.
Qed.

Lemma octets_determine (a : Z) :
  0 ≤ a < 2 ^ 32 →
  a = Z.land a 255 + 2 ^ 8 * Z.land (Z.shiftr a 8) 255
      + 2 ^ 16 * Z.land (Z.shiftr a 16) 255 + 2 ^ 24 * Z.land (Z.shiftr a 24) 255.
Proof.
  intros Ha. change 255 with (Z.ones 8).
  rewrite !Z.land_ones, !Z.shiftr_div_pow2 by lia.
  change (2 ^ 8) with 256. change (2 ^ 16) with 65536. change (2 ^ 24) with 16777216.
  change (2 ^ 32) with 4294967296 in Ha.
  Z.div_mod_to_equations. lia.
Qed.

(** X7.  The dotted quad tells the address: two 32-bit values printed the
    same are equal. *)
Theorem dotted_quad_inj (a b : Z) :
  0 ≤ a < 2 ^ 32 → 0 ≤ b < 2 ^ 32 → dotted_quad a = dotted_quad b → a = b.
Proof.
  intros Ha Hb Heq. unfold dotted_quad in Heq.
  assert (∀ x, 0 ≤ Z.land x 255) as Hpos.
  { intros x. apply Z.land_nonneg. lia. }
  assert (∀ x y t u, fmt_d (Z.land x 255) +:+ "." +:+ t
                     = fmt_d (Z.land y 255) +:+ "." +:+ u →
                     Z.land x 255 = Z.land y 255 ∧ t = u) as Hstep.
  { intros x y t u Hxy.
    apply all_digit_no_dot in Hxy as [Hxy ->]; try by apply fmt_d_all_digit.
    split; [|done]. by apply (inj pretty) in Hxy. }
  apply Hstep in Heq as [H0 Heq]. apply Hstep in Heq as [H1 Heq].
  apply Hstep in Heq as [H2 Heq]. apply (inj pretty) in Heq.
  rewrite (octets_determine a Ha), (octets_determine b Hb). congruence.
Qed.

End decoder_more.

(** ** Reading a table: the lines *)

Section table_lines.
Variable w : world.

Lemma fgets_go_line (room : nat) (text rest : string) :
  has_newline text = false → (String.length text < room)%nat →
  fgets_go room (text +:+ String newline rest) = (text +:+ String newline "", rest).
Proof.
  revert room. induction text as [|c text IH]; intros [|room] Hnl Hlen;
    simpl in Hlen; try lia.
  - change ("" +:+ String newline rest) with (String newline rest).
    by rewrite fgets_go_cons.
  - change (String c text +:+ String newline rest)
      with (String c (text +:+ String newline rest)).
    simpl in Hnl. apply orb_false_elim in Hnl as [Hc Hnl].
    rewrite fgets_go_cons, Hc, IH by (done || lia). done.
Qed.

Lemma fgets_go_concat (room : nat) (s : string) :
  (fgets_go room s).1 +:+ (fgets_go room s).2 = s ∧
  (String.length (fgets_go room s).1 ≤ room)%nat.
Proof.
  revert s. induction room as [|room IH]; intros [|c s]; try (simpl; split; [done|lia]).
  rewrite fgets_go_cons. destruct (Ascii.eqb c newline); simpl.
  - split; [done|lia].
  - destruct (IH s) as [Heq Hlen]. split; [|lia].
    change (String c ((fgets_go room s).1 +:+ (fgets_go room s).2) = String c s).
    by rewrite Heq.
Qed.

Lemma fgets_all_chunks (size room : nat) (s : string) :
  (2 ≤ size)%nat → (1 ≤ room ≤ size - 1)%nat →
  concat_lines (fgets_all size room s) = s ∧
  match fgets_all size room s with
  | [] => True
  | l :: ls =>
      l ≠ "" ∧ (String.length l ≤ room)%nat ∧
      Forall (λ l', l' ≠ "" ∧ (String.length l' ≤ size - 1)%nat) ls
  end.
Proof.
  intros Hsize. revert room. induction s as [|c s IH]; intros room Hroom; [done|].
  cbn [fgets_all].
  destruct (Ascii.eqb c newline || (room =? 1)%nat) eqn:Hend.
  - destruct (IH (Nat.pred size) ltac:(lia)) as [Hcat Hrest].
    cbn [concat_lines]. rewrite Hcat. split; [done|].
    split; [done|]. split; [simpl; lia|].
    destruct (fgets_all size (Nat.pred size) s) as [|l ls]; [done|].
    destruct Hrest as (Hne & Hlen & Hall). constructor; [|done].
    split; [done|lia].
  - apply orb_false_elim in Hend as [_ Hroom1]. apply Nat.eqb_neq in Hroom1.
    destruct (IH (Nat.pred room) ltac:(lia)) as [Hcat Hrest].
    destruct (fgets_all size (Nat.pred room) s) as [|l ls].
    + simpl in Hcat. subst s. split; [done|]. split; [done|]. split; [simpl; lia|done].
    + destruct Hrest as (Hne & Hlen & Hall). cbn [concat_lines] in *.
      split; [|split; [done|split; [simpl; lia|done]]].
      change (String c (l +:+ concat_lines ls) = String c s). by rewrite Hcat.
Qed.

(** X9.  The strings [fgets] hands to the loop of a parser, one after the
    other, are the bytes of the stream and nothing else: put end to end
    they give the stream back, none is empty and none is longer than the
    buffer size less one (a longer line comes in several pieces). *)
Theorem lines_lossless (size : nat) (s : string) :
  (2 ≤ size)%nat →
  concat_lines (lines size s) = s ∧
  Forall (λ l, l ≠ "" ∧ (String.length l ≤ size - 1)%nat) (lines size s).
Proof.
  intros Hsize. unfold lines.
  destruct (fgets_all_chunks size (Nat.pred size) s Hsize ltac:(lia)) as [Hcat Hall].
  split; [done|].
  destruct (fgets_all size (Nat.pred size) s) as [|l ls]; [done|].
  destruct Hall as (Hne & Hlen & Hall). constructor; [|done]. split; [done|lia].
Qed.

Lemma lines_text (size : nat) (texts : list string) :
  (2 ≤ size)%nat →
  Forall (λ t, has_newline t = false ∧ (String.length t < size - 1)%nat) texts →
  lines size (concat_lines (with_newline <$> texts)) = with_newline <$> texts.
Proof.
  intros Hsize. induction texts as [|t texts IH]; intros Hall; [done|].
  apply Forall_cons in Hall as [[Hnl Hlen] Hall].
  rewrite lines_fgets by done. cbn [fmap list_fmap concat_lines].
  assert (∀ rest, with_newline t +:+ rest = t +:+ String newline rest) as Hassoc.
  { intros rest. unfold with_newline. clear. induction t as [|c t IHt]; [done|].
    change (String c ((t +:+ String newline "") +:+ rest)
            = String c (t +:+ String newline rest)). by rewrite IHt. }
  rewrite Hassoc. unfold fgets.
  destruct size as [|[|room]]; try lia.
  assert (t +:+ String newline (concat_lines (with_newline <$> texts)) ≠ "") as Hne
    by (by destruct t).
  destruct (t +:+ String newline (concat_lines (with_newline <$> texts))) eqn:Heq;
    [done|]. rewrite <- Heq.
  rewrite fgets_go_line by (done || simpl in Hlen; lia).
  fold (with_newline t). f_equal. by apply IH.
Qed.

(** X10.  For a table that is a header line and then lines of fewer than
    511 bytes each, all ended by a newline, the header is skipped whatever
    it holds and the loop of each parser runs on exactly the lines after
    it; the parsers return 0. *)
Theorem source_lines_text (filename header : string) (texts : list string)
    (net : network_info_t) (is_ipv6 : bool) `{!sentinel_h} :
  Forall (λ t, has_newline t = false ∧ (String.length t < 511)%nat) (header :: texts) →
  fopen w filename = Some (concat_lines (with_newline <$> header :: texts)) →
  source_lines w filename = with_newline <$> texts ∧
  parse_tcp_file w filename net is_ipv6
    = (0, tcp_loop w is_ipv6 (with_newline <$> texts) net) ∧
  parse_udp_file w filename net is_ipv6
    = (0, udp_loop w is_ipv6 (with_newline <$> texts) net).
Proof.
  intros Hall Hopen.
  pose proof (lines_text 512 (header :: texts) ltac:(lia) Hall) as Hlines.
  rewrite lines_fgets in Hlines by lia.
  destruct (fgets 512 (concat_lines (with_newline <$> header :: texts)))
    as [[l rest]|] eqn:Hfgets; [|done].
  cbn [fmap list_fmap] in Hlines. injection Hlines as -> Hrest.
  unfold source_lines, parse_tcp_file, parse_udp_file.
  rewrite Hopen, Hfgets. by rewrite Hrest.
Qed.

(** X11.  The two parsers return -1 or 0, and the same on the same table:
    -1 exactly when the table cannot be opened or is empty, and then the
    structure is as it was; a table with its header line only gives 0 and
    also leaves the structure as it was. *)
Theorem parse_file_return (filename : string) (net : network_info_t)
    (is_ipv6 : bool) `{!sentinel_h} :
  let r := parse_tcp_file w filename net is_ipv6 in
  let r' := parse_udp_file w filename net is_ipv6 in
  (r.1 = -1 ∨ r.1 = 0) ∧ r'.1 = r.1 ∧
  (r.1 = -1 ↔ fopen w filename = None ∨ fopen w filename = Some "") ∧
  (r.1 = -1 → r.2 = net ∧ r'.2 = net) ∧
  (∀ header, has_newline header = false → (String.length header < 511)%nat →
             fopen w filename = Some (with_newline header) →
             r = (0, net) ∧ r' = (0, net)).
Proof.
  unfold parse_tcp_file, parse_udp_file. cbv zeta.
  destruct (fopen w filename) as [[|c f]|] eqn:Hopen.
  - simpl. split; [by left|]. split; [done|].
    split; [split; [by right|done]|]. split; [done|].
    intros header _ _ [= Heq]. by destruct header.
  - unfold fgets. destruct (fgets_go 511 (String c f)) as [l rest] eqn:Hgo.
    cbn [fst snd]. split; [by right|]. split; [done|]. split.
    { split; [done|]. by intros [?|?]. }
    split; [done|]. intros header Hnl Hlen [= Heq].
    assert (fgets_go 511 (with_newline header) = (with_newline header, "")) as Hline
      by (by apply fgets_go_line).
    rewrite <- Heq, Hgo in Hline. injection Hline as -> ->. done.
  - simpl. split; [by left|]. split; [done|].
    split; [split; [by left|done]|]. split; [done|]. by intros header _ _ [=].
Qed.

End table_lines.

(** ** Aggregator: more of what it keeps *)

Section aggregator_more.
Context `{!sentinel_h}.
Variable w : world.

Lemma extends_refl net : extends net net.
Proof. unfold extends. repeat split; try done; lia. Qed.

Lemma extends_trans n1 n2 n3 : extends n1 n2 → extends n2 n3 → extends n1 n3.
Proof.
  unfold extends. intros (? & ? & ? & ? & ? & ? & ?) (? & ? & ? & ? & ? & ? & ?).
  repeat split; try lia; by etrans.
Qed.

Lemma take_insert_next {A : Type} (l : list A) (i : nat) (x : A) :
  (i < length l)%nat → take (S i) (<[i := x]> l) = take i l ++ [x].
Proof.
  intros Hi. destruct (lookup_lt_is_Some_2 _ _ Hi) as [y Hy].
  rewrite take_insert_lt by lia. rewrite (take_S_r _ _ y) by done.
  rewrite insert_app_r_alt by (rewrite length_take; lia).
  rewrite length_take, Nat.min_l by lia. by rewrite Nat.sub_diag.
Qed.

Lemma store_listener_extends mk port net :
  well_shaped net → listener_count net < Z.of_nat MAX_LISTENERS →
  well_shaped (store_listener mk port net) ∧ extends net (store_listener mk port net).
Proof.
  intros (Hl & Hll & Hc & Hcl) Hroom. split.
  - unfold well_shaped, store_listener. simpl. rewrite length_insert.
    repeat split; try done; lia.
  - unfold extends, stored_listeners, stored_connections, store_listener. simpl.
    replace (Z.to_nat (listener_count net + 1)) with (S (Z.to_nat (listener_count net)))
      by lia.
    rewrite take_insert_next by lia.
    repeat split; try done; try lia.
    + by apply prefix_app_r.
    + destruct (_ =? _); lia.
    + destruct (_ =? _); lia.
Qed.

Lemma store_connection_extends mk net :
  well_shaped net → connection_count net < Z.of_nat MAX_CONNECTIONS →
  well_shaped (store_connection mk net) ∧ extends net (store_connection mk net).
Proof.
  intros (Hl & Hll & Hc & Hcl) Hroom. split.
  - unfold well_shaped, store_connection. simpl. rewrite length_insert.
    repeat split; try done; lia.
  - unfold extends, stored_listeners, stored_connections, store_connection. simpl.
    replace (Z.to_nat (connection_count net + 1))
      with (S (Z.to_nat (connection_count net))) by lia.
    rewrite take_insert_next by lia.
    repeat split; try done; try lia.
    by apply prefix_app_r.
Qed.

Lemma tcp_record_extends is_ipv6 net line :
  well_shaped net →
  well_shaped (tcp_record w is_ipv6 net line) ∧
  extends net (tcp_record w is_ipv6 net line).
Proof.
  intros Hws. unfold tcp_record.
  destruct (sscanf_sock is_ipv6 line) as [r|]; [|split; [done|apply extends_refl]].
  destruct (state r =? 10); simpl.
  - destruct (Z.ltb_spec (listener_count net) (Z.of_nat MAX_LISTENERS)).
    + by apply store_listener_extends.
    + destruct (state r =? 1); simpl; [|split; [done|apply extends_refl]].
      destruct (Z.ltb_spec (connection_count net) (Z.of_nat MAX_CONNECTIONS)).
      * by apply store_connection_extends.
      * split; [done|apply extends_refl].
  - destruct (state r =? 1); simpl; [|split; [done|apply extends_refl]].
    destruct (Z.ltb_spec (connection_count net) (Z.of_nat MAX_CONNECTIONS)).
    + by apply store_connection_extends.
    + split; [done|apply extends_refl].
Qed.

Lemma tcp_loop_extends is_ipv6 ls net :
  well_shaped net →
  well_shaped (tcp_loop w is_ipv6 ls net) ∧ extends net (tcp_loop w is_ipv6 ls net).
Proof.
  revert net. induction ls as [|line ls IH]; intros net Hws; simpl.
  - split; [done|apply extends_refl].
  - destruct (tcp_record_extends is_ipv6 net line Hws) as [Hws1 Hext1].
    destruct (IH _ Hws1) as [Hws2 Hext2]. split; [done|by eapply extends_trans].
Qed.

Lemma udp_loop_extends is_ipv6 ls net :
  well_shaped net →
  well_shaped (udp_loop w is_ipv6 ls net) ∧ extends net (udp_loop w is_ipv6 ls net) ∧
  stored_connections (udp_loop w is_ipv6 ls net) = stored_connections net.
Proof.
  revert net. induction ls as [|line ls IH]; intros net Hws; simpl.
  - split; [done|]. split; [apply extends_refl|done].
  - destruct (Z.ltb_spec (listener_count net) (Z.of_nat MAX_LISTENERS)) as [Hroom|Hfull];
      [|split; [done|split; [apply extends_refl|done]]].
    assert (well_shaped (udp_record w is_ipv6 net line) ∧
            extends net (udp_record w is_ipv6 net line) ∧
            stored_connections (udp_record w is_ipv6 net line) = stored_connections net)
      as (Hws1 & Hext1 & Hc1).
    { unfold udp_record. destruct (sscanf_sock is_ipv6 line) as [r|];
        [|split; [done|split; [apply extends_refl|done]]].
      destruct (_ || _); [|split; [done|split; [apply extends_refl|done]]].
      destruct (store_listener_extends (udp_listener w is_ipv6 r) (local_port r) net
                  Hws Hroom) as [? ?]. done. }
    destruct (IH _ Hws1) as (Hws2 & Hext2 & Hc2).
    split; [done|]. split; [by eapply extends_trans|]. by rewrite Hc2.
Qed.

(** X12.  On a structure with its arrays at their declared sizes and
    counts that are not negative, each parser only appends: the entries in
    use before are still there, in place, before the new ones; no count goes
    down; the listening and established totals grow by the numbers of new
    entries and the unusual-port count by at most the number of new
    listeners; [parse_udp_file] leaves the connections as they were.  The
    structure keeps its shape. *)
Theorem parsers_append (filename : string) (net : network_info_t) (is_ipv6 : bool) :
  well_shaped net →
  let net1 := (parse_tcp_file w filename net is_ipv6).2 in
  let net2 := (parse_udp_file w filename net is_ipv6).2 in
  (well_shaped net1 ∧ extends net net1) ∧
  (well_shaped net2 ∧ extends net net2 ∧
   stored_connections net2 = stored_connections net).
Proof.
  intros Hws net1 net2. subst net1 net2.
  rewrite parse_tcp_file_loop, parse_udp_file_loop.
  split; [by apply tcp_loop_extends|by apply udp_loop_extends].
Qed.

End aggregator_more.

(** ** What a probe leaves for its callers *)

Section probe_result.
Context `{!sentinel_h}.
Variable w : world.

(** X8.  [tcp_state_name] always returns an entry of its table: "LISTEN"
    exactly for state 10, "ESTABLISHED" exactly for state 1, "UNKNOWN"
    exactly for states outside 1..11 (among them 0 and what an [unsigned]
    state of 2^31 or more becomes as an [int]); the states 1 to 11 have
    different names. *)
Theorem tcp_state_name_table (s : Z) :
  tcp_state_name s ∈ tcp_states ∧
  (tcp_state_name s = "LISTEN" ↔ s = 10) ∧
  (tcp_state_name s = "ESTABLISHED" ↔ s = 1) ∧
  (tcp_state_name s = "UNKNOWN" ↔ s ≤ 0 ∨ 11 < s) ∧
  (∀ s', 1 ≤ s ≤ 11 → 1 ≤ s' ≤ 11 → tcp_state_name s = tcp_state_name s' → s = s') ∧
  (∀ u, 2 ^ 31 ≤ u < 2 ^ 32 → tcp_state_name (to_int u) = "UNKNOWN").
Proof.
  assert (∀ x, x < 0 ∨ 11 < x → tcp_state_name x = "UNKNOWN") as Hout.
  { intros x Hx. unfold tcp_state_name.
    destruct (Z.leb_spec 0 x), (Z.leb_spec x 11); simpl; try done; lia. }
  assert (∀ x, 0 ≤ x ≤ 11 →
              x = 0 ∨ x = 1 ∨ x = 2 ∨ x = 3 ∨ x = 4 ∨ x = 5 ∨ x = 6 ∨ x = 7
              ∨ x = 8 ∨ x = 9 ∨ x = 10 ∨ x = 11) as Hin by (intros; lia).
  split; [|split; [|split; [|split; [|split]]]].
  - destruct (decide (0 ≤ s ≤ 11)) as [Hs|Hs].
    + destruct (Hin s Hs) as [->|[->|[->|[->|[->|[->|[->|[->|[->|[->|[->| ->]]]]]]]]]]];
        unfold tcp_states; vm_compute;
        solve [repeat (first [apply list_elem_of_here | apply list_elem_of_further])].
    + rewrite Hout by lia. apply list_elem_of_here.
  - destruct (decide (0 ≤ s ≤ 11)) as [Hs|Hs].
    + destruct (Hin s Hs) as [->|[->|[->|[->|[->|[->|[->|[->|[->|[->|[->| ->]]]]]]]]]]];
        by vm_compute.
    + rewrite Hout by lia. split; [done|lia].
  - destruct (decide (0 ≤ s ≤ 11)) as [Hs|Hs].
    + destruct (Hin s Hs) as [->|[->|[->|[->|[->|[->|[->|[->|[->|[->|[->| ->]]]]]]]]]]];
        by vm_compute.
    + rewrite Hout by lia. split; [done|lia].
  - destruct (decide (0 ≤ s ≤ 11)) as [Hs|Hs].
    + destruct (Hin s Hs) as [->|[->|[->|[->|[->|[->|[->|[->|[->|[->|[->| ->]]]]]]]]]]];
        (split; [try discriminate; intros _; lia | intros [?|?]; try lia; reflexivity]).
    + rewrite Hout by lia. split; [lia|done].
  - intros s' Hs Hs'.
    destruct (Hin s ltac:(lia)) as [->|[->|[->|[->|[->|[->|[->|[->|[->|[->|[->| ->]]]]]]]]]]];
      try lia;
      destruct (Hin s' ltac:(lia)) as [->|[->|[->|[->|[->|[->|[->|[->|[->|[->|[->| ->]]]]]]]]]]];
      try lia; try done.
  - intros u Hu. apply Hout. unfold to_int.
    replace ((u + 2 ^ 31) `mod` 2 ^ 32) with (u - 2 ^ 31); [lia|].
    apply Z.mod_unique_pos with (q := 1); lia.
Qed.

Lemma snprintf_length (size : nat) (s : string) :
  (1 ≤ size)%nat → (String.length (snprintf size s) < size)%nat.
Proof. intros Hsize. pose proof (strn_length (Nat.pred size) s). unfold snprintf. lia. Qed.

Lemma hex_to_ip_length (hex : string) (ip_len : nat) (is_ipv6 : bool) :
  (1 ≤ ip_len)%nat → (String.length (hex_to_ip hex ip_len is_ipv6) < ip_len)%nat.
Proof. intros Hlen. unfold hex_to_ip. destruct is_ipv6; by apply snprintf_length. Qed.

Lemma owner_name_fits (pid : Z) (name_len : nat) :
  (2 ≤ name_len)%nat →
  (String.length (owner_name w pid "" name_len) < name_len)%nat ∧
  has_newline (owner_name w pid "" name_len) = false.
Proof.
  intros Hlen. unfold owner_name. destruct (0 <? pid).
  - destruct (get_process_name_cases w pid "" name_len Hlen)
      as (_ & _ & _ & Hfit & Hnl).
    split; [apply Hfit; simpl; lia|by apply Hnl].
  - split; [apply snprintf_length; lia|]. by apply strn_no_newline.
Qed.

Lemma listener_entries_Forall (P : net_listener_t → Prop) :
  (∀ b r, P (tcp_listener w b r zero_listener)) →
  (∀ b r, P (udp_listener w b r zero_listener)) →
  ∀ net0, Forall P (stored_listeners (probe_network w net0).2).
Proof.
  intros Htcp Hudp net0.
  destruct (represents_stored _ _ _ _ (probe_network_represents w net0))
    as (-> & _).
  apply Forall_take. unfold listener_entries.
  rewrite !Forall_app, !Forall_fmap.
  repeat split; apply Forall_forall; intros r _; simpl; first [apply Htcp|apply Hudp].
Qed.

Lemma connection_entries_Forall (P : net_connection_t → Prop) :
  (∀ b r, tcp_established r → P (tcp_connection w b r zero_connection)) →
  ∀ net0, Forall P (stored_connections (probe_network w net0).2).
Proof.
  intros Htcp net0.
  destruct (represents_stored _ _ _ _ (probe_network_represents w net0))
    as (_ & -> & _).
  apply Forall_take. unfold connection_entries.
  rewrite !Forall_app, !Forall_fmap.
  split; apply Forall_forall; intros r Hr; simpl;
    apply list_elem_of_filter in Hr as [Hr _]; by apply Htcp.
Qed.

(** X13.  After a probe (with arrays that hold the tags and labels), every
    listener entry in use has one of the protocol tags "tcp", "tcp6",
    "udp", "udp6", and every connection entry in use has the tag "tcp" or
    "tcp6" and the state label "ESTABLISHED". *)
Theorem probe_network_tags (net0 : network_info_t) :
  (5 ≤ sizeof_l_protocol)%nat → (5 ≤ sizeof_c_protocol)%nat →
  (12 ≤ sizeof_c_state)%nat →
  let net := (probe_network w net0).2 in
  Forall (λ l, l_protocol l ∈ ["tcp"; "tcp6"; "udp"; "udp6"]) (stored_listeners net) ∧
  Forall (λ c, c_protocol c ∈ ["tcp"; "tcp6"] ∧ c_state c = "ESTABLISHED")
         (stored_connections net).
Proof.
  intros Hlp Hcp Hcs net. subst net.
  assert (∀ size s, (String.length s < size)%nat → snprintf size s = s) as Hfit
    by (intros; by apply snprintf_fits).
  split.
  - apply listener_entries_Forall; intros [] r; simpl;
      (rewrite Hfit by (simpl; lia));
      solve [repeat (first [apply list_elem_of_here | apply list_elem_of_further])].
  - apply connection_entries_Forall. intros b r Hr. unfold tcp_established in Hr.
    simpl. rewrite Hr. split.
    + destruct b; (rewrite Hfit by (simpl; lia));
        solve [repeat (first [apply list_elem_of_here | apply list_elem_of_further])].
    + apply Hfit. simpl. lia.
Qed.

(** X14.  After a probe every string of every entry in use is shorter than
    the array it is stored in (whatever the tables and the comm files
    hold), and no process name has a newline. *)
Theorem probe_network_strings_fit (net0 : network_info_t) :
  (1 ≤ sizeof_l_protocol)%nat → (1 ≤ sizeof_l_local_addr)%nat →
  (1 ≤ sizeof_l_state)%nat → (2 ≤ sizeof_l_process_name)%nat →
  (1 ≤ sizeof_c_protocol)%nat → (1 ≤ sizeof_c_local_addr)%nat →
  (1 ≤ sizeof_c_remote_addr)%nat → (1 ≤ sizeof_c_state)%nat →
  (2 ≤ sizeof_c_process_name)%nat →
  let net := (probe_network w net0).2 in
  Forall (λ l, (String.length (l_protocol l) < sizeof_l_protocol)%nat ∧
               (String.length (l_local_addr l) < sizeof_l_local_addr)%nat ∧
               (String.length (l_state l) < sizeof_l_state)%nat ∧
               (String.length (l_process_name l) < sizeof_l_process_name)%nat ∧
               has_newline (l_process_name l) = false)
         (stored_listeners net) ∧
  Forall (λ c, (String.length (c_protocol c) < sizeof_c_protocol)%nat ∧
               (String.length (c_local_addr c) < sizeof_c_local_addr)%nat ∧
               (String.length (c_remote_addr c) < sizeof_c_remote_addr)%nat ∧
               (String.length (c_state c) < sizeof_c_state)%nat ∧
               (String.length (c_process_name c) < sizeof_c_process_name)%nat ∧
               has_newline (c_process_name c) = false)
         (stored_connections net).
Proof.
  intros H1 H2 H3 H4 H5 H6 H7 H8 H9 net. subst net.
  split.
  - apply listener_entries_Forall; intros b r; simpl;
      destruct (owner_name_fits (find_pid_for_inode w (inode r)) _ H4) as [Hn1 Hn2];
      repeat split; try done;
      first [by apply snprintf_length | by apply hex_to_ip_length].
  - apply connection_entries_Forall. intros b r _. simpl.
    destruct (owner_name_fits (find_pid_for_inode w (inode r)) _ H9) as [Hn1 Hn2].
    repeat split; try done;
      first [by apply snprintf_length | by apply hex_to_ip_length].
Qed.

(** X15.  After a probe the unusual-port count is between 0 and the
    listening total, the totals equal the counts, the counts are between 0
    and the capacities, the arrays have their declared sizes, and every
    element after the entries in use is all-zero. *)
Theorem probe_network_counters (net0 : network_info_t) :
  let net := (probe_network w net0).2 in
  0 ≤ unusual_port_count net ≤ total_listening net ∧
  total_listening net = listener_count net ∧
  0 ≤ listener_count net ≤ Z.of_nat MAX_LISTENERS ∧
  total_established net = connection_count net ∧
  0 ≤ connection_count net ≤ Z.of_nat MAX_CONNECTIONS ∧
  length (listeners net) = MAX_LISTENERS ∧
  length (connections net) = MAX_CONNECTIONS ∧
  (∀ i, (Z.to_nat (listener_count net) ≤ i < MAX_LISTENERS)%nat →
        listeners net !! i = Some zero_listener) ∧
  (∀ i, (Z.to_nat (connection_count net) ≤ i < MAX_CONNECTIONS)%nat →
        connections net !! i = Some zero_connection).
Proof.
  intros net. pose proof (probe_network_represents w net0) as Hrep.
  destruct (represents_stored _ _ _ _ Hrep) as (_ & _ & Hll & Hcl).
  destruct Hrep as (HL & HLM & HCM & Hl & Hlc & Htl & Hu & Hc & Hcc & Hte).
  fold net in Hll, Hcl, Hl, Hlc, Htl, Hu, Hc, Hcc, Hte.
  rewrite Hu, Htl, Hlc, Hte, Hcc.
  pose proof (length_filter unusual_port (take MAX_LISTENERS (listener_records w))) as Hf.
  repeat split; try done; try lia.
  - intros i Hi. rewrite Hl, Nat2Z.id in *.
    rewrite lookup_app_r by lia. apply lookup_replicate_2. lia.
  - intros i Hi. rewrite Hc, Nat2Z.id in *.
    rewrite lookup_app_r by lia. apply lookup_replicate_2. lia.
Qed.

Lemma listener_lines_take (fuel : nat) (i : Z) (net : network_info_t) :
  0 ≤ i → listener_count net ≤ Z.of_nat (length (listeners net)) →
  listener_lines fuel i net
  = listener_line
      <$> take (Nat.min fuel (Z.to_nat (Z.min (listener_count net) 10 - i)))
               (drop (Z.to_nat i) (listeners net)).
Proof.
  revert i. induction fuel as [|fuel IH]; intros i Hi Hlen; [done|].
  cbn [listener_lines].
  destruct (Z.ltb_spec i (listener_count net)), (Z.ltb_spec i 10); simpl andb; cbv iota;
    try (replace (Z.to_nat (Z.min (listener_count net) 10 - i)) with 0%nat by lia;
         by rewrite Nat.min_0_r).
  rewrite IH by lia.
  replace (Z.to_nat (Z.min (listener_count net) 10 - i))
    with (S (Z.to_nat (Z.min (listener_count net) 10 - (i + 1)))) by lia.
  rewrite <- Nat.succ_min_distr.
  destruct (lookup_lt_is_Some_2 (listeners net) (Z.to_nat i) ltac:(lia)) as [x Hx].
  rewrite (drop_S _ _ _ Hx). cbn [take fmap list_fmap].
  rewrite (list_lookup_total_correct _ _ _ Hx).
  by replace (Z.to_nat (i + 1)) with (S (Z.to_nat i)) by lia.
Qed.

(** X16.  After a probe the listener block of the quick report is empty
    when no listener is stored; otherwise it is the heading, the lines of
    the first ten stored listeners in their order and, when more than ten
    are stored, one line with the number of those not shown.  Ten
    iterations are all the loop makes. *)
Theorem report_listeners_after_probe (net0 : network_info_t) (fuel : nat) :
  let net := (probe_network w net0).2 in
  let stored := take MAX_LISTENERS (listener_entries w) in
  report_listeners net
  = match stored with
    | [] => []
    | _ :: _ =>
        (String newline "" +:+ "  Listeners:" +:+ String newline "")
          :: (listener_line <$> take 10 stored) ++
             (if decide (10 < length stored)%nat
              then ["    ... and " +:+ fmt_d (Z.of_nat (length stored - 10)) +:+ " more"
                      +:+ String newline ""]
              else [])
    end ∧
  listener_lines (10 + fuel) 0 net = listener_lines 10 0 net.
Proof.
  intros net stored.
  pose proof (probe_network_represents w net0) as Hrep.
  destruct (represents_stored _ _ _ _ Hrep) as (Hstored & _ & Hll & _).
  destruct Hrep as (_ & HLM & _ & _ & Hlc & _).
  fold net in Hstored, Hll, Hlc. fold stored in Hstored, HLM, Hlc.
  unfold stored_listeners in Hstored. rewrite Hlc, Nat2Z.id in Hstored.
  assert (∀ f, listener_lines (10 + f) 0 net = listener_line <$> take 10 stored) as Hlines.
  { intros f. rewrite listener_lines_take by (rewrite ?Hlc; lia).
    rewrite Hlc, drop_0. f_equal.
    trans (take 10 (take (length stored) (listeners net))); [|by rewrite Hstored].
    rewrite take_take. f_equal. lia. }
  split; [|by rewrite (Hlines fuel), <- (Hlines 0%nat)].
  unfold report_listeners. rewrite Hlc.
  specialize (Hlines 0%nat). change (10 + 0)%nat with 10%nat in Hlines.
  rewrite Hlines. clear Hstored Hlines. clearbody stored.
  destruct stored as [|l stored']; [done|].
  set (st := l :: stored') in *.
  assert (0 < length st)%nat by (simpl; lia).
  destruct (Z.ltb_spec 0 (Z.of_nat (length st))); [|lia].
  f_equal. f_equal.
  destruct (Z.ltb_spec 10 (Z.of_nat (length st))).
  - rewrite decide_True by lia.
    by replace (Z.of_nat (length st - 10)) with (Z.of_nat (length st) - 10) by lia.
  - by rewrite decide_False by lia.
Qed.

End probe_result.

(** ** Counters and entries agree *)

Section counters_agree.
Context `{!sentinel_h}.
Variable w : world.

Lemma filter_length_Forall2 {A B : Type} (P : A → Prop) (Q : B → Prop)
    `{!∀ x, Decision (P x)} `{!∀ y, Decision (Q y)} (R : A → B → Prop)
    (l : list A) (k : list B) :
  (∀ x y, R x y → (P x ↔ Q y)) → Forall2 R l k →
  length (filter P l) = length (filter Q k).
Proof.
  intros HR Hlk. induction Hlk as [|x y l k Hxy Hlk IH]; [done|].
  rewrite !filter_cons. specialize (HR x y Hxy).
  destruct (decide (P x)), (decide (Q y)); simpl; try tauto; by rewrite IH.
Qed.

(** Each listener entry a probe makes has the port of its record, as the
    port member holds it. *)
Lemma listener_entries_ports :
  Forall2 (λ l r, l_local_port l = to_port (local_port r))
          (listener_entries w) (listener_records w).
Proof.
  unfold listener_entries, listener_records.
  repeat apply Forall2_app; apply Forall2_fmap_l, Forall_Forall2_diag, Forall_forall;
    by intros r _.
Qed.

(** X21.  When converting a port to the type of the port member does not
    change how the classifier sees it (as for [uint16_t] ports), the
    unusual-port count after a probe is the number of listener entries in
    use whose stored port is unusual: counter and entries agree. *)
Theorem unusual_port_count_of_entries (net0 : network_info_t) :
  (∀ v, is_common_port (to_uint16 (to_port v)) = is_common_port (to_uint16 v)) →
  let net := (probe_network w net0).2 in
  unusual_port_count net
  = Z.of_nat (length (filter (λ l, is_common_port (to_uint16 (l_local_port l)) = 0)
                             (stored_listeners net))).
Proof.
  intros Hport net.
  pose proof (probe_network_represents w net0) as Hrep.
  destruct (represents_stored _ _ _ _ Hrep) as (Hstored & _).
  destruct Hrep as (_ & _ & _ & _ & _ & _ & Hu & _).
  fold net in Hstored, Hu. rewrite Hu, Hstored. f_equal. symmetry.
  apply (filter_length_Forall2 _ _ (λ l r, l_local_port l = to_port (local_port r))).
  - intros l r Hlr. unfold unusual_port. by rewrite Hlr, Hport.
  - apply Forall2_take, listener_entries_ports.
Qed.

End counters_agree.

(** ** The options of the command line *)

Section options.
Context `{!exit_codes}.

Lemma setting_option_cases (opt : ascii) :
  setting_option opt →
  opt = "q"%char ∨ opt = "v"%char ∨ opt = "j"%char ∨ opt = "w"%char ∨ opt = "i"%char
  ∨ opt = "n"%char.
Proof.
  unfold setting_option. rewrite !elem_of_cons, elem_of_nil. tauto.
Qed.

Lemma option_loop_settings_go (opts : list (ascii * string)) (s : settings) :
  Forall (λ o, setting_option o.1) opts →
  ∃ s', option_loop opts s = inr s' ∧
        quick_mode s' = (if decide ("q"%char ∈ opts.*1) then 1 else quick_mode s) ∧
        json_mode s' = (if decide ("j"%char ∈ opts.*1) then 1 else json_mode s) ∧
        watch_mode s' = (if decide ("w"%char ∈ opts.*1) then 1 else watch_mode s) ∧
        network_mode s' = (if decide ("n"%char ∈ opts.*1) then 1 else network_mode s) ∧
        interval s' = last_interval opts (interval s).
Proof.
  revert s. induction opts as [|[opt optarg] opts IH]; intros s Hall.
  - exists s. by repeat split.
  - apply Forall_cons in Hall as [Hopt Hall]. simpl in Hopt.
    cbn [option_loop last_interval fmap list_fmap fst].
    destruct (setting_option_cases opt Hopt) as [->|[->|[->|[->|[->| ->]]]]];
      cbn [Ascii.eqb Bool.eqb];
      match goal with
      | |- ∃ s', option_loop opts ?s0 = _ ∧ _ =>
          destruct (IH s0 Hall) as (s' & -> & Hq & Hj & Hw & Hn & Hi)
      end;
      exists s'; (split; [done|]);
      rewrite Hq, Hj, Hw, Hn, Hi; cbn [quick_mode json_mode watch_mode network_mode interval];
      repeat split;
      repeat match goal with
             | |- context [decide (?c ∈ ?d :: ?l)] =>
                 destruct (decide (c ∈ d :: l)) as [Hin|Hin];
                 [apply elem_of_cons in Hin as [Hin|Hin]; [try discriminate Hin|]
                 |apply not_elem_of_cons in Hin as [Hne Hin]]
             | |- context [decide (?c ∈ ?l)] => destruct (decide (c ∈ l))
             end; try done.
Qed.

Lemma interval_option_range (optarg : string) : 1 ≤ interval_option optarg ≤ 86400.
Proof.
  unfold interval_option. destruct (Z.ltb_spec (atoi optarg) 1);
    [destruct (Z.ltb_spec 86400 1)|destruct (Z.ltb_spec 86400 (atoi optarg))]; lia.
Qed.

Lemma last_interval_range (opts : list (ascii * string)) (d : Z) :
  1 ≤ d ≤ 86400 → 1 ≤ last_interval opts d ≤ 86400.
Proof.
  revert d. induction opts as [|[opt optarg] opts IH]; intros d Hd; simpl; [done|].
  apply IH. destruct (Ascii.eqb opt "i"); [apply interval_option_range|done].
Qed.

Lemma last_interval_no_i (opts : list (ascii * string)) (d : Z) :
  "i"%char ∉ opts.*1 → last_interval opts d = d.
Proof.
  revert d. induction opts as [|[opt optarg] opts IH]; intros d Hno; simpl; [done|].
  cbn [fmap list_fmap fst] in Hno. apply not_elem_of_cons in Hno as [Hne Hno].
  rewrite IH by done. destruct (Ascii.eqb_spec opt "i"); congruence.
Qed.

(** X20.  The option loop of [main].  When every option is one of q, v, j,
    w, i, n, the loop ends with settings in which a mode is 1 exactly when
    its option occurs (or it was 1 before), the interval is that of the last
    [-i] (or the one before the loop), always between 1 and 86400 if it was;
    so without [-i] the settings do not depend on the order of the options.
    The first option that is none of these makes [main] return at once:
    EXIT_OK for h, EXIT_ERROR for any other. *)
Theorem option_loop_settings (opts opts' before after : list (ascii * string))
    (opt : ascii) (optarg : string) (s : settings) :
  Forall (λ o, setting_option o.1) opts →
  Forall (λ o, setting_option o.1) before →
  (∃ s', option_loop opts s = inr s' ∧
         quick_mode s' = (if decide ("q"%char ∈ opts.*1) then 1 else quick_mode s) ∧
         json_mode s' = (if decide ("j"%char ∈ opts.*1) then 1 else json_mode s) ∧
         watch_mode s' = (if decide ("w"%char ∈ opts.*1) then 1 else watch_mode s) ∧
         network_mode s' = (if decide ("n"%char ∈ opts.*1) then 1 else network_mode s) ∧
         interval s' = last_interval opts (interval s) ∧
         (1 ≤ interval s ≤ 86400 → 1 ≤ interval s' ≤ 86400)) ∧
  (opts ≡ₚ opts' → "i"%char ∉ opts.*1 → option_loop opts' s = option_loop opts s) ∧
  (¬ setting_option opt →
   option_loop (before ++ (opt, optarg) :: after) s
   = inl (if Ascii.eqb opt "h" then EXIT_OK else EXIT_ERROR)).
Proof.
  intros Hopts Hbefore. split; [|split].
  - destruct (option_loop_settings_go opts s Hopts) as (s' & Hs' & Hq & Hj & Hw & Hn & Hi).
    exists s'. do 6 (split; [done|]). intros Hs. rewrite Hi. by apply last_interval_range.
  - intros Hperm Hnoi.
    assert (Forall (λ o, setting_option o.1) opts') as Hopts' by by rewrite <- Hperm.
    assert (∀ c : ascii, c ∈ opts.*1 ↔ c ∈ opts'.*1) as Hmem.
    { intros c. by rewrite Hperm. }
    destruct (option_loop_settings_go opts s Hopts) as (s1 & -> & Hq1 & Hj1 & Hw1 & Hn1 & Hi1).
    destruct (option_loop_settings_go opts' s Hopts') as (s2 & -> & Hq2 & Hj2 & Hw2 & Hn2 & Hi2).
    rewrite last_interval_no_i in Hi1 by done.
    rewrite last_interval_no_i in Hi2 by (by rewrite <- Hmem).
    f_equal. destruct s1, s2. simpl in *. subst.
    f_equal; repeat case_decide; try done; exfalso;
      match goal with
      | Hin : ?c ∈ opts.*1, Hno : ?c ∉ opts'.*1 |- _ => by apply Hno, Hmem
      | Hin : ?c ∈ opts'.*1, Hno : ?c ∉ opts.*1 |- _ => by apply Hno, Hmem
      end.
  - intros Hopt. revert s. induction Hbefore as [|[o a] before Ho Hbefore IH]; intros s.
    + cbn [app option_loop].
      unfold setting_option in Hopt. rewrite !elem_of_cons, elem_of_nil in Hopt.
      destruct (Ascii.eqb_spec opt "h"); [done|].
      repeat match goal with
             | |- context [Ascii.eqb opt ?c] =>
                 destruct (Ascii.eqb_spec opt c); [tauto|]
             end.
      done.
    + cbn [app option_loop]. simpl in Ho.
      destruct (setting_option_cases o Ho) as [->|[->|[->|[->|[->| ->]]]]];
        cbn [Ascii.eqb Bool.eqb]; apply IH.
Qed.

End options.


(** ** Socket-table reader: what follows the inode *)

Section trailing_fields.

Lemma string_app_cons (c : ascii) (s t : string) :
  String c s +:+ t = String c (s +:+ t).
Proof. done. Qed.

Lemma skip_ws_app (s t : string) :
  skip_ws s ≠ "" → skip_ws (s +:+ t) = skip_ws s +:+ t.
Proof.
  induction s as [|c s IH]; [done|]. rewrite string_app_cons. simpl.
  destruct (isspace c); [apply IH|done].
Qed.

Lemma skip_word_app (s t : string) :
  skip_word s ≠ "" → skip_word (s +:+ t) = skip_word s +:+ t.
Proof.
  induction s as [|c s IH]; [done|]. rewrite string_app_cons. simpl.
  destruct (isspace c); [done|apply IH].
Qed.

Lemma scan_lit_app (c : ascii) (s rest t : string) :
  scan_lit c s = Some rest → scan_lit c (s +:+ t) = Some (rest +:+ t).
Proof.
  destruct s as [|c' s]; [done|]. rewrite string_app_cons. simpl.
  destruct (Ascii.eqb c c'); [|done]. by intros [= <-].
Qed.

Lemma span_app (p : ascii → bool) (width : nat) (s l rest t : string) :
  span p width s = (l, rest) → rest ≠ "" → span p width (s +:+ t) = (l, rest +:+ t).
Proof.
  revert s l. induction width as [|width IH]; intros s l.
  - simpl. by intros [= <- <-].
  - destruct s as [|c s]; [simpl; by intros [= <- <-]|].
    rewrite string_app_cons. simpl.
    destruct (p c); [|by intros [= <- <-]].
    destruct (span p width s) as [l' rest'] eqn:Hspan. intros [= <- <-] Hne.
    by rewrite (IH _ _ Hspan Hne).
Qed.

Lemma scan_set_app (width : nat) (p : ascii → bool) (s l rest t : string) :
  scan_set width p s = Some (l, rest) → rest ≠ "" →
  scan_set width p (s +:+ t) = Some (l, rest +:+ t).
Proof.
  unfold scan_set. destruct (span p width s) as [l' rest'] eqn:Hspan.
  intros Hscan Hne.
  assert (l' = l ∧ rest' = rest ∧ l ≠ "") as (-> & -> & Hl).
  { destruct l'; [done|]. by injection Hscan as <- <-. }
  rewrite (span_app _ _ _ _ _ _ Hspan Hne). by destruct l.
Qed.

Lemma digits_app (base acc : Z) (s rest t : string) (v : Z) :
  digits base acc s = (v, rest) → rest ≠ "" →
  digits base acc (s +:+ t) = (v, rest +:+ t).
Proof.
  revert acc. induction s as [|c s IH]; intros acc.
  - simpl. by intros [= <- <-].
  - rewrite string_app_cons. simpl.
    destruct (digit_val base c); [apply IH|]. by intros [= <- <-].
Qed.

Lemma digits_app_end (base acc : Z) (s : string) (c : ascii) (t : string) (v : Z) :
  digits base acc s = (v, "") → digit_val base c = None →
  digits base acc (s +:+ String c t) = (v, String c t).
Proof.
  intros Hs Hc. revert acc Hs. induction s as [|c' s IH]; intros acc.
  - simpl. intros [= <-]. by rewrite Hc.
  - rewrite string_app_cons. simpl. destruct (digit_val base c'); [apply IH|done].
Qed.

Lemma scan_sign_app (s t : string) :
  s ≠ "" →
  scan_sign (s +:+ t) = ((scan_sign s).1, (scan_sign s).2 +:+ t).
Proof.
  destruct s as [|c s]; [done|]. intros _. rewrite string_app_cons.
  unfold scan_sign. destruct c as [[] [] [] [] [] [] [] []]; done.
Qed.

(** The branch an integer conversion takes on its input after white space
    and sign. *)
Lemma scan_int_body (base : Z) (s : string) :
  scan_int base s
  = let '(neg, s1) := scan_sign (skip_ws s) in
    match s1 with
    | "" => None
    | String c s1' =>
        if Ascii.eqb c "0" then
          match s1' with
          | String x s2 =>
              if (base =? 16) && (Ascii.eqb x "x" || Ascii.eqb x "X")
              then Some (neg, (digits base 0 s2).1, (digits base 0 s2).2)
              else Some (neg, (digits base 0 s1).1, (digits base 0 s1).2)
          | "" =>
              match digit_val base c with
              | Some _ => Some (neg, (digits base 0 s1).1, (digits base 0 s1).2)
              | None => None
              end
          end
        else
          match digit_val base c with
          | Some _ => Some (neg, (digits base 0 s1).1, (digits base 0 s1).2)
          | None => None
          end
    end.
Proof.
  unfold scan_int. destruct (scan_sign (skip_ws s)) as [neg s1].
  destruct s1 as [|c s1']; [done|].
  destruct (Ascii.eqb_spec c "0") as [->|Hc].
  - destruct s1' as [|x s2].
    + cbn. done.
    + destruct (_ && _); by destruct (digits _ _ _).
  - destruct (digits base 0 (String c s1')) as [v r] eqn:Hd.
    destruct c as [[] [] [] [] [] [] [] []]; try done.
Qed.

Lemma digit_val_0 (base : Z) : digit_val base "0" = Some 0.
Proof. done. Qed.

Lemma scan_int_nonempty (base : Z) (s : string) : scan_int base s ≠ None → skip_ws s ≠ "".
Proof. rewrite scan_int_body. by destruct (skip_ws s). Qed.

Lemma scan_int_app (base : Z) (s rest t : string) (neg : bool) (v : Z) :
  scan_int base s = Some (neg, v, rest) → rest ≠ "" →
  scan_int base (s +:+ t) = Some (neg, v, rest +:+ t).
Proof.
  intros Hscan Hne.
  assert (skip_ws s ≠ "") as Hws by (apply (scan_int_nonempty base); congruence).
  rewrite scan_int_body in Hscan. rewrite scan_int_body, skip_ws_app, scan_sign_app by done.
  destruct (scan_sign (skip_ws s)) as [neg' s1]. cbn [fst snd].
  destruct s1 as [|c s1']; [done|]. rewrite string_app_cons.
  destruct (Ascii.eqb_spec c "0") as [->|Hc].
  - destruct s1' as [|x s2].
    + rewrite digit_val_0 in Hscan. simpl in Hscan. by injection Hscan as <- <- <-.
    + rewrite string_app_cons. destruct (_ && _).
      * destruct (digits base 0 s2) as [v' r'] eqn:Hd. injection Hscan as <- <- <-.
        by rewrite (digits_app _ _ _ _ _ _ Hd Hne).
      * destruct (digits base 0 (String "0" (String x s2))) as [v' r'] eqn:Hd.
        injection Hscan as <- <- <-. rewrite <- !string_app_cons.
        by rewrite (digits_app _ _ _ _ _ _ Hd Hne).
  - destruct (digit_val base c); [|done].
    destruct (digits base 0 (String c s1')) as [v' r'] eqn:Hd.
    injection Hscan as <- <- <-. rewrite <- string_app_cons.
    by rewrite (digits_app _ _ _ _ _ _ Hd Hne).
Qed.

Lemma scan_int_10_app_end (s : string) (c : ascii) (t : string) (neg : bool) (v : Z) :
  scan_int 10 s = Some (neg, v, "") → digit_val 10 c = None →
  scan_int 10 (s +:+ String c t) = Some (neg, v, String c t).
Proof.
  intros Hscan Hc.
  assert (skip_ws s ≠ "") as Hws by (apply (scan_int_nonempty 10); congruence).
  rewrite scan_int_body in Hscan. rewrite scan_int_body, skip_ws_app, scan_sign_app by done.
  destruct (scan_sign (skip_ws s)) as [neg' s1]. cbn [fst snd].
  destruct s1 as [|c0 s1']; [done|]. rewrite string_app_cons.
  change (10 =? 16) with false in *. cbn [andb] in *.
  assert (digit_val 10 c0 ≠ None ∧ neg' = neg ∧ digits 10 0 (String c0 s1') = (v, ""))
    as (Hc0 & -> & Hd).
  { destruct (Ascii.eqb_spec c0 "0") as [->|?].
    - rewrite digit_val_0. split; [done|].
      destruct s1'; destruct (digits 10 0 _) as [v' r'];
        injection Hscan as <- <- <-; done.
    - destruct (digit_val 10 c0); [|done]. split; [done|].
      destruct (digits 10 0 _) as [v' r']. injection Hscan as <- <- <-; done. }
  clear Hscan.
  pose proof (digits_app_end 10 0 _ c t v Hd Hc) as Hd'. rewrite string_app_cons in Hd'.
  destruct (Ascii.eqb_spec c0 "0") as [->|?].
  - destruct s1' as [|x s2].
    + change ("" +:+ String c t) with (String c t) in *. by rewrite Hd'.
    + rewrite string_app_cons in *. by rewrite Hd'.
  - destruct (digit_val 10 c0); [|done]. by rewrite Hd'.
Qed.

Lemma scan_s_app (s rest t : string) :
  scan_s s = Some rest → rest ≠ "" → scan_s (s +:+ t) = Some (rest +:+ t).
Proof.
  unfold scan_s. intros Hscan Hne.
  assert (skip_ws s ≠ "") as Hws by (by destruct (skip_ws s)).
  rewrite skip_ws_app by done. destruct (skip_ws s) as [|c s']; [done|].
  injection Hscan as <-. rewrite string_app_cons. by rewrite skip_word_app.
Qed.

Lemma scan_skip_d_app (s rest t : string) :
  scan_skip_d s = Some rest → rest ≠ "" → scan_skip_d (s +:+ t) = Some (rest +:+ t).
Proof.
  unfold scan_skip_d. destruct (scan_int 10 s) as [[[neg v] r]|] eqn:Hs; [|done].
  simpl. intros [= <-] Hne. by rewrite (scan_int_app _ _ _ _ _ _ Hs Hne).
Qed.

Lemma scan_X_app (s rest t : string) (v : Z) :
  scan_X s = Some (v, rest) → rest ≠ "" → scan_X (s +:+ t) = Some (v, rest +:+ t).
Proof.
  unfold scan_X. destruct (scan_int 16 s) as [[[neg v'] r]|] eqn:Hs; [|done].
  simpl. intros [= <- <-] Hne. by rewrite (scan_int_app _ _ _ _ _ _ Hs Hne).
Qed.

Lemma scan_lu_app (s rest t : string) (v : Z) :
  scan_lu s = Some (v, rest) →
  (t = "" ∨ rest ≠ "" ∨ ∃ c t', t = String c t' ∧ isdigit c = false) →
  ∃ rest', scan_lu (s +:+ t) = Some (v, rest').
Proof.
  unfold scan_lu. destruct (scan_int 10 s) as [[[neg v'] r]|] eqn:Hs; [|done].
  simpl. intros [= <- <-] [->|[Hne|(c & t' & -> & Hc)]].
  - rewrite string_app_empty_r, Hs. by eexists.
  - rewrite (scan_int_app _ _ _ _ _ _ Hs Hne). by eexists.
  - destruct r as [|c0 rest0].
    + rewrite (scan_int_10_app_end _ c t' _ _ Hs); [by eexists|].
      unfold digit_val, isdigit in *. cbn zeta in *. rewrite Hc. done.
    + rewrite (scan_int_app _ _ _ _ _ _ Hs); [by eexists|done].
Qed.

(** A directive that succeeds has input before it. *)
Lemma scan_lit_input (c : ascii) (s r : string) : scan_lit c s = Some r → s ≠ "".
Proof. by destruct s. Qed.

Lemma scan_set_input (width : nat) (p : ascii → bool) (s : string) (x : string * string) :
  scan_set width p s = Some x → s ≠ "".
Proof. destruct s; [|done]. unfold scan_set. by destruct width. Qed.

Lemma scan_s_input (s r : string) : scan_s s = Some r → s ≠ "".
Proof. by destruct s. Qed.

Lemma scan_X_input (s : string) (x : Z * string) : scan_X s = Some x → s ≠ "".
Proof. by destruct s. Qed.

Lemma scan_skip_d_input (s r : string) : scan_skip_d s = Some r → s ≠ "".
Proof. by destruct s. Qed.

Lemma scan_lu_input (s : string) (x : Z * string) : scan_lu s = Some x → s ≠ "".
Proof. by destruct s. Qed.

Lemma skip_ws_input (s : string) : skip_ws s ≠ "" → s ≠ "".
Proof. by destruct s. Qed.

Ltac scan_inputs :=
  repeat match goal with
         | H : scan_lit _ _ = Some _ |- _ => apply scan_lit_input in H as ?; revert H
         | H : scan_set _ _ _ = Some _ |- _ => apply scan_set_input in H as ?; revert H
         | H : scan_s _ = Some _ |- _ => apply scan_s_input in H as ?; revert H
         | H : scan_X _ = Some _ |- _ => apply scan_X_input in H as ?; revert H
         | H : scan_skip_d _ = Some _ |- _ => apply scan_skip_d_input in H as ?; revert H
         | H : scan_lu _ = Some _ |- _ => apply scan_lu_input in H as ?; revert H
         end;
  intros;
  repeat match goal with
         | H : skip_ws ?s ≠ "" |- _ =>
             lazymatch goal with
             | _ : s ≠ "" |- _ => fail
             | _ => pose proof (skip_ws_input _ H)
             end
         end.

Ltac scan_step :=
  rewrite ?skip_ws_app by assumption;
  first [ erewrite scan_skip_d_app; [|eassumption|assumption]
        | erewrite scan_lit_app; [|eassumption]
        | erewrite scan_set_app; [|eassumption|assumption]
        | erewrite scan_X_app; [|eassumption|assumption]
        | erewrite scan_s_app; [|eassumption|assumption] ];
  cbn [mbind option_bind].

(** X22. What follows the inode on a socket line is not read: text appended
    to a line that scans, and that does not start with a decimal digit (which
    would continue the inode), leaves the six fields unchanged.  The kernel's
    lines carry further columns after the inode. *)
Theorem sscanf_sock_ignores_rest (is_ipv6 : bool) (line tail : string) (r : sock_fields) :
  sscanf_sock is_ipv6 line = Some r →
  (∀ c t, tail = String c t → isdigit c = false) →
  sscanf_sock is_ipv6 (line +:+ tail) = Some r.
Proof.
  intros Hscan Htail. destruct tail as [|c t]; [by rewrite string_app_empty_r|].
  specialize (Htail c t eq_refl).
  unfold sscanf_sock in *.
  repeat match type of Hscan with
         | (mbind _ ?m) = Some _ =>
             let E := fresh "E" in
             destruct m as [[??]|] eqn:E; simpl in Hscan; [|done]
         | (mbind _ ?m) = Some _ =>
             let E := fresh "E" in
             destruct m as [?|] eqn:E; simpl in Hscan; [|done]
         end.
  scan_inputs.
  do 14 scan_step.
  rewrite ?skip_ws_app by assumption.
  match goal with
  | H : scan_lu _ = Some _ |- _ =>
      destruct (scan_lu_app _ _ (String c t) _ H) as [rest' ->];
        [right; right; by exists c, t|]
  end.
  exact Hscan.
Qed.

End trailing_fields.

(** ** A small system, probed *)

(** A header with room for two listeners and two connections, so that
    truncation shows on short tables, and [uint16_t] ports. *)
Definition example_h : sentinel_h :=
  {| MAX_LISTENERS := 2; MAX_CONNECTIONS := 2;
     sizeof_l_protocol := 8; sizeof_l_local_addr := 64;
     sizeof_l_state := 16; sizeof_l_process_name := 32;
     sizeof_c_protocol := 8; sizeof_c_local_addr := 64;
     sizeof_c_remote_addr := 64; sizeof_c_state := 16;
     sizeof_c_process_name := 32;
     to_port := to_uint16 |}.

Definition nl : string := String newline "".

Definition header_line : string :=
  "  sl  local_address rem_address   st tx_queue rx_queue tr tm->when retrnsmt   uid  timeout inode" +:+ nl.

(** 127.0.0.1:9999, LISTEN, inode 4242 (no process holds it). *)
Definition tcp4_listen_9999 : string :=
  "   1: 0100007F:270F 00000000:0000 0A 00000000:00000000 00:00000000 00000000     0        0 4242 1 0000000000000000 100 0 0 10 0" +:+ nl.

(** 0.0.0.0:22, LISTEN, inode 900. *)
Definition tcp4_listen_22 : string :=
  "   2: 00000000:0016 00000000:0000 0A 00000000:00000000 00:00000000 00000000     0        0 900 1 0000000000000000 100 0 0 10 0" +:+ nl.

(** 127.0.0.1:40000 to 127.0.0.2:80, ESTABLISHED, inode 777. *)
Definition tcp4_established : string :=
  "   3: 0100007F:9C40 0200007F:0050 01 00000000:00000000 00:00000000 00000000  1000        0 777 1 0000000000000000 20 4 30 10 -1" +:+ nl.

(** The same line cut after its state: five fields. *)
Definition tcp4_cut_line : string := "   4: 0100007F:9C40 0200007F:0050 01".

(** 0.0.0.0:5353, a connected UDP socket (state 1), inode 888. *)
Definition udp4_connected : string :=
  "  10: 00000000:14E9 0100007F:0035 01 00000000:00000000 00:00000000 00000000   101        0 888 2 0000000000000000 0" +:+ nl.

Definition example_files : gmap string string :=
  list_to_map
    [ ("/proc/net/tcp",
       header_line +:+ tcp4_listen_line +:+ tcp4_cut_line +:+ nl +:+
       tcp4_established +:+ tcp4_listen_9999 +:+ tcp4_listen_22);
      ("/proc/net/udp", header_line +:+ udp4_connected);
      ("/proc/500/comm", "envoy" +:+ nl) ].

Definition example_dirs : gmap string (list string) :=
  list_to_map
    [ ("/proc", ["."; ".."; "1"; "500"; "self"]);
      ("/proc/1/fd", ["."; ".."; "0"]);
      ("/proc/500/fd", ["."; ".."; "0"; "3"; "4"]) ].

Definition example_links : gmap string string :=
  list_to_map
    [ ("/proc/1/fd/0", "/dev/null");
      ("/proc/500/fd/0", "/dev/null");
      ("/proc/500/fd/3", "socket:[777]");
      ("/proc/500/fd/4", "socket:[12345]") ].

(** The tables tcp6 and udp6 are missing. *)
Definition example_world : world :=
  {| fopen := λ path, example_files !! path;
     opendir := λ path, example_dirs !! path;
     readlink := λ path, example_links !! path |}.

Definition listen_8443 : sock_fields :=
  {| local_addr_hex := "0100007F"; local_port := 8443;
     remote_addr_hex := "00000000"; remote_port := 0;
     state := 10; inode := 12345 |}.

Definition listen_22 : sock_fields :=
  {| local_addr_hex := "00000000"; local_port := 22;
     remote_addr_hex := "00000000"; remote_port := 0;
     state := 10; inode := 900 |}.

Definition connected_5353 : sock_fields :=
  {| local_addr_hex := "00000000"; local_port := 5353;
     remote_addr_hex := "0100007F"; remote_port := 53;
     state := 1; inode := 888 |}.

Section examples.
#[local] Existing Instance example_h.

(** Scenario A of the specification, with the truncation of scenario C:
    the listener on 8443 is owned by process 500, the one on 9999 by
    nobody; the third listener and the UDP socket find the array full. *)
Example probe_example :
  probe_network example_world network_info_zero
  = (0, {| listeners :=
             [ {| l_protocol := "tcp"; l_local_addr := "127.0.0.1";
                  l_local_port := 8443; l_state := "LISTEN";
                  l_pid := 500; l_process_name := "envoy" |};
               {| l_protocol := "tcp"; l_local_addr := "127.0.0.1";
                  l_local_port := 9999; l_state := "LISTEN";
                  l_pid := 0; l_process_name := "[kernel]" |} ];
           listener_count := 2;
           connections :=
             [ {| c_protocol := "tcp"; c_local_addr := "127.0.0.1";
                  c_local_port := 40000; c_remote_addr := "127.0.0.2";
                  c_remote_port := 80; c_state := "ESTABLISHED";
                  c_pid := 500; c_process_name := "envoy" |};
               zero_connection ];
           connection_count := 1;
           total_listening := 2;
           total_established := 1;
           unusual_port_count := 1 |}).
Proof. vm_compute. reflexivity. Qed.

(** The structure once the loop of [parse_tcp_file] has stored the two
    listeners the array has room for. *)
Definition full_net : network_info_t :=
  tcp_loop example_world false [tcp4_listen_line; tcp4_listen_9999] network_info_zero.

(** C2 as stated fails: the line of the listener on port 22 scans, its
    state is 10, and with the listener array full the loop body stores
    nothing for it. *)
Lemma tcp_listen_dropped_when_full :
  sscanf_sock false tcp4_listen_22 = Some listen_22 ∧
  state listen_22 = 10 ∧
  tcp_record example_world false full_net tcp4_listen_22 = full_net ∧
  ¬ (listener_count (tcp_record example_world false full_net tcp4_listen_22)
       = listener_count full_net + 1
     ↔ state listen_22 = 10).
Proof.
  split; [by vm_compute|]. split; [done|]. split; [by vm_compute|].
  intros [_ Hstored]. specialize (Hstored eq_refl). vm_compute in Hstored.
  discriminate Hstored.
Qed.

Lemma tcp_record_classifies_witness :
  sscanf_sock false tcp4_listen_22 = Some listen_22 ∧
  tcp_record example_world false network_info_zero tcp4_listen_22
  = store_listener (tcp_listener example_world false listen_22) 22 network_info_zero.
Proof.
  assert (sscanf_sock false tcp4_listen_22 = Some listen_22) as Hscan
    by (vm_compute; reflexivity).
  split; [exact Hscan|].
  destruct (tcp_record_classifies example_world false network_info_zero
              tcp4_listen_22 listen_22 Hscan) as (_ & Hstore & _).
  apply Hstore. split; [reflexivity | vm_compute; reflexivity].
Defined.

(** C3 as stated fails in the same way: the line of the UDP socket on
    port 5353 scans and its local port is not zero, and with the listener
    array full [parse_udp_file] stores nothing for it. *)
Lemma udp_dropped_when_full :
  fopen example_world "/proc/net/udp" = Some (header_line +:+ udp4_connected) ∧
  sscanf_sock false udp4_connected = Some connected_5353 ∧
  local_port connected_5353 ≠ 0 ∧
  parse_udp_file example_world "/proc/net/udp" full_net false = (0, full_net) ∧
  udp_loop example_world false [udp4_connected] full_net = full_net ∧
  ¬ (listener_count (udp_loop example_world false [udp4_connected] full_net)
       = listener_count full_net + 1
     ↔ state connected_5353 = 7 ∨ local_port connected_5353 ≠ 0).
Proof.
  split; [by vm_compute|]. split; [by vm_compute|]. split; [done|].
  split; [by vm_compute|]. split; [by vm_compute|].
  intros [_ Hstored].
  assert (state connected_5353 = 7 ∨ local_port connected_5353 ≠ 0) as Hbound
    by (by right).
  specialize (Hstored Hbound). vm_compute in Hstored. discriminate Hstored.
Qed.

Lemma udp_line_classifies_witness :
  sscanf_sock false udp4_connected = Some connected_5353 ∧
  udp_loop example_world false [udp4_connected] network_info_zero
  = store_listener (udp_listener example_world false connected_5353) 5353
      network_info_zero ∧
  parse_udp_file example_world "/proc/net/udp" network_info_zero false
  = (0, store_listener (udp_listener example_world false connected_5353) 5353
          network_info_zero).
Proof.
  assert (sscanf_sock false udp4_connected = Some connected_5353) as Hscan
    by (vm_compute; reflexivity).
  split; [exact Hscan|].
  destruct (udp_line_classifies example_world false network_info_zero
              udp4_connected connected_5353 Hscan)
    as (_ & Hstore & _ & _ & Hparse & _).
  assert (udp_loop example_world false [udp4_connected] network_info_zero
          = store_listener (udp_listener example_world false connected_5353) 5353
              network_info_zero) as Hline.
  { apply Hstore. split; [right; discriminate | vm_compute; reflexivity]. }
  split; [exact Hline|].
  rewrite <- Hline.
  apply (Hparse "/proc/net/udp" (header_line +:+ udp4_connected) header_line
           udp4_connected [] [] network_info_zero);
    [vm_compute; reflexivity | vm_compute; reflexivity | vm_compute; reflexivity
    | reflexivity].
Defined.

Lemma is_common_port_classifies_witness :
  sscanf_sock false tcp4_listen_9999
  = Some {| local_addr_hex := "0100007F"; local_port := 9999;
            remote_addr_hex := "00000000"; remote_port := 0;
            state := 10; inode := 4242 |} ∧
  (is_common_port 9999 = 0 ↔ ¬ (9999 ∈ well_known_ports ∨ 32768 ≤ 9999)) ∧
  unusual_port_count
    (tcp_record example_world false network_info_zero tcp4_listen_9999) = 1.
Proof.
  assert (sscanf_sock false tcp4_listen_9999
          = Some {| local_addr_hex := "0100007F"; local_port := 9999;
                    remote_addr_hex := "00000000"; remote_port := 0;
                    state := 10; inode := 4242 |}) as Hscan
    by (vm_compute; reflexivity).
  split; [exact Hscan|].
  destruct (is_common_port_classifies example_world 9999 false network_info_zero
              tcp4_listen_9999 _ Hscan) as (_ & Hunusual & _ & _ & _ & Hcount).
  split; [exact Hunusual|].
  apply (Hcount _ (or_introl eq_refl)). vm_compute. reflexivity.
Defined.

Lemma hex_to_ip_decodes_witness :
  (16 ≤ 64)%nat ∧
  hex_to_ip "0200A8C0" 64 false
  = fmt_d (Z.land (hex_value "0200A8C0") 255) +:+ "." +:+
    fmt_d (Z.land (Z.shiftr (hex_value "0200A8C0") 8) 255) +:+ "." +:+
    fmt_d (Z.land (Z.shiftr (hex_value "0200A8C0") 16) 255) +:+ "." +:+
    fmt_d (Z.land (Z.shiftr (hex_value "0200A8C0") 24) 255) ∧
  hex_to_ip "0200A8C0" 64 true = "0200A8C0".
Proof.
  assert (16 ≤ 64)%nat as Hlen by lia.
  split; [exact Hlen|].
  destruct (hex_to_ip_decodes "0200A8C0" 64 Hlen) as (H4 & _ & H6).
  split.
  - apply (H4 eq_refl eq_refl).
  - apply H6. simpl. lia.
Defined.

Lemma find_pid_for_inode_first_owner_witness :
  0 ≤ 12345 < 2 ^ 64 ∧
  holds_socket example_world 12345 "500" ∧
  find_pid_for_inode example_world 12345 = atoi "500".
Proof.
  assert (0 ≤ 12345 < 2 ^ 64) as Hrange by lia.
  assert (holds_socket example_world 12345 "500") as Hholds.
  { split; [by exists "5"%char, "00"|].
    exists ["."; ".."; "0"; "3"; "4"], "4". split; [by vm_compute|].
    split; [|by vm_compute]. do 4 right. left. }
  split; [exact Hrange|]. split; [exact Hholds|].
  destruct (find_pid_for_inode_first_owner example_world 12345 Hrange)
    as (_ & Hfirst & _).
  apply (Hfirst ["."; ".."; "1"] "500" ["self"]); [reflexivity|exact Hholds|].
  intros d Hd [(c & s & -> & Hc) (fds & fd & Hdir & Hin & Hlink)].
  apply elem_of_cons in Hd as [Hd|Hd]; [injection Hd as -> ->; discriminate Hc|].
  apply elem_of_cons in Hd as [Hd|Hd]; [injection Hd as -> ->; discriminate Hc|].
  apply elem_of_cons in Hd as [Hd|Hd]; [|by apply elem_of_nil in Hd].
  injection Hd as -> ->.
  vm_compute in Hdir. injection Hdir as <-.
  apply elem_of_cons in Hin as [->|Hin]; [vm_compute in Hlink; discriminate Hlink|].
  apply elem_of_cons in Hin as [->|Hin]; [vm_compute in Hlink; discriminate Hlink|].
  apply elem_of_cons in Hin as [->|Hin]; [vm_compute in Hlink; discriminate Hlink|].
  by apply elem_of_nil in Hin.
Defined.

Lemma probe_network_reads_every_source_witness :
  fopen example_world "/proc/net/tcp6" = None ∧
  parse_tcp_file example_world "/proc/net/tcp6" full_net true = (-1, full_net) ∧
  (parse_udp_file example_world "/proc/net/udp" network_info_zero false).2
  = udp_loop example_world false (source_lines example_world "/proc/net/udp")
      network_info_zero.
Proof.
  assert (fopen example_world "/proc/net/tcp6" = None) as Hopen by reflexivity.
  split; [exact Hopen|].
  destruct (probe_network_reads_every_source example_world network_info_zero)
    as (_ & Hfail & Hloop).
  split.
  - apply (Hfail "/proc/net/tcp6" full_net true Hopen).
  - apply (Hloop "/proc/net/udp" network_info_zero false).
Defined.

Lemma malformed_record_skipped_witness :
  sscanf_sock false tcp4_cut_line = None ∧
  tcp_loop example_world false
    ([tcp4_listen_line] ++ tcp4_cut_line :: [tcp4_established]) network_info_zero
  = tcp_loop example_world false
      ([tcp4_listen_line] ++ [tcp4_established]) network_info_zero.
Proof.
  assert (sscanf_sock false tcp4_cut_line = None) as Hbad by (vm_compute; reflexivity).
  split; [exact Hbad|].
  apply (malformed_record_skipped example_world false tcp4_cut_line
           network_info_zero [tcp4_listen_line] [tcp4_established] Hbad).
Defined.

(** A dead system: no file can be opened. *)
Definition dead_world : world :=
  {| fopen := λ _, None; opendir := λ _, None; readlink := λ _, None |}.

Lemma probe_network_idempotent_witness :
  probe_network dead_world full_net = (0, network_info_zero) ∧
  probe_network example_world (probe_network example_world full_net).2
  = probe_network example_world full_net.
Proof.
  destruct (probe_network_idempotent dead_world full_net full_net)
    as (_ & _ & _ & Hzero).
  destruct (probe_network_idempotent example_world full_net full_net)
    as (_ & Hagain & _).
  split; [apply Hzero; reflexivity | exact Hagain].
Defined.

Lemma udp_listener_state_label_witness :
  (7 ≤ sizeof_l_state)%nat ∧
  sscanf_sock false udp4_connected = Some connected_5353 ∧
  state connected_5353 = 1 ∧
  ∃ l, stored_listeners (udp_record example_world false network_info_zero udp4_connected)
         = stored_listeners network_info_zero ++ [l] ∧
       l_state l = "LISTEN" ∧ l_local_port l = to_port 5353.
Proof.
  assert (7 ≤ sizeof_l_state)%nat as Hsize by (simpl; lia).
  assert (sscanf_sock false udp4_connected = Some connected_5353) as Hscan
    by (vm_compute; reflexivity).
  split; [exact Hsize|]. split; [exact Hscan|]. split; [reflexivity|].
  destruct (udp_listener_state_label example_world false network_info_zero
              udp4_connected connected_5353 network_info_zero Hsize)
    as (_ & Hstore & _).
  apply Hstore; [exact Hscan|discriminate|simpl; lia|simpl; lia].
Defined.

End examples.

(** ** The small system again: the front end and the parts of the probe *)

(** The exit codes as the usage text of [main.c] lists them. *)
Definition example_exit_codes : exit_codes :=
  {| EXIT_OK := 0; EXIT_WARNINGS := 1; EXIT_CRITICAL := 2; EXIT_ERROR := 3 |}.

Section more_examples.
#[local] Existing Instance example_h.
#[local] Existing Instance example_exit_codes.

(** What the quick report shows of the two listeners of the example. *)
Example report_example :
  report_listeners (probe_network example_world network_info_zero).2
  = [ nl +:+ "  Listeners:" +:+ nl;
      "    127.0.0.1:8443 (tcp) - envoy" +:+ nl;
      "    127.0.0.1:9999 (tcp) - [kernel]" +:+ nl ].
Proof. vm_compute. reflexivity. Qed.

Lemma get_process_name_first_line_witness :
  (2 ≤ 32)%nat ∧
  get_process_name example_world 500 "" 32
  = strn (32 - 1) (cut_newline ("envoy" +:+ nl)).
Proof.
  assert (2 ≤ 32)%nat as Hlen by lia. split; [exact Hlen|].
  destruct (get_process_name_first_line example_world 500 "" 32 Hlen)
    as (_ & _ & Hline & _).
  apply Hline; [vm_compute; reflexivity | discriminate].
Defined.

Lemma find_pid_for_inode_sound_witness :
  0 ≤ 12345 < 2 ^ 64 ∧ find_pid_for_inode example_world 12345 = 500 ∧
  ∃ entries before d after,
    opendir example_world "/proc" = Some entries ∧ entries = before ++ d :: after ∧
    holds_socket example_world 12345 d ∧ 500 = atoi d ∧
    Forall (λ d', proc_entry_owner example_world (inode_str 12345) d' = None) before.
Proof.
  assert (0 ≤ 12345 < 2 ^ 64) as Hrange by lia.
  assert (find_pid_for_inode example_world 12345 = 500) as Hfind
    by (vm_compute; reflexivity).
  split; [exact Hrange|]. split; [exact Hfind|].
  apply (find_pid_for_inode_sound example_world 12345 500 Hrange Hfind). discriminate.
Defined.

Lemma find_pid_for_inode_skips_witness :
  opendir example_world "/proc" = Some ["."; ".."; "1"; "500"; "self"] ∧
  ¬ inspectable example_world "self" ∧
  find_pid_for_inode example_world 12345
  = scan_proc_dir example_world (inode_str 12345) (["."; ".."; "1"; "500"] ++ []).
Proof.
  assert (opendir example_world "/proc" = Some ["."; ".."; "1"; "500"; "self"]) as Hdir
    by reflexivity.
  assert (¬ inspectable example_world "self") as Hself by (intros [Hc _]; discriminate Hc).
  split; [exact Hdir|]. split; [exact Hself|].
  destruct (find_pid_for_inode_skips example_world 12345 _ Hdir) as [_ Hskip].
  apply (Hskip "self" ["."; ".."; "1"; "500"] [] Hself). reflexivity.
Defined.

Lemma inode_str_inj_witness :
  0 ≤ 777 < 2 ^ 64 ∧ 0 ≤ 12345 < 2 ^ 64 ∧ inode_str 777 ≠ inode_str 12345.
Proof.
  assert (0 ≤ 777 < 2 ^ 64) as H1 by lia.
  assert (0 ≤ 12345 < 2 ^ 64) as H2 by lia.
  split; [exact H1|]. split; [exact H2|].
  intros Heq. destruct (inode_str_inj 777 12345 "" H1 H2) as [Hinj _].
  specialize (Hinj Heq). discriminate Hinj.
Defined.

Lemma proc_entry_canonical_pid_witness :
  0 ≤ 12345 < 2 ^ 64 ∧ 0 ≤ 500 < 2 ^ 31 ∧
  atoi (fmt_d 500) = 500 ∧
  proc_entry_owner example_world (inode_str 12345) (fmt_d 500) = Some 500.
Proof.
  assert (0 ≤ 12345 < 2 ^ 64) as Hi by lia.
  assert (0 ≤ 500 < 2 ^ 31) as Hp by lia.
  split; [exact Hi|]. split; [exact Hp|].
  destruct (proc_entry_canonical_pid example_world 12345 500 500 Hi Hp)
    as (Hatoi & _ & Hiff).
  split; [exact Hatoi|]. apply Hiff.
  exists ["."; ".."; "0"; "3"; "4"], "4".
  split; [vm_compute; reflexivity|]. split; [|vm_compute; reflexivity].
  do 4 right. left.
Defined.

Lemma hex_to_ip_scanned_witness :
  sscanf_sock false tcp4_listen_22 = Some listen_22 ∧
  hex_to_ip (local_addr_hex listen_22) 64 false
  = dotted_quad (hex_value (local_addr_hex listen_22)).
Proof.
  assert (sscanf_sock false tcp4_listen_22 = Some listen_22) as Hscan
    by (vm_compute; reflexivity).
  split; [exact Hscan|].
  destruct (hex_to_ip_scanned false tcp4_listen_22 listen_22 64 Hscan) as [H4 _].
  destruct (H4 eq_refl ltac:(lia)) as (_ & _ & Hlocal & _). exact Hlocal.
Defined.

Lemma dotted_quad_inj_witness :
  0 ≤ 16777343 < 2 ^ 32 ∧ 0 ≤ 33554559 < 2 ^ 32 ∧
  dotted_quad 16777343 ≠ dotted_quad 33554559.
Proof.
  assert (0 ≤ 16777343 < 2 ^ 32) as Ha by lia.
  assert (0 ≤ 33554559 < 2 ^ 32) as Hb by lia.
  split; [exact Ha|]. split; [exact Hb|].
  intros Heq. pose proof (dotted_quad_inj 16777343 33554559 Ha Hb Heq) as Hab.
  discriminate Hab.
Defined.

Lemma tcp_state_name_table_witness :
  2 ^ 31 ≤ 4294967295 < 2 ^ 32 ∧ tcp_state_name (to_int 4294967295) = "UNKNOWN".
Proof.
  assert (2 ^ 31 ≤ 4294967295 < 2 ^ 32) as Hu by lia.
  split; [exact Hu|].
  destruct (tcp_state_name_table 0) as (_ & _ & _ & _ & _ & Hbig).
  apply (Hbig 4294967295 Hu).
Defined.

Lemma lines_lossless_witness :
  (2 ≤ 512)%nat ∧
  concat_lines (lines 512 (header_line +:+ tcp4_listen_22)) = header_line +:+ tcp4_listen_22.
Proof.
  assert (2 ≤ 512)%nat as Hsize by lia. split; [exact Hsize|].
  destruct (lines_lossless 512 (header_line +:+ tcp4_listen_22) Hsize) as [Hcat _].
  exact Hcat.
Defined.

Lemma source_lines_text_witness :
  fopen example_world "/proc/net/udp"
  = Some (concat_lines
            (with_newline <$> [cut_newline header_line; cut_newline udp4_connected])) ∧
  source_lines example_world "/proc/net/udp" = [with_newline (cut_newline udp4_connected)].
Proof.
  assert (fopen example_world "/proc/net/udp"
          = Some (concat_lines
                    (with_newline <$> [cut_newline header_line; cut_newline udp4_connected])))
    as Hopen by (vm_compute; reflexivity).
  split; [exact Hopen|].
  assert (Forall (λ t, has_newline t = false ∧ (String.length t < 511)%nat)
            [cut_newline header_line; cut_newline udp4_connected]) as Hshort.
  { repeat constructor; vm_compute; reflexivity || lia. }
  destruct (source_lines_text example_world "/proc/net/udp" _ _ network_info_zero false
              Hshort Hopen) as [Hlines _].
  exact Hlines.
Defined.

Lemma parse_file_return_witness :
  fopen dead_world "/proc/net/tcp" = None ∧
  (parse_tcp_file dead_world "/proc/net/tcp" full_net false).1 = -1.
Proof.
  assert (fopen dead_world "/proc/net/tcp" = None) as Hopen by reflexivity.
  split; [exact Hopen|].
  destruct (parse_file_return dead_world "/proc/net/tcp" full_net false)
    as (_ & _ & Hiff & _).
  apply Hiff. left. exact Hopen.
Defined.

Lemma parsers_append_witness :
  well_shaped network_info_zero ∧
  extends network_info_zero
    (parse_tcp_file example_world "/proc/net/tcp" network_info_zero false).2.
Proof.
  assert (well_shaped network_info_zero) as Hws.
  { unfold well_shaped. simpl. repeat split; lia. }
  split; [exact Hws|].
  destruct (parsers_append example_world "/proc/net/tcp" network_info_zero false Hws)
    as [[_ Hext] _].
  exact Hext.
Defined.

Lemma probe_network_tags_witness :
  (5 ≤ sizeof_l_protocol)%nat ∧ (5 ≤ sizeof_c_protocol)%nat ∧ (12 ≤ sizeof_c_state)%nat ∧
  Forall (λ c, c_protocol c ∈ ["tcp"; "tcp6"] ∧ c_state c = "ESTABLISHED")
         (stored_connections (probe_network example_world full_net).2).
Proof.
  assert (5 ≤ sizeof_l_protocol)%nat as H1 by (simpl; lia).
  assert (5 ≤ sizeof_c_protocol)%nat as H2 by (simpl; lia).
  assert (12 ≤ sizeof_c_state)%nat as H3 by (simpl; lia).
  split; [exact H1|]. split; [exact H2|]. split; [exact H3|].
  destruct (probe_network_tags example_world full_net H1 H2 H3) as [_ Hconn].
  exact Hconn.
Defined.

Lemma probe_network_strings_fit_witness :
  Forall (λ l, (String.length (l_protocol l) < 8)%nat ∧
               (String.length (l_local_addr l) < 64)%nat ∧
               (String.length (l_state l) < 16)%nat ∧
               (String.length (l_process_name l) < 32)%nat ∧
               has_newline (l_process_name l) = false)
         (stored_listeners (probe_network example_world full_net).2).
Proof.
  destruct (probe_network_strings_fit example_world full_net) as [Hl _];
    try (simpl; lia).
  exact Hl.
Defined.

Lemma interval_option_clamped_witness :
  1 ≤ 300 ≤ 86400 ∧ interval_option (fmt_d 300) = 300.
Proof.
  assert (1 ≤ 300 ≤ 86400) as Hn by lia. split; [exact Hn|].
  destruct (interval_option_clamped "" 300) as (_ & _ & _ & _ & Hround).
  exact (Hround Hn).
Defined.

Definition quiet_analysis : quick_analysis_t :=
  {| zombie_process_count := 0; high_fd_process_count := 2;
     long_running_process_count := 7; config_permission_issues := 0;
     unusual_listeners := 1 |}.

Definition noisy_analysis : quick_analysis_t :=
  {| zombie_process_count := 0; high_fd_process_count := 2;
     long_running_process_count := 7; config_permission_issues := 0;
     unusual_listeners := 4 |}.

Lemma analysis_exit_code_monotone_witness :
  EXIT_OK ≤ EXIT_WARNINGS ≤ EXIT_CRITICAL ∧
  analysis_exit_code quiet_analysis ≤ analysis_exit_code noisy_analysis.
Proof.
  assert (EXIT_OK ≤ EXIT_WARNINGS ≤ EXIT_CRITICAL) as Hcodes by (simpl; lia).
  split; [exact Hcodes|].
  refine (proj1 (analysis_exit_code_monotone quiet_analysis noisy_analysis
                   Hcodes _ _ _ _)); simpl; lia.
Defined.

Lemma watch_mode_exit_worst_witness :
  2 ∈ [0; 2; 1] ∧ 2 ≤ watch_mode_exit [0; 2; 1].
Proof.
  assert (2 ∈ [0; 2; 1]) as Hin by (right; left).
  split; [exact Hin|].
  destruct (watch_mode_exit_worst [0; 2; 1] []) as (_ & Hall & _).
  exact (Hall 2 Hin).
Defined.

Lemma option_loop_settings_witness :
  Forall (λ o : ascii * string, setting_option o.1)
         [("q"%char, ""); ("i"%char, "300"); ("n"%char, "")] ∧
  ¬ setting_option "x" ∧
  (∃ s', option_loop [("q"%char, ""); ("i"%char, "300"); ("n"%char, "")] initial_settings
         = inr s' ∧ quick_mode s' = 1 ∧ network_mode s' = 1 ∧ watch_mode s' = 0) ∧
  option_loop ([("q"%char, "")] ++ ("x"%char, "") :: [("n"%char, "")]) initial_settings
  = inl EXIT_ERROR.
Proof.
  assert (Forall (λ o : ascii * string, setting_option o.1)
            [("q"%char, ""); ("i"%char, "300"); ("n"%char, "")]) as Hopts.
  { unfold setting_option. repeat constructor. }
  assert (Forall (λ o : ascii * string, setting_option o.1) [("q"%char, "")]) as Hbefore.
  { unfold setting_option. repeat constructor. }
  assert (¬ setting_option "x") as Hx.
  { unfold setting_option. rewrite !elem_of_cons, elem_of_nil.
    intros [H|[H|[H|[H|[H|[H|H]]]]]]; done. }
  split; [exact Hopts|]. split; [exact Hx|].
  destruct (option_loop_settings _ [] [("q"%char, "")] [("n"%char, "")] "x" ""
              initial_settings Hopts Hbefore) as ((s' & Hs' & Hq & _ & Hw & Hn & _) & _ & Hbad).
  split.
  - exists s'. split; [exact Hs'|]. split; [exact Hq|]. split; [exact Hn|exact Hw].
  - exact (Hbad Hx).
Defined.

Lemma unusual_port_count_of_entries_witness :
  (∀ v, is_common_port (to_uint16 (to_port v)) = is_common_port (to_uint16 v)) ∧
  unusual_port_count (probe_network example_world full_net).2
  = Z.of_nat
      (length (filter (λ l, is_common_port (to_uint16 (l_local_port l)) = 0)
                      (stored_listeners (probe_network example_world full_net).2))).
Proof.
  assert (∀ v, is_common_port (to_uint16 (to_port v)) = is_common_port (to_uint16 v))
    as Hport.
  { intros v. simpl. unfold to_uint16. by rewrite Z.mod_mod by lia. }
  split; [exact Hport|].
  apply (unusual_port_count_of_entries example_world full_net Hport).
Defined.

Lemma sscanf_sock_ignores_rest_witness :
  sscanf_sock false
    ("   0: 0100007F:20FB 00000000:0000 0A 00000000:00000000 00:00000000 00000000  1000        0 12345"
     +:+ " 1 0000000000000000 100 0 0 10 0")
  = Some {| local_addr_hex := "0100007F"; local_port := 8443;
            remote_addr_hex := "00000000"; remote_port := 0;
            state := 10; inode := 12345 |}.
Proof.
  apply sscanf_sock_ignores_rest.
  - vm_compute. reflexivity.
  - intros c t [= <- <-]. reflexivity.
Defined.

End more_examples.
